(** * KNU token distribution (tools/knu_distribution.py): model and properties

    A shallow embedding of [KNUDistributor]: eligibility validation, weight
    calculation, conversion of weights into integer deg amounts and the
    reward loop that drives the external [tek_tokens.py] process and the
    KNU ledger.

    Python [float] is IEEE-754 binary64.  The arithmetic the program uses is
    collected in the class [Number]; the program is written once over that
    class and read at two instances:
    - [Binary64.number]: Rocq's primitive floats, the arithmetic CPython
      performs, used whenever the program is evaluated on concrete inputs;
    - [Exact.number]: the rationals [Q], the same program with every
      operation exact, used for the algebraic laws of the weighting formula
      (they hold of the binary64 run up to rounding only). *)

From Stdlib Require Import ZArith QArith Qround Qabs Qpower List String Ascii Bool Lia Lqa Floats.
From Stdlib Require Import Permutation.
Import ListNotations.

Local Open Scope string_scope.
Local Open Scope list_scope.
Local Open Scope Z_scope.

(** ** Arithmetic interface *)

Class Number (F : Type) : Type := {
  (** the float literals [0.0] and [1.0] (also what the ints [0] and [1]
      become in mixed arithmetic) *)
  fzero : F;
  fone : F;
  fadd : F -> F -> F;
  fsub : F -> F -> F;
  fmul : F -> F -> F;
  (** [x / y] with [y] non-zero; every division of the program is guarded *)
  fdiv : F -> F -> F;
  (** [x == y] and [x < y] *)
  feqb : F -> F -> bool;
  fltb : F -> F -> bool;
  (** the implicit conversion of an int operand in [int * float];
      [None] is OverflowError *)
  float_of_int : Z -> option F;
  (** [int(x)], truncation toward zero; [None] is ValueError (NaN) or
      OverflowError (infinity) *)
  int_of_float : F -> option Z;
  (** true division [a / b] of two ints; [None] is ZeroDivisionError or
      OverflowError *)
  int_truediv : Z -> Z -> option F
}.

(** the integer part of a rational, toward zero *)
Definition Qtrunc (q : Q) : Z := Z.quot (Qnum q) (Zpos (Qden q)).

(** ** Binary64 *)

Module Binary64.

Definition SF_of_Z (z : Z) : spec_float :=
  match z with
  | Z0 => S754_zero false
  | Zpos p => S754_finite false p 0
  | Zneg p => S754_finite true p 0
  end.

Definition SF_finite (x : spec_float) : bool :=
  match x with
  | S754_zero _ | S754_finite _ _ _ => true
  | S754_infinity _ | S754_nan => false
  end.

(** the rational a finite float stands for *)
Definition SF2Q (x : spec_float) : option Q :=
  match x with
  | S754_zero _ => Some 0%Q
  | S754_finite s m (Zneg k) => Some (Qmake (cond_Zopp s (Zpos m)) (2 ^ k)%positive)
  | S754_finite s m e => Some (inject_Z (cond_Zopp s (Zpos m) * 2 ^ e))
  | S754_infinity _ | S754_nan => None
  end.

Definition b64_value (x : float) : option Q := SF2Q (Prim2SF x).

(** int -> float, correctly rounded (ties to even) *)
Definition b64_of_int (z : Z) : option float :=
  let r := binary_normalize prec emax z 0 false in
  if SF_finite r then Some (SF2Prim r) else None.

(** [int(x)]: the integer part of a finite float *)
Definition SF_trunc (x : spec_float) : option Z :=
  match x with
  | S754_zero _ => Some 0
  | S754_finite s m e => Some (cond_Zopp s (Z.shiftl (Zpos m) e))
  | S754_infinity _ | S754_nan => None
  end.

Definition b64_int (x : float) : option Z := SF_trunc (Prim2SF x).

(** int / int, the correctly rounded quotient *)
Definition b64_truediv (a b : Z) : option float :=
  if b =? 0 then None
  else
    let r := SFdiv prec emax (SF_of_Z a) (SF_of_Z b) in
    if SF_finite r then Some (SF2Prim r) else None.

#[global] Instance number : Number float := {|
  fzero := 0%float;
  fone := 1%float;
  fadd := PrimFloat.add;
  fsub := PrimFloat.sub;
  fmul := PrimFloat.mul;
  fdiv := PrimFloat.div;
  feqb := PrimFloat.eqb;
  fltb := PrimFloat.ltb;
  float_of_int := b64_of_int;
  int_of_float := b64_int;
  int_truediv := b64_truediv
|}.

End Binary64.

(** ** Exact rationals *)

Module Exact.

#[global] Instance number : Number Q := {|
  fzero := 0%Q;
  fone := 1%Q;
  fadd := Qplus;
  fsub := Qminus;
  fmul := Qmult;
  fdiv := Qdiv;
  feqb := Qeq_bool;
  fltb := fun x y => negb (Qle_bool y x);
  float_of_int := fun z => Some (inject_Z z);
  int_of_float := fun q => Some (Qtrunc q);
  int_truediv := fun a b => if b =? 0 then None else Some (inject_Z a / inject_Z b)%Q
|}.

End Exact.

(** ** Strings *)

Definition squote : ascii := "'"%char.
Definition dquote : ascii := ascii_of_nat 34.
Definition backslash : ascii := ascii_of_nat 92.

Fixpoint str_mem (c : ascii) (s : string) : bool :=
  match s with
  | EmptyString => false
  | String c' s' => Ascii.eqb c c' || str_mem c s'
  end.

Definition hex_digit (n : nat) : ascii :=
  ascii_of_nat (if Nat.ltb n 10 then 48 + n else 87 + n).

(** [str.isprintable] on the code points 0..255 *)
Definition printable (c : ascii) : bool :=
  let n := nat_of_ascii c in
  negb (Nat.ltb n 32 || (Nat.leb 127 n && Nat.leb n 160) || Nat.eqb n 173).

Definition repr_char (quote c : ascii) : string :=
  if Ascii.eqb c backslash then String backslash (String backslash EmptyString)
  else if Ascii.eqb c quote then String backslash (String quote EmptyString)
  else if Ascii.eqb c (ascii_of_nat 9) then String backslash "t"
  else if Ascii.eqb c (ascii_of_nat 10) then String backslash "n"
  else if Ascii.eqb c (ascii_of_nat 13) then String backslash "r"
  else if printable c then String c EmptyString
  else
    let n := nat_of_ascii c in
    String backslash (String "x" (String (hex_digit (Nat.div n 16))
                                         (String (hex_digit (Nat.modulo n 16)) EmptyString))).

Fixpoint repr_chars (quote : ascii) (s : string) : string :=
  match s with
  | EmptyString => EmptyString
  | String c s' => (repr_char quote c ++ repr_chars quote s')%string
  end.

(** [repr] of a str: single quotes unless the text has a single quote and
    no double quote *)
Definition py_repr (s : string) : string :=
  let quote := if str_mem squote s && negb (str_mem dquote s) then dquote else squote in
  String quote (repr_chars quote s ++ String quote EmptyString)%string.

Fixpoint join (sep : string) (l : list string) : string :=
  match l with
  | [] => EmptyString
  | [x] => x
  | x :: l' => (x ++ sep ++ join sep l')%string
  end.

(** [str] of a list of str, as an f-string formats it *)
Definition py_repr_list (l : list string) : string :=
  ("[" ++ join ", " (map py_repr l) ++ "]")%string.

(** [x in l] for a list of str *)
Definition str_in (x : string) (l : list string) : bool :=
  existsb (String.eqb x) l.

(** *** The pattern [(TX-\d{6})] *)

Definition is_digit (c : ascii) : bool :=
  let n := nat_of_ascii c in Nat.leb 48 n && Nat.leb n 57.

(** [\d{n}] anchored at the start of [s] *)
Fixpoint match_digits (n : nat) (s : string) : option string :=
  match n with
  | O => Some EmptyString
  | S n' =>
    match s with
    | String c s' =>
      if is_digit c then option_map (String c) (match_digits n' s') else None
    | EmptyString => None
    end
  end.

(** [s] without its prefix [p], when it starts with [p] *)
Fixpoint strip_prefix (p s : string) : option string :=
  match p with
  | EmptyString => Some s
  | String a p' =>
    match s with
    | String b s' => if Ascii.eqb a b then strip_prefix p' s' else None
    | EmptyString => None
    end
  end.

(** the pattern anchored at the start of [s] *)
Definition match_tx (s : string) : option string :=
  match strip_prefix "TX-" s with
  | Some rest => option_map (String.append "TX-") (match_digits 6 rest)
  | None => None
  end.

(** [re.search(r'(TX-\d{6})', s)]: group 1 of the leftmost match *)
Fixpoint re_search_tx (s : string) : option string :=
  match match_tx s with
  | Some m => Some m
  | None =>
    match s with
    | EmptyString => None
    | String _ s' => re_search_tx s'
    end
  end.

(** ** Exceptions *)

Inductive exn : Type :=
| DistributionError (msg : string)
| ValidationError (msg : string)
| ConfigError (msg : string)
(** ValueError, OverflowError or ZeroDivisionError of a numeric conversion *)
| ConversionError.

(** [isinstance(e, DistributionError)]: the class and its two subclasses *)
Definition is_DistributionError (e : exn) : bool :=
  match e with
  | DistributionError _ | ValidationError _ | ConfigError _ => true
  | ConversionError => false
  end.

Inductive result (A : Type) : Type :=
| Ok (a : A)
| Raise (e : exn).
Arguments Ok {A} a.
Arguments Raise {A} e.

(** what [subprocess.run(..., check=False)] gives back *)
Inductive run_result : Type :=
| Completed (returncode : Z) (stdout stderr : string)
| SubprocessError (msg : string).

(** ** Data model *)

Definition DEG_PER_TT : Z := 360.

Section Model.

Context {F : Type} `{Number F}.

Record KNUEntry : Type := {
  knu_id : string;
  knot_id : string;
  owner : string;
  E_pred : F;
  dR_primary : F;
  dR_adj_sum : F;
  status : string;
  artifacts : list string;
  validated_by : string;
  validated_at : string
}.

Record KNOTPool : Type := {
  pool_knot_id : string;
  pool_tt : F;
  description : string
}.

Record Distribution : Type := {
  d_knu_id : string;
  d_owner : string;
  weight : F;
  tokens_tt : F;
  tokens_deg : Z;
  tx_id : string
}.

Definition set_tx_id (d : Distribution) (tx : string) : Distribution :=
  {| d_knu_id := d_knu_id d; d_owner := d_owner d; weight := weight d;
     tokens_tt := tokens_tt d; tokens_deg := tokens_deg d; tx_id := tx |}.

(** *** Configuration ([finance/knu_pools.json]) *)

Record PoolEntry : Type := {
  entry_pool_tt : F;
  entry_description : option string
}.

(** the [eligibility] object; an absent key is [None] *)
Record Eligibility : Type := {
  cfg_required_status : option (list string);
  cfg_require_artifacts : option bool;
  cfg_require_validation : option bool
}.

Record PoolsData : Type := {
  pools : string -> option PoolEntry;
  eligibility : option Eligibility
}.

Record KNUDistributor : Type := {
  pools_data : PoolsData;
  alpha : F;
  lambda_spillover : F
}.

(** [d.get(key, default)] *)
Definition dict_get {A : Type} (v : option A) (default : A) : A :=
  match v with
  | Some x => x
  | None => default
  end.

(** *** Weights *)

(** Python's built-in [sum]: a left fold starting from the int [0].
    (CPython from 3.12 on carries a compensation term through a sum of
    floats; the two agree on up to two floats and whenever the partial sums
    are exact, and can differ in the last bit otherwise.) *)
Definition py_sum (l : list F) : F := fold_left fadd l fzero.

(** [[0.0] * n] *)
Definition zeros (n : nat) : list F := repeat fzero n.

(** [calculate_weights] with [alpha] and [lambda_spill] resolved *)
Definition calculate_weights_with (alpha lambda_spill : F) (knus : list KNUEntry)
  : list (KNUEntry * F) :=
  match knus with
  | [] => []
  | _ =>
    let total_effort := py_sum (map E_pred knus) in
    let effort_norm :=
      if feqb total_effort fzero then zeros (List.length knus)
      else map (fun knu => fdiv (E_pred knu) total_effort) knus in
    let impacts :=
      map (fun knu => fadd (dR_primary knu) (fmul lambda_spill (dR_adj_sum knu))) knus in
    let total_impact := py_sum impacts in
    let impact_norm :=
      if feqb total_impact fzero then zeros (List.length knus)
      else map (fun imp => fdiv imp total_impact) impacts in
    let weights :=
      map (fun en_im => fadd (fmul alpha (fst en_im)) (fmul (fsub fone alpha) (snd en_im)))
          (combine effort_norm impact_norm) in
    let total_weight := py_sum weights in
    let weights :=
      if fltb fzero total_weight then map (fun w => fdiv w total_weight) weights
      else weights in
    combine knus weights
  end.

Definition calculate_weights (self : KNUDistributor) (knus : list KNUEntry)
           (alpha_arg lambda_spill_arg : option F) : list (KNUEntry * F) :=
  calculate_weights_with (dict_get alpha_arg (alpha self))
                         (dict_get lambda_spill_arg (lambda_spillover self)) knus.

(** *** Eligibility *)

Definition validate_eligibility (self : KNUDistributor) (knu : KNUEntry) : bool * string :=
  let eligibility :=
    dict_get (eligibility (pools_data self))
             {| cfg_required_status := None; cfg_require_artifacts := None;
                cfg_require_validation := None |} in
  let required_status := dict_get (cfg_required_status eligibility) ["accepted"; "merged"] in
  let require_artifacts := dict_get (cfg_require_artifacts eligibility) true in
  let require_validation := dict_get (cfg_require_validation eligibility) true in
  if negb (str_in (status knu) required_status) then
    (false, ("Status '" ++ status knu ++ "' not in required: "
               ++ py_repr_list required_status)%string)
  else if require_artifacts && match artifacts knu with [] => true | _ => false end then
    (false, "No artifacts provided (required)")
  else if require_validation then
    if String.eqb (validated_by knu) EmptyString then
      (false, "No validator specified (required)")
    else if String.eqb (validated_at knu) EmptyString then
      (false, "No validation timestamp (required)")
    else (true, EmptyString)
  else (true, EmptyString).

End Model.

Arguments KNUEntry F : clear implicits.
Arguments KNOTPool F : clear implicits.
Arguments Distribution F : clear implicits.
Arguments PoolEntry F : clear implicits.
Arguments PoolsData F : clear implicits.
Arguments KNUDistributor F : clear implicits.

(** ** The outside world

    The engine reads the clock, runs [tek_tokens.py reward] as a child
    process, appends to [finance/knu_ledger.csv] and prints.  The answers of
    the clock and of the child process are not the program's: they are read
    from an [Env], the k-th answer at the k-th question. *)

Record Env : Type := {
  now_at : nat -> string;
  run_at : nat -> run_result
}.

(** A computation reads and changes the world and returns or raises. *)

Section Monad.

Context {W : Type}.

Definition M (A : Type) : Type := W -> W * result A.

Definition ret {A : Type} (a : A) : M A := fun w => (w, Ok a).

Definition raise {A : Type} (e : exn) : M A := fun w => (w, Raise e).

Definition bind {A B : Type} (m : M A) (k : A -> M B) : M B :=
  fun w =>
    match m w with
    | (w', Ok a) => k a w'
    | (w', Raise e) => (w', Raise e)
    end.

(** [try: m except DistributionError as e: handler e] *)
Definition try_except {A : Type} (m : M A) (handler : exn -> M A) : M A :=
  fun w =>
    match m w with
    | (w', Ok a) => (w', Ok a)
    | (w', Raise e) => if is_DistributionError e then handler e w' else (w', Raise e)
    end.

(** a numeric conversion that may raise *)
Definition convert {A : Type} (v : option A) : M A :=
  match v with
  | Some a => ret a
  | None => raise ConversionError
  end.

End Monad.

Arguments M W A : clear implicits.

Declare Scope knu_scope.
Notation "x <- m ;; k" := (bind m (fun x => k))
  (at level 61, m at next level, right associativity) : knu_scope.
Notation "m ;; k" := (bind m (fun _ => k))
  (at level 61, right associativity) : knu_scope.
Local Open Scope knu_scope.

Section Engine.

Context {F : Type} `{Number F}.

(** the [metadata] dict that [distribute] builds *)
Record Metadata : Type := {
  md_timestamp : string;
  md_knot_id : string;
  md_knu_id : string;
  md_owner : string;
  md_E_pred : F;
  md_dR_primary : F;
  md_dR_adj_sum : F;
  md_weight : F;
  md_tokens_tt : F;
  md_tokens_deg : Z;
  md_validated_by : string
}.

(** one line of the ledger file: the header, or a data row (the metadata
    with the transaction id in the eleventh column) *)
Inductive LedgerLine : Type :=
| Header
| Row (metadata : Metadata) (tx : string).

(** what [print] writes, unformatted *)
Inductive Event : Type :=
| SkippedIneligible (knu error : string)
| SkippedOtherKnot (knu knu_knot knot : string)
| Rewarded (knu to : string) (tt : F) (deg : Z) (tx : string)
| RewardFailed (knu : string) (e : exn)
| DryRun (knu to : string) (tt : F) (deg : Z).

Record World : Type := {
  (** readings of the clock so far *)
  clock : nat;
  (** reward commands run so far: the [--to] and [--tt] arguments *)
  calls : list (string * F);
  (** the ledger file, [None] while it does not exist *)
  ledger : option (list LedgerLine);
  console : list Event
}.

Variable env : Env.

Definition print (ev : Event) : M World unit :=
  fun w =>
    ({| clock := clock w; calls := calls w; ledger := ledger w;
        console := console w ++ [ev] |}, Ok tt).

(** [datetime.now(timezone.utc).isoformat()] *)
Definition now : M World string :=
  fun w =>
    ({| clock := S (clock w); calls := calls w; ledger := ledger w;
        console := console w |}, Ok (now_at env (clock w))).

(** [subprocess.run] of the reward command *)
Definition subprocess_run (to : string) (tt_amount : F) : M World run_result :=
  fun w =>
    ({| clock := clock w; calls := calls w ++ [(to, tt_amount)]; ledger := ledger w;
        console := console w |}, Ok (run_at env (List.length (calls w)))).

(** appends one row to the ledger, after the header when the file is new or
    empty; creating and writing the file are taken to succeed *)
Definition _log_to_csv (metadata : Metadata) (tx : string) : M World unit :=
  fun w =>
    let old := match ledger w with Some l => l | None => [] end in
    let header := match old with [] => [Header] | _ => [] end in
    ({| clock := clock w; calls := calls w;
        ledger := Some (old ++ header ++ [Row metadata tx]);
        console := console w |}, Ok tt).

Definition execute_reward (to : string) (tt_amount : F) (metadata : Metadata)
  : M World string :=
  result <- subprocess_run to tt_amount ;;
  match result with
  | SubprocessError e =>
    raise (DistributionError ("Failed to execute reward: " ++ e)%string)
  | Completed returncode stdout stderr =>
    if negb (returncode =? 0) then
      raise (DistributionError ("TT reward failed for " ++ to ++ ": " ++ stderr)%string)
    else
      match re_search_tx stdout with
      | None =>
        raise (DistributionError
                 ("Could not parse transaction ID from output: " ++ stdout)%string)
      | Some tx =>
        _log_to_csv metadata tx ;;
        ret tx
      end
  end.

Definition load_pool_config (self : KNUDistributor F) (knot : string)
  : M World (KNOTPool F) :=
  match pools (pools_data self) knot with
  | None => raise (ConfigError ("KNOT " ++ knot ++ " not found in pools config")%string)
  | Some pool_data =>
    ret {| pool_knot_id := knot; pool_tt := entry_pool_tt pool_data;
           description := dict_get (entry_description pool_data) EmptyString |}
  end.

(** the first loop of [distribute]: keep the eligible records of this KNOT *)
Fixpoint validate_all (self : KNUDistributor F) (knot : string)
         (knus valid_knus : list (KNUEntry F)) : M World (list (KNUEntry F)) :=
  match knus with
  | [] => ret valid_knus
  | knu :: knus' =>
    let (is_valid, error) := validate_eligibility self knu in
    if negb is_valid then
      print (SkippedIneligible (knu_id knu) error) ;;
      validate_all self knot knus' valid_knus
    else if negb (String.eqb (knot_id knu) knot) then
      print (SkippedOtherKnot (knu_id knu) (knot_id knu) knot) ;;
      validate_all self knot knus' valid_knus
    else validate_all self knot knus' (valid_knus ++ [knu])
  end.

(** [int(pool_tt * DEG_PER_TT)] *)
Definition to_deg (pool_tt : F) : option Z :=
  match float_of_int DEG_PER_TT with
  | Some deg_per_tt => int_of_float (fmul pool_tt deg_per_tt)
  | None => None
  end.

(** the second loop of [distribute]; [len] is [len(weighted_knus)], [i] the
    index of the head of [weighted_knus] *)
Fixpoint distribute_loop (dry_run : bool) (knot : string) (pool_deg : Z) (len : nat)
         (i : nat) (weighted_knus : list (KNUEntry F * F))
         (total_distributed_deg : Z) (distributions : list (Distribution F))
  : M World (list (Distribution F)) :=
  match weighted_knus with
  | [] => ret distributions
  | (knu, weight) :: rest =>
    pool_deg_f <- convert (float_of_int pool_deg) ;;
    allocated_deg <- convert (int_of_float (fmul pool_deg_f weight)) ;;
    allocated_tt <- convert (int_truediv allocated_deg DEG_PER_TT) ;;
    alloc <- (if Nat.eqb i (len - 1) then
                let remainder := pool_deg - total_distributed_deg in
                allocated_tt <- convert (int_truediv remainder DEG_PER_TT) ;;
                ret (remainder, allocated_tt)
              else ret (allocated_deg, allocated_tt)) ;;
    let (allocated_deg, allocated_tt) := alloc : Z * F in
    let total_distributed_deg := total_distributed_deg + allocated_deg in
    let dist :=
      {| d_knu_id := knu_id knu; d_owner := owner knu; weight := weight;
         tokens_tt := allocated_tt; tokens_deg := allocated_deg;
         tx_id := EmptyString |} in
    if negb dry_run then
      timestamp <- now ;;
      let metadata :=
        {| md_timestamp := timestamp; md_knot_id := knot; md_knu_id := knu_id knu;
           md_owner := owner knu; md_E_pred := E_pred knu;
           md_dR_primary := dR_primary knu; md_dR_adj_sum := dR_adj_sum knu;
           md_weight := weight; md_tokens_tt := allocated_tt;
           md_tokens_deg := allocated_deg; md_validated_by := validated_by knu |} in
      rewarded <- try_except
                    (tx <- execute_reward (owner knu) allocated_tt metadata ;;
                     print (Rewarded (knu_id knu) (owner knu) allocated_tt allocated_deg tx) ;;
                     ret (Some tx))
                    (fun e => print (RewardFailed (knu_id knu) e) ;; ret None) ;;
      match rewarded with
      | Some tx =>
        distribute_loop dry_run knot pool_deg len (S i) rest total_distributed_deg
                        (distributions ++ [set_tx_id dist tx])
      | None =>
        distribute_loop dry_run knot pool_deg len (S i) rest total_distributed_deg
                        distributions
      end
    else
      print (DryRun (knu_id knu) (owner knu) allocated_tt allocated_deg) ;;
      distribute_loop dry_run knot pool_deg len (S i) rest total_distributed_deg
                      (distributions ++ [dist])
  end.

Definition distribute (self : KNUDistributor F) (knot : string)
           (knus : list (KNUEntry F)) (dry_run : bool) : M World (list (Distribution F)) :=
  pool <- load_pool_config self knot ;;
  valid_knus <- validate_all self knot knus [] ;;
  match valid_knus with
  | [] => raise (ValidationError "No valid KNUs found for distribution")
  | _ =>
    let weighted_knus := calculate_weights self valid_knus None None in
    pool_deg <- convert (to_deg (pool_tt pool)) ;;
    distribute_loop dry_run knot pool_deg (List.length weighted_knus) 0 weighted_knus 0 []
  end.

End Engine.

Arguments Metadata F : clear implicits.
Arguments LedgerLine F : clear implicits.
Arguments Event F : clear implicits.
Arguments World F : clear implicits.

(** * Properties *)

(** ** Weights in closed form *)

Section WeightsClosedForm.

Context {F : Type} `{Number F}.
Variables alpha lambda_spill : F.

Definition impact (knu : KNUEntry F) : F :=
  fadd (dR_primary knu) (fmul lambda_spill (dR_adj_sum knu)).

Definition total_effort (knus : list (KNUEntry F)) : F := py_sum (map E_pred knus).
Definition total_impact (knus : list (KNUEntry F)) : F := py_sum (map impact knus).

Definition effort_norm (knus : list (KNUEntry F)) (knu : KNUEntry F) : F :=
  if feqb (total_effort knus) fzero then fzero
  else fdiv (E_pred knu) (total_effort knus).

Definition impact_norm (knus : list (KNUEntry F)) (knu : KNUEntry F) : F :=
  if feqb (total_impact knus) fzero then fzero
  else fdiv (impact knu) (total_impact knus).

Definition raw_weight (knus : list (KNUEntry F)) (knu : KNUEntry F) : F :=
  fadd (fmul alpha (effort_norm knus knu))
       (fmul (fsub fone alpha) (impact_norm knus knu)).

Definition total_weight (knus : list (KNUEntry F)) : F :=
  py_sum (map (raw_weight knus) knus).

Definition final_weight (knus : list (KNUEntry F)) (knu : KNUEntry F) : F :=
  if fltb fzero (total_weight knus) then fdiv (raw_weight knus knu) (total_weight knus)
  else raw_weight knus knu.

Lemma combine_map_map {A B C : Type} (f : A -> B) (g : A -> C) (l : list A) :
  combine (map f l) (map g l) = map (fun x => (f x, g x)) l.
Proof. induction l as [|x l IH]; simpl; [reflexivity | now rewrite IH]. Qed.

Lemma zeros_map {A : Type} (l : list A) :
  zeros (List.length l) = map (fun _ => fzero) l.
Proof. unfold zeros. induction l as [|x l IH]; simpl; [reflexivity | now rewrite IH]. Qed.

Lemma calculate_weights_closed_form (knus : list (KNUEntry F)) :
  calculate_weights_with alpha lambda_spill knus
  = map (fun knu => (knu, final_weight knus knu)) knus.
Proof.
  unfold calculate_weights_with.
  destruct knus as [|k0 l] eqn:E; [reflexivity | rewrite <- E; clear E k0 l].
  change (map (fun knu => fadd (dR_primary knu) (fmul lambda_spill (dR_adj_sum knu))) knus)
    with (map impact knus).
  fold (total_effort knus). fold (total_impact knus).
  replace (if feqb (total_effort knus) fzero then zeros (List.length knus)
           else map (fun knu => fdiv (E_pred knu) (total_effort knus)) knus)
    with (map (effort_norm knus) knus).
  2:{ unfold effort_norm. destruct (feqb (total_effort knus) fzero);
      [symmetry; apply zeros_map | reflexivity]. }
  replace (if feqb (total_impact knus) fzero then zeros (List.length knus)
           else map (fun imp => fdiv imp (total_impact knus)) (map impact knus))
    with (map (impact_norm knus) knus).
  2:{ unfold impact_norm. destruct (feqb (total_impact knus) fzero);
      [symmetry; apply zeros_map | now rewrite map_map]. }
  rewrite combine_map_map, map_map. cbn [fst snd].
  change (map (fun x => fadd (fmul alpha (effort_norm knus x))
                             (fmul (fsub fone alpha) (impact_norm knus x))) knus)
    with (map (raw_weight knus) knus).
  fold (total_weight knus).
  replace (if fltb fzero (total_weight knus)
           then map (fun w => fdiv w (total_weight knus)) (map (raw_weight knus) knus)
           else map (raw_weight knus) knus)
    with (map (final_weight knus) knus).
  - rewrite <- (map_id knus) at 1. now rewrite combine_map_map.
  - unfold final_weight. destruct (fltb fzero (total_weight knus));
      [now rewrite map_map | reflexivity].
Qed.

End WeightsClosedForm.

(** ** Eligibility *)

Section EligibilityRules.

Context {F : Type} `{Number F}.

(** the policy in force: the configured values, or the defaults *)
Definition policy_status (self : KNUDistributor F) : list string :=
  match eligibility (pools_data self) with
  | Some e => dict_get (cfg_required_status e) ["accepted"; "merged"]
  | None => ["accepted"; "merged"]
  end.

Definition policy_artifacts (self : KNUDistributor F) : bool :=
  match eligibility (pools_data self) with
  | Some e => dict_get (cfg_require_artifacts e) true
  | None => true
  end.

Definition policy_validation (self : KNUDistributor F) : bool :=
  match eligibility (pools_data self) with
  | Some e => dict_get (cfg_require_validation e) true
  | None => true
  end.

(** [s] occurs in [t] *)
Definition occurs (s t : string) : Prop :=
  exists pre post, t = (pre ++ s ++ post)%string.

Lemma append_assoc (a b c : string) : ((a ++ b) ++ c)%string = (a ++ b ++ c)%string.
Proof. induction a as [|x a IH]; simpl; [reflexivity | now rewrite IH]. Qed.

Lemma append_nil_r (a : string) : (a ++ EmptyString)%string = a.
Proof. induction a as [|x a IH]; simpl; [reflexivity | now rewrite IH]. Qed.

Lemma str_in_In (x : string) (l : list string) : str_in x l = true <-> In x l.
Proof.
  unfold str_in. rewrite existsb_exists. split.
  - intros [y [Hy Heq]]. apply String.eqb_eq in Heq. now subst.
  - intros Hin. exists x. split; [assumption | apply String.eqb_refl].
Qed.

Lemma validate_eligibility_unfold (self : KNUDistributor F) (knu : KNUEntry F) :
  validate_eligibility self knu =
  if negb (str_in (status knu) (policy_status self)) then
    (false, ("Status '" ++ status knu ++ "' not in required: "
               ++ py_repr_list (policy_status self))%string)
  else if policy_artifacts self && match artifacts knu with [] => true | _ => false end then
    (false, "No artifacts provided (required)")
  else if policy_validation self then
    if String.eqb (validated_by knu) EmptyString then
      (false, "No validator specified (required)")
    else if String.eqb (validated_at knu) EmptyString then
      (false, "No validation timestamp (required)")
    else (true, EmptyString)
  else (true, EmptyString).
Proof.
  unfold validate_eligibility, policy_status, policy_artifacts, policy_validation.
  destruct (eligibility (pools_data self)); reflexivity.
Qed.

(** C6: [validate_eligibility] applies its three rules in order and the
    first failure wins.  (a) A status outside the required set is rejected,
    the reason quoting the status and printing the allowed list; (b)
    otherwise, when artifacts are required and the list is empty, the reason
    says that no artifacts were provided; (c) otherwise, when validation is
    required, an empty validator and then an empty timestamp are rejected,
    the reason saying which one is missing; a record that passes everything
    is accepted with the empty reason.  The function is a pure function of
    the configuration and the record: it takes and returns no world. *)
Theorem validate_eligibility_rules (self : KNUDistributor F) (knu : KNUEntry F) :
  let required := policy_status self in
  let reason := snd (validate_eligibility self knu) in
  (~ In (status knu) required ->
     validate_eligibility self knu
     = (false, ("Status '" ++ status knu ++ "' not in required: "
                  ++ py_repr_list required)%string)
     /\ occurs (status knu) reason /\ occurs (py_repr_list required) reason)
  /\ (In (status knu) required ->
      policy_artifacts self = true -> artifacts knu = [] ->
      validate_eligibility self knu = (false, "No artifacts provided (required)"))
  /\ (In (status knu) required ->
      (policy_artifacts self = false \/ artifacts knu <> []) ->
      policy_validation self = true -> validated_by knu = EmptyString ->
      validate_eligibility self knu = (false, "No validator specified (required)"))
  /\ (In (status knu) required ->
      (policy_artifacts self = false \/ artifacts knu <> []) ->
      policy_validation self = true ->
      validated_by knu <> EmptyString -> validated_at knu = EmptyString ->
      validate_eligibility self knu = (false, "No validation timestamp (required)"))
  /\ (In (status knu) required ->
      (policy_artifacts self = false \/ artifacts knu <> []) ->
      (policy_validation self = false
       \/ (validated_by knu <> EmptyString /\ validated_at knu <> EmptyString)) ->
      validate_eligibility self knu = (true, EmptyString)).
Proof.
  intros required reason. subst reason. rewrite validate_eligibility_unfold.
  fold required.
  assert (Hart : forall b, (b = false \/ artifacts knu <> []) ->
                 b && match artifacts knu with [] => true | _ => false end = false).
  { intros b [-> | Hne]; [reflexivity | ].
    destruct (artifacts knu); [contradiction | apply andb_false_r]. }
  assert (Hne : forall s, s <> EmptyString -> String.eqb s EmptyString = false).
  { intros s Hs. now apply String.eqb_neq. }
  repeat split.
  - destruct (str_in (status knu) required) eqn:E; [ | reflexivity].
    apply str_in_In in E. contradiction.
  - destruct (str_in (status knu) required) eqn:E; simpl.
    + apply str_in_In in E. contradiction.
    + exists "Status '", ("' not in required: " ++ py_repr_list required)%string.
      reflexivity.
  - destruct (str_in (status knu) required) eqn:E; simpl.
    + apply str_in_In in E. contradiction.
    + exists ("Status '" ++ status knu ++ "' not in required: ")%string, EmptyString.
      rewrite append_nil_r, !append_assoc. reflexivity.
  - intros Hin Ha Hnil. apply str_in_In in Hin. now rewrite Hin, Ha, Hnil.
  - intros Hin Ha Hv Hby. apply str_in_In in Hin.
    now rewrite Hin, (Hart _ Ha), Hv, Hby.
  - intros Hin Ha Hv Hby Hat. apply str_in_In in Hin.
    now rewrite Hin, (Hart _ Ha), Hv, (Hne _ Hby), Hat.
  - intros Hin Ha Hv. apply str_in_In in Hin. rewrite Hin, (Hart _ Ha). simpl.
    destruct Hv as [-> | [Hby Hat]]; [reflexivity | ].
    rewrite (Hne _ Hby), (Hne _ Hat). now destruct (policy_validation self).
Qed.

End EligibilityRules.

(** ** The transaction identifier pattern *)

Fixpoint str_forallb (f : ascii -> bool) (s : string) : bool :=
  match s with
  | EmptyString => true
  | String c s' => f c && str_forallb f s'
  end.

(** [tx] is [TX-] followed by six digits *)
Definition is_tx_id (tx : string) : Prop :=
  exists d, tx = ("TX-" ++ d)%string /\ String.length d = 6%nat
            /\ str_forallb is_digit d = true.

(** [s] has a substring that matches the pattern *)
Definition contains_tx_id (s : string) : Prop :=
  exists tx, is_tx_id tx /\ occurs tx s.

Lemma strip_prefix_spec (p s r : string) :
  strip_prefix p s = Some r <-> s = (p ++ r)%string.
Proof.
  revert s. induction p as [|a p IH]; intros s; simpl.
  - split; [now intros [= ->] | now intros ->].
  - destruct s as [|b s]; [split; discriminate | ].
    destruct (Ascii.eqb a b) eqn:E.
    + apply Ascii.eqb_eq in E. subst b. rewrite IH. split; [now intros -> | now intros [= ->]].
    + apply Ascii.eqb_neq in E. split; [discriminate | intros [= <- _]; contradiction].
Qed.

Lemma match_digits_spec (n : nat) (s d : string) :
  match_digits n s = Some d <->
  (exists rest, s = (d ++ rest)%string) /\ String.length d = n
  /\ str_forallb is_digit d = true.
Proof.
  revert s d. induction n as [|n IH]; intros s d; simpl.
  - split.
    + intros [= <-]. repeat split. now exists s.
    + intros [_ [Hlen _]]. destruct d; [reflexivity | discriminate].
  - destruct s as [|c s].
    + split; [discriminate | ].
      intros [[rest Hs] [Hlen _]]. destruct d; discriminate.
    + destruct (is_digit c) eqn:Hc.
      * destruct (match_digits n s) as [d'|] eqn:Hm; simpl.
        -- apply IH in Hm. destruct Hm as [[rest ->] [Hlen Hall]]. split.
           ++ intros [= <-]. simpl. rewrite Hc, Hall, Hlen. repeat split. now exists rest.
           ++ intros [[rest' Hs] [Hlen' Hall']]. destruct d as [|c0 d0]; [discriminate | ].
              simpl in Hs, Hlen', Hall'. injection Hs as <- Hs. injection Hlen' as Hlen'.
              apply andb_true_iff in Hall'. destruct Hall' as [_ Hall'].
              assert (Hm : match_digits n (d' ++ rest)%string = Some d0).
              { apply IH. rewrite Hs. repeat split; [now exists rest' | assumption..]. }
              assert (Hm' : match_digits n (d' ++ rest)%string = Some d').
              { apply IH. repeat split; [now exists rest | assumption..]. }
              congruence.
        -- split; [discriminate | ].
           intros [[rest' Hs] [Hlen' Hall']]. destruct d as [|c0 d0]; [discriminate | ].
           simpl in Hs, Hlen', Hall'. injection Hs as <- Hs. injection Hlen' as Hlen'.
           apply andb_true_iff in Hall'. destruct Hall' as [_ Hall'].
           assert (Hm' : match_digits n s = Some d0).
           { apply IH. repeat split; [now exists rest' | assumption..]. }
           congruence.
      * split; [discriminate | ].
        intros [[rest' Hs] [Hlen' Hall']]. destruct d as [|c0 d0]; [discriminate | ].
        simpl in Hs, Hall'. injection Hs as <- Hs.
        apply andb_true_iff in Hall'. destruct Hall' as [Hc' _]. congruence.
Qed.

Lemma append_inj_l (p a b : string) : (p ++ a)%string = (p ++ b)%string -> a = b.
Proof. induction p as [|c p IH]; simpl; [trivial | intros [= E]; auto]. Qed.

Lemma match_tx_spec (s m : string) :
  match_tx s = Some m <-> is_tx_id m /\ exists post, s = (m ++ post)%string.
Proof.
  unfold match_tx, is_tx_id. split.
  - destruct (strip_prefix "TX-" s) as [rest|] eqn:Hp; [ | discriminate].
    apply strip_prefix_spec in Hp. subst s.
    destruct (match_digits 6 rest) as [d|] eqn:Hd; [ | discriminate].
    intros [= <-]. apply match_digits_spec in Hd.
    destruct Hd as [[post ->] [Hlen Hall]]. split.
    + now exists d.
    + exists post. reflexivity.
  - intros [[d [-> [Hlen Hall]]] [post ->]].
    assert (Hp : strip_prefix "TX-" (("TX-" ++ d) ++ post)%string = Some (d ++ post)%string).
    { apply strip_prefix_spec. apply append_assoc. }
    rewrite Hp.
    assert (Hd : match_digits 6 (d ++ post)%string = Some d).
    { apply match_digits_spec. repeat split; [now exists post | assumption..]. }
    now rewrite Hd.
Qed.

Lemma re_search_tx_some (s m : string) :
  re_search_tx s = Some m -> is_tx_id m /\ occurs m s.
Proof.
  induction s as [|c s IH]; simpl.
  - discriminate.
  - destruct (match_tx (String c s)) as [m'|] eqn:Hm.
    + intros [= <-]. apply match_tx_spec in Hm. destruct Hm as [Hid [post Hs]].
      split; [assumption | now exists EmptyString, post].
    + intros Hr. destruct (IH Hr) as [Hid [pre [post ->]]].
      split; [assumption | now exists (String c pre), post].
Qed.

Lemma re_search_tx_none (s : string) :
  re_search_tx s = None -> ~ contains_tx_id s.
Proof.
  induction s as [|c s IH]; simpl.
  - intros _ [tx [[d [-> _]] [pre [post Hs]]]].
    destruct pre; discriminate.
  - destruct (match_tx (String c s)) as [m'|] eqn:Hm; [discriminate | ].
    intros Hr [tx [Hid [pre [post Hs]]]]. destruct pre as [|c' pre]; simpl in Hs.
    + assert (Hm' : match_tx (String c s) = Some tx) by (apply match_tx_spec; eauto).
      congruence.
    + injection Hs as _ Hs. apply (IH Hr). exists tx. split; [assumption | now exists pre, post].
Qed.

(** the reward process exited with status zero and printed an identifier *)
Definition accepted (r : run_result) : Prop :=
  exists out err, r = Completed 0 out err /\ contains_tx_id out.

(** the identifier [execute_reward] extracts from a run, if any *)
Definition reward_tx (r : run_result) : option string :=
  match r with
  | Completed returncode stdout _ =>
    if returncode =? 0 then re_search_tx stdout else None
  | SubprocessError _ => None
  end.

Lemma reward_tx_some (r : run_result) (tx : string) :
  reward_tx r = Some tx ->
  accepted r /\ is_tx_id tx /\ exists out err, r = Completed 0 out err /\ occurs tx out.
Proof.
  destruct r as [rc out err | msg]; simpl; [ | discriminate].
  destruct (rc =? 0) eqn:Hrc; [ | discriminate]. apply Z.eqb_eq in Hrc. subst rc.
  intros Hs. destruct (re_search_tx_some _ _ Hs) as [Hid Hocc]. repeat split.
  - exists out, err. split; [reflexivity | now exists tx].
  - assumption.
  - now exists out, err.
Qed.

Lemma reward_tx_none (r : run_result) : reward_tx r = None -> ~ accepted r.
Proof.
  destruct r as [rc out err | msg]; simpl.
  - destruct (rc =? 0) eqn:Hrc.
    + intros Hs [out' [err' [[= _ <- _] Hc]]]. now apply (re_search_tx_none _ Hs).
    + apply Z.eqb_neq in Hrc. intros _ [out' [err' [[= Hz _ _] _]]]. contradiction.
  - intros _ [out' [err' [[=] _]]].
Qed.

Section RewardExecution.

Context {F : Type} `{Number F}.
Variable env : Env.

Definition ledger_lines (w : World F) : list (LedgerLine F) :=
  match ledger w with
  | Some l => l
  | None => []
  end.

(** what [execute_reward] does, by the identifier found in the run's output *)
Lemma execute_reward_spec (to : string) (tt_amount : F) (metadata : Metadata F)
      (w : World F) :
  match reward_tx (run_at env (List.length (calls w))) with
  | Some tx =>
    execute_reward env to tt_amount metadata w
    = ({| clock := clock w; calls := calls w ++ [(to, tt_amount)];
          ledger := Some (ledger_lines w
                            ++ match ledger_lines w with [] => [Header] | _ => [] end
                            ++ [Row metadata tx]);
          console := console w |}, Ok tx)
  | None =>
    exists msg,
    execute_reward env to tt_amount metadata w
    = ({| clock := clock w; calls := calls w ++ [(to, tt_amount)];
          ledger := ledger w; console := console w |},
       Raise (DistributionError msg))
  end.
Proof.
  unfold execute_reward, bind, subprocess_run, reward_tx.
  destruct (run_at env (List.length (calls w))) as [rc out err | msg].
  - destruct (rc =? 0); cbn [negb].
    + destruct (re_search_tx out) as [tx|]; [reflexivity | eexists; reflexivity].
    + eexists; reflexivity.
  - eexists; reflexivity.
Qed.


End RewardExecution.

(** ** The conversion loop *)

Section ConversionLoop.

Context {F : Type} `{Number F}.
Variable env : Env.

(** [int(pool_deg * weight)] *)
Definition amount (pool_deg : Z) (weight : F) : option Z :=
  match float_of_int pool_deg with
  | Some pool_deg_f => int_of_float (fmul pool_deg_f weight)
  | None => None
  end.

(** the deg and TT amounts of the record at index [i], [None] when a
    conversion raises *)
Definition allocation (pool_deg : Z) (len i : nat) (total_distributed_deg : Z)
           (weight : F) : option (Z * F) :=
  match amount pool_deg weight with
  | None => None
  | Some allocated_deg =>
    match int_truediv allocated_deg DEG_PER_TT with
    | None => None
    | Some allocated_tt =>
      if Nat.eqb i (len - 1) then
        match int_truediv (pool_deg - total_distributed_deg) DEG_PER_TT with
        | None => None
        | Some remainder_tt => Some (pool_deg - total_distributed_deg, remainder_tt)
        end
      else Some (allocated_deg, allocated_tt)
    end
  end.

Definition record_of (knu : KNUEntry F) (weight : F) (alloc : Z * F) : Distribution F :=
  {| d_knu_id := knu_id knu; d_owner := owner knu; weight := weight;
     tokens_tt := snd alloc; tokens_deg := fst alloc; tx_id := EmptyString |}.

(** the records the loop builds, before any reward is executed *)
Fixpoint allocations (pool_deg : Z) (len i : nat) (weighted_knus : list (KNUEntry F * F))
         (total_distributed_deg : Z) : option (list (Distribution F)) :=
  match weighted_knus with
  | [] => Some []
  | (knu, weight) :: rest =>
    match allocation pool_deg len i total_distributed_deg weight with
    | None => None
    | Some alloc =>
      option_map (cons (record_of knu weight alloc))
                 (allocations pool_deg len (S i) rest (total_distributed_deg + fst alloc))
    end
  end.

Definition sum_deg (ds : list (Distribution F)) : Z :=
  fold_right Z.add 0 (map tokens_deg ds).

(** [out] is what is left of [allocs] when the k-th, (k+1)-th, ... reward
    runs are consulted: an allocation whose run is accepted stays, with the
    identifier of that run; one whose run is not accepted is dropped *)
Inductive executed : nat -> list (Distribution F) -> list (Distribution F) -> Prop :=
| executed_nil k : executed k [] []
| executed_ok k d tx allocs out :
    accepted (run_at env k) -> is_tx_id tx ->
    executed (S k) allocs out ->
    executed k (d :: allocs) (set_tx_id d tx :: out)
| executed_failed k d allocs out :
    ~ accepted (run_at env k) ->
    executed (S k) allocs out ->
    executed k (d :: allocs) out.

Lemma distribute_loop_cons (dry_run : bool) (knot : string) (pool_deg : Z) (len i : nat)
      (knu : KNUEntry F) (wgt : F) (rest : list (KNUEntry F * F)) (total : Z)
      (acc : list (Distribution F)) (w : World F) :
  distribute_loop env dry_run knot pool_deg len i ((knu, wgt) :: rest) total acc w =
  match allocation pool_deg len i total wgt with
  | None => (w, Raise ConversionError)
  | Some alloc =>
    let dist := record_of knu wgt alloc in
    (if negb dry_run then
       timestamp <- now env ;;
       let metadata :=
         {| md_timestamp := timestamp; md_knot_id := knot; md_knu_id := knu_id knu;
            md_owner := owner knu; md_E_pred := E_pred knu;
            md_dR_primary := dR_primary knu; md_dR_adj_sum := dR_adj_sum knu;
            md_weight := wgt; md_tokens_tt := snd alloc;
            md_tokens_deg := fst alloc; md_validated_by := validated_by knu |} in
       rewarded <- try_except
                     (tx <- execute_reward env (owner knu) (snd alloc) metadata ;;
                      print (Rewarded (knu_id knu) (owner knu) (snd alloc) (fst alloc) tx) ;;
                      ret (Some tx))
                     (fun e => print (RewardFailed (knu_id knu) e) ;; ret None) ;;
       match rewarded with
       | Some tx =>
         distribute_loop env dry_run knot pool_deg len (S i) rest (total + fst alloc)
                         (acc ++ [set_tx_id dist tx])
       | None =>
         distribute_loop env dry_run knot pool_deg len (S i) rest (total + fst alloc) acc
       end
     else
       print (DryRun (knu_id knu) (owner knu) (snd alloc) (fst alloc)) ;;
       distribute_loop env dry_run knot pool_deg len (S i) rest (total + fst alloc)
                       (acc ++ [dist])) w
  end.
Proof.
  cbn [distribute_loop]. unfold allocation, amount.
  destruct (float_of_int pool_deg) as [p|]; [ | reflexivity].
  unfold bind at 1. cbn [convert ret].
  destruct (int_of_float (fmul p wgt)) as [a|]; [ | reflexivity].
  unfold bind at 1. cbn [convert ret].
  destruct (int_truediv a DEG_PER_TT) as [t|]; [ | reflexivity].
  unfold bind at 1. cbn [convert ret].
  destruct (Nat.eqb i (len - 1)).
  - unfold bind at 1. unfold bind at 1. cbn [convert ret].
    destruct (int_truediv (pool_deg - total) DEG_PER_TT) as [t'|]; reflexivity.
  - reflexivity.
Qed.

Lemma allocation_spec (pool_deg : Z) (len i : nat) (total : Z) (wgt : F) (alloc : Z * F) :
  allocation pool_deg len i total wgt = Some alloc ->
  int_truediv (fst alloc) DEG_PER_TT = Some (snd alloc)
  /\ (exists a, amount pool_deg wgt = Some a)
  /\ (i <> (len - 1)%nat -> amount pool_deg wgt = Some (fst alloc))
  /\ (i = (len - 1)%nat -> fst alloc = pool_deg - total).
Proof.
  unfold allocation.
  destruct (amount pool_deg wgt) as [a|]; [ | discriminate].
  destruct (int_truediv a DEG_PER_TT) as [t|] eqn:Ht; [ | discriminate].
  destruct (Nat.eqb i (len - 1)) eqn:Hi.
  - apply Nat.eqb_eq in Hi.
    destruct (int_truediv (pool_deg - total) DEG_PER_TT) as [t'|] eqn:Ht'; [ | discriminate].
    intros [= <-]. cbn [fst snd]. repeat split; eauto. intros Hn. contradiction.
  - apply Nat.eqb_neq in Hi. intros [= <-]. cbn [fst snd].
    repeat split; eauto. intros He. contradiction.
Qed.

Lemma allocations_length (pool_deg : Z) (len : nat) (weighted : list (KNUEntry F * F)) :
  forall i total ds,
    allocations pool_deg len i weighted total = Some ds ->
    List.length ds = List.length weighted.
Proof.
  induction weighted as [|[knu wgt] rest IH]; intros i total ds; cbn [allocations].
  - now intros [= <-].
  - destruct (allocation pool_deg len i total wgt) as [alloc|]; [ | discriminate].
    destruct (allocations pool_deg len (S i) rest (total + fst alloc)) as [ds'|] eqn:Hr;
      [ | discriminate].
    intros [= <-]. cbn. f_equal. eapply IH. eassumption.
Qed.

Lemma allocations_no_tx (pool_deg : Z) (len : nat) (weighted : list (KNUEntry F * F)) :
  forall i total ds,
    allocations pool_deg len i weighted total = Some ds ->
    Forall (fun d => tx_id d = EmptyString) ds.
Proof.
  induction weighted as [|[knu wgt] rest IH]; intros i total ds; cbn [allocations].
  - intros [= <-]. constructor.
  - destruct (allocation pool_deg len i total wgt) as [alloc|]; [ | discriminate].
    destruct (allocations pool_deg len (S i) rest (total + fst alloc)) as [ds'|] eqn:Hr;
      [ | discriminate].
    intros [= <-]. constructor; [reflexivity | eapply IH; eassumption].
Qed.

(** the running total reaches the pool exactly at the last record *)
Lemma allocations_sum (pool_deg : Z) (len : nat) (weighted : list (KNUEntry F * F)) :
  forall i total ds,
    allocations pool_deg len i weighted total = Some ds ->
    weighted <> [] -> (i + List.length weighted = len)%nat ->
    total + sum_deg ds = pool_deg.
Proof.
  induction weighted as [|[knu wgt] rest IH]; intros i total ds; cbn [allocations].
  - intros _ Hne. contradiction.
  - destruct (allocation pool_deg len i total wgt) as [alloc|] eqn:Ha; [ | discriminate].
    destruct (allocations pool_deg len (S i) rest (total + fst alloc)) as [ds'|] eqn:Hr;
      [ | discriminate].
    intros [= <-] _ Hlen. cbn [List.length] in Hlen.
    unfold sum_deg. cbn [map fold_right record_of tokens_deg]. fold (sum_deg ds').
    destruct rest as [|kw rest'].
    + cbn [allocations] in Hr. injection Hr as <-. cbn [List.length] in Hlen.
      destruct (allocation_spec _ _ _ _ _ _ Ha) as [_ [_ [_ Hlast]]].
      rewrite Hlast by lia. unfold sum_deg. cbn. lia.
    + specialize (IH (S i) (total + fst alloc) ds' Hr). cbn [List.length] in IH, Hlen.
      assert (Hsum : total + fst alloc + sum_deg ds' = pool_deg)
        by (apply IH; [discriminate | lia]).
      lia.
Qed.

(** each record in turn: every record but the last gets
    [int(pool_deg * weight)], the last gets the pool minus the running total *)
Lemma allocations_nth (pool_deg : Z) (len : nat) (weighted : list (KNUEntry F * F)) :
  forall i total ds,
    allocations pool_deg len i weighted total = Some ds ->
    forall j kw d,
      nth_error weighted j = Some kw -> nth_error ds j = Some d ->
      d = record_of (fst kw) (snd kw) (tokens_deg d, tokens_tt d)
      /\ int_truediv (tokens_deg d) DEG_PER_TT = Some (tokens_tt d)
      /\ ((i + j)%nat <> (len - 1)%nat -> amount pool_deg (snd kw) = Some (tokens_deg d))
      /\ ((i + j)%nat = (len - 1)%nat ->
          tokens_deg d = pool_deg - (total + sum_deg (firstn j ds))).
Proof.
  induction weighted as [|[knu wgt] rest IH]; intros i total ds; cbn [allocations].
  - intros _ [|j] kw d; discriminate.
  - destruct (allocation pool_deg len i total wgt) as [alloc|] eqn:Ha; [ | discriminate].
    destruct (allocations pool_deg len (S i) rest (total + fst alloc)) as [ds'|] eqn:Hr;
      [ | discriminate].
    intros [= <-] [|j] kw d; cbn [nth_error].
    + intros [= <-] [= <-]. cbn [fst snd record_of tokens_deg tokens_tt firstn].
      destruct (allocation_spec _ _ _ _ _ _ Ha) as [Htt [_ [Hmid Hlast]]].
      rewrite Nat.add_0_r. unfold sum_deg. cbn [map fold_right]. rewrite Z.add_0_r.
      repeat split; assumption.
    + intros Hkw Hd.
      destruct (IH (S i) (total + fst alloc) ds' Hr j kw d Hkw Hd) as [Hrec [Htt [Hmid Hlast]]].
      replace (i + S j)%nat with (S i + j)%nat by lia.
      repeat split; try assumption.
      intros Hi. rewrite (Hlast Hi). cbn [firstn]. unfold sum_deg.
      cbn [map fold_right record_of tokens_deg]. lia.
Qed.

Definition dry_event (d : Distribution F) : Event F :=
  DryRun (d_knu_id d) (d_owner d) (tokens_tt d) (tokens_deg d).

(** a dry run computes the allocations, prints them and touches nothing else *)
Lemma distribute_loop_dry (knot : string) (pool_deg : Z) (len : nat)
      (weighted : list (KNUEntry F * F)) :
  forall i total acc w ds,
    allocations pool_deg len i weighted total = Some ds ->
    distribute_loop env true knot pool_deg len i weighted total acc w
    = ({| clock := clock w; calls := calls w; ledger := ledger w;
          console := console w ++ map dry_event ds |}, Ok (acc ++ ds)).
Proof.
  induction weighted as [|[knu wgt] rest IH]; intros i total acc w ds.
  - cbn. intros [= <-]. rewrite !app_nil_r. now destruct w.
  - rewrite distribute_loop_cons. cbn [allocations].
    destruct (allocation pool_deg len i total wgt) as [alloc|]; [ | discriminate].
    destruct (allocations pool_deg len (S i) rest (total + fst alloc)) as [ds'|] eqn:Hr;
      [ | discriminate].
    intros [= <-]. cbn [negb]. unfold bind at 1. cbn [print].
    rewrite (IH _ _ _ _ _ Hr). cbn [clock calls ledger console map].
    rewrite <- !app_assoc. reflexivity.
Qed.

(** a conversion that raises aborts the loop in both modes *)
Lemma distribute_loop_raises (dry_run : bool) (knot : string) (pool_deg : Z) (len : nat)
      (weighted : list (KNUEntry F * F)) :
  forall i total acc w,
    allocations pool_deg len i weighted total = None ->
    snd (distribute_loop env dry_run knot pool_deg len i weighted total acc w)
    = Raise ConversionError.
Proof.
  induction weighted as [|[knu wgt] rest IH]; intros i total acc w.
  - discriminate.
  - rewrite distribute_loop_cons. cbn [allocations].
    destruct (allocation pool_deg len i total wgt) as [alloc|]; [ | reflexivity].
    destruct (allocations pool_deg len (S i) rest (total + fst alloc)) as [ds'|] eqn:Hr;
      [discriminate | ].
    intros _. destruct dry_run; cbn [negb].
    + unfold bind at 1. cbn [print]. now apply IH.
    + unfold bind at 1. cbn [now]. unfold bind at 1, try_except, bind at 1.
      match goal with
      | |- context [execute_reward env ?a ?b ?c ?d] =>
        pose proof (execute_reward_spec env a b c d) as Hex
      end.
      destruct (reward_tx _) as [tx|].
      * rewrite Hex. unfold bind at 1. cbn [print ret]. now apply IH.
      * destruct Hex as [msg Hex]. rewrite Hex. cbn [is_DistributionError].
        unfold bind at 1. cbn [print ret]. now apply IH.
Qed.

(** the reward command of an allocation: its [--to] and [--tt] arguments *)
Definition call_of (d : Distribution F) : string * F := (d_owner d, tokens_tt d).

(** the transaction ids of the data rows of a ledger *)
Fixpoint row_txs (l : list (LedgerLine F)) : list string :=
  match l with
  | [] => []
  | Header :: l' => row_txs l'
  | Row _ tx :: l' => tx :: row_txs l'
  end.

Lemma row_txs_app (l1 l2 : list (LedgerLine F)) :
  row_txs (l1 ++ l2) = row_txs l1 ++ row_txs l2.
Proof.
  induction l1 as [|[|md tx] l1 IH]; cbn; [reflexivity | assumption | now rewrite IH].
Qed.

(** a live run: every allocation is attempted once, in order; the accepted
    ones are returned and logged, the others reported; the ledger only grows *)
Lemma distribute_loop_live (knot : string) (pool_deg : Z) (len : nat)
      (weighted : list (KNUEntry F * F)) :
  forall i total acc w ds,
    allocations pool_deg len i weighted total = Some ds ->
    exists w' out,
      distribute_loop env false knot pool_deg len i weighted total acc w
      = (w', Ok (acc ++ out))
      /\ executed (List.length (calls w)) ds out
      /\ calls w' = calls w ++ map call_of ds
      /\ (exists new, ledger_lines w' = ledger_lines w ++ new
                      /\ row_txs new = map tx_id out)
      /\ (exists evs, console w' = console w ++ evs
                      /\ forall j d,
                          nth_error ds j = Some d ->
                          ~ accepted (run_at env (List.length (calls w) + j)) ->
                          exists e, In (RewardFailed (d_knu_id d) e) evs).
Proof.
  induction weighted as [|[knu wgt] rest IH]; intros i total acc w ds.
  - cbn. intros [= <-]. exists w, []. rewrite !app_nil_r. repeat split.
    + constructor.
    + exists []. now rewrite app_nil_r.
    + exists []. rewrite app_nil_r. split; [reflexivity | ].
      intros [|j] d; discriminate.
  - rewrite distribute_loop_cons. cbn [allocations].
    destruct (allocation pool_deg len i total wgt) as [alloc|]; [ | discriminate].
    destruct (allocations pool_deg len (S i) rest (total + fst alloc)) as [ds'|] eqn:Hr;
      [ | discriminate].
    intros [= <-]. cbn [negb].
    unfold bind at 1. cbn [now]. unfold bind at 1, try_except, bind at 1.
    match goal with
    | |- context [execute_reward env ?a ?b ?c ?d] =>
      pose proof (execute_reward_spec env a b c d) as Hex
    end.
    unfold ledger_lines in Hex. cbn [clock calls ledger console] in Hex.
    destruct (reward_tx (run_at env (List.length (calls w)))) as [tx|] eqn:Htx.
    + rewrite Hex. unfold bind at 1. cbn [print ret].
      destruct (reward_tx_some _ _ Htx) as [Hacc [Hid _]].
      match goal with
      | |- context [distribute_loop env false knot pool_deg len (S i) rest ?t ?a ?w1] =>
        destruct (IH (S i) t a w1 ds' Hr)
          as [w' [out [Hrun [Hexec [Hcalls [[new [Hled Hrows]] [evs [Hcon Hfail]]]]]]]]
      end.
      unfold ledger_lines in Hled.
      cbn [calls console ledger clock] in Hexec, Hcalls, Hled, Hcon, Hfail.
      rewrite length_app in Hexec, Hfail. cbn [List.length] in Hexec, Hfail.
      rewrite Nat.add_1_r in Hexec.
      exists w', (set_tx_id (record_of knu wgt alloc) tx :: out).
      rewrite Hrun, <- app_assoc. repeat split.
      * now constructor.
      * rewrite Hcalls, <- app_assoc. reflexivity.
      * eexists. split.
        -- unfold ledger_lines. rewrite Hled, <- !app_assoc. reflexivity.
        -- rewrite !row_txs_app, Hrows.
           destruct (match ledger w with Some l => l | None => [] end); reflexivity.
      * eexists. split.
        -- rewrite Hcon, <- app_assoc. reflexivity.
        -- intros [|j] d; cbn [nth_error].
           ++ intros _ Hn. rewrite Nat.add_0_r in Hn. contradiction.
           ++ intros Hd Hn. destruct (Hfail j d Hd) as [e He].
              ** now replace (List.length (calls w) + 1 + j)%nat
                   with (List.length (calls w) + S j)%nat by lia.
              ** exists e. apply in_app_iff. now right.
    + destruct Hex as [msg Hex]. rewrite Hex. cbn [is_DistributionError].
      unfold bind at 1. cbn [print ret].
      pose proof (reward_tx_none _ Htx) as Hnacc.
      match goal with
      | |- context [distribute_loop env false knot pool_deg len (S i) rest ?t ?a ?w1] =>
        destruct (IH (S i) t a w1 ds' Hr)
          as [w' [out [Hrun [Hexec [Hcalls [[new [Hled Hrows]] [evs [Hcon Hfail]]]]]]]]
      end.
      unfold ledger_lines in Hled.
      cbn [calls console ledger clock] in Hexec, Hcalls, Hled, Hcon, Hfail.
      rewrite length_app in Hexec, Hfail. cbn [List.length] in Hexec, Hfail.
      rewrite Nat.add_1_r in Hexec.
      exists w', out. rewrite Hrun. repeat split.
      * now constructor.
      * rewrite Hcalls, <- app_assoc. reflexivity.
      * exists new. split; [exact Hled | assumption].
      * eexists. split.
        -- rewrite Hcon, <- app_assoc. reflexivity.
        -- intros [|j] d; cbn [nth_error].
           ++ intros [= <-] _. exists (DistributionError msg). now left.
           ++ intros Hd Hn. destruct (Hfail j d Hd) as [e He].
              ** now replace (List.length (calls w) + 1 + j)%nat
                   with (List.length (calls w) + S j)%nat by lia.
              ** exists e. apply in_app_iff. now right.
Qed.

End ConversionLoop.

(** ** The whole of [distribute] *)

Section Distribute.

Context {F : Type} `{Number F}.

(** a record survives the first loop *)
Definition eligible (self : KNUDistributor F) (knot : string) (knu : KNUEntry F) : bool :=
  fst (validate_eligibility self knu) && String.eqb (knot_id knu) knot.

(** what the first loop prints *)
Definition skip_events (self : KNUDistributor F) (knot : string)
           (knus : list (KNUEntry F)) : list (Event F) :=
  flat_map
    (fun knu =>
       if negb (fst (validate_eligibility self knu)) then
         [SkippedIneligible (knu_id knu) (snd (validate_eligibility self knu))]
       else if negb (String.eqb (knot_id knu) knot) then
         [SkippedOtherKnot (knu_id knu) (knot_id knu) knot]
       else [])
    knus.

Definition add_console (w : World F) (evs : list (Event F)) : World F :=
  {| clock := clock w; calls := calls w; ledger := ledger w;
     console := console w ++ evs |}.

Lemma validate_all_spec (self : KNUDistributor F) (knot : string)
      (knus : list (KNUEntry F)) :
  forall valid w,
    validate_all self knot knus valid w
    = (add_console w (skip_events self knot knus),
       Ok (valid ++ filter (eligible self knot) knus)).
Proof.
  unfold add_console.
  induction knus as [|knu knus' IH]; intros valid w; cbn [validate_all skip_events flat_map filter].
  - cbn. rewrite !app_nil_r. now destruct w.
  - unfold eligible at 1.
    destruct (validate_eligibility self knu) as [is_valid error]. cbn [fst snd].
    destruct is_valid; cbn [negb andb].
    + destruct (String.eqb (knot_id knu) knot); cbn [negb].
      * rewrite IH. cbn [app]. now rewrite <- app_assoc.
      * unfold bind at 1. cbn [print]. rewrite IH. cbn [clock calls ledger console].
        fold (skip_events self knot knus'). now rewrite <- app_assoc.
    + unfold bind at 1. cbn [print]. rewrite IH. cbn [clock calls ledger console].
      fold (skip_events self knot knus'). now rewrite <- app_assoc.
Qed.

Lemma distribute_spec (env : Env) (self : KNUDistributor F) (knot : string)
      (knus : list (KNUEntry F)) (dry_run : bool) (w : World F) :
  distribute env self knot knus dry_run w =
  match pools (pools_data self) knot with
  | None => (w, Raise (ConfigError ("KNOT " ++ knot ++ " not found in pools config")%string))
  | Some pool_data =>
    let w1 := add_console w (skip_events self knot knus) in
    match filter (eligible self knot) knus with
    | [] => (w1, Raise (ValidationError "No valid KNUs found for distribution"))
    | valid_knus =>
      match to_deg (entry_pool_tt pool_data) with
      | None => (w1, Raise ConversionError)
      | Some pool_deg =>
        let weighted_knus := calculate_weights self valid_knus None None in
        distribute_loop env dry_run knot pool_deg (List.length weighted_knus) 0
                        weighted_knus 0 [] w1
      end
    end
  end.
Proof.
  unfold distribute, load_pool_config.
  destruct (pools (pools_data self) knot) as [pool_data|]; [ | reflexivity].
  unfold bind at 1. cbn [ret]. unfold bind at 1.
  rewrite validate_all_spec. cbn [app pool_tt].
  destruct (filter (eligible self knot) knus) as [|k valid]; [reflexivity | ].
  unfold bind at 1.
  destruct (to_deg (entry_pool_tt pool_data)) as [pool_deg|]; reflexivity.
Qed.

(** the other fields of a returned record are those of its allocation *)
Definition same_amounts (d d' : Distribution F) : Prop :=
  d_knu_id d' = d_knu_id d /\ d_owner d' = d_owner d /\ weight d' = weight d
  /\ tokens_tt d' = tokens_tt d /\ tokens_deg d' = tokens_deg d.

Lemma executed_same_amounts (env : Env) (k : nat) (allocs out : list (Distribution F)) :
  executed env k allocs out ->
  Forall (fun d' => exists d, In d allocs /\ same_amounts d d' /\ is_tx_id (tx_id d')) out.
Proof.
  induction 1 as [k | k d tx allocs out Hacc Hid Hex IH | k d allocs out Hn Hex IH].
  - constructor.
  - constructor.
    + exists d. repeat split; [now left | exact Hid].
    + eapply Forall_impl; [ | exact IH]. intros d' [d0 [Hin Hs]]. exists d0.
      split; [now right | exact Hs].
  - eapply Forall_impl; [ | exact IH]. intros d' [d0 [Hin Hs]]. exists d0.
    split; [now right | exact Hs].
Qed.



End Distribute.

(** ** What the numbers stand for

    [value x] is the rational a finite number stands for ([None] for an
    infinity or a NaN); it relates [int()] to the floor of the spec. *)

Class NumberSpec (F : Type) `{Number F} : Type := {
  value : F -> option Q;
  int_of_float_value : forall x, int_of_float x = option_map Qtrunc (value x);
  (** an int that is not negative times a number that is not negative *)
  fmul_int_nonneg_l : forall z p x qx q,
      0 <= z -> float_of_int z = Some p -> value x = Some qx -> (0 <= qx)%Q ->
      value (fmul p x) = Some q -> (0 <= q)%Q;
  fmul_int_nonneg_r : forall z p x qx q,
      0 <= z -> float_of_int z = Some p -> value x = Some qx -> (0 <= qx)%Q ->
      value (fmul x p) = Some q -> (0 <= q)%Q
}.

Lemma Qtrunc_floor (q : Q) : (0 <= q)%Q -> Qtrunc q = Qfloor q.
Proof.
  destruct q as [n d]. unfold Qle, Qtrunc, Qfloor. cbn [Qnum Qden]. intros Hn.
  apply Z.quot_div_nonneg; lia.
Qed.

Lemma Qtrunc_nonneg (q : Q) : (0 <= q)%Q -> 0 <= Qtrunc q.
Proof.
  intros Hq. rewrite (Qtrunc_floor q Hq).
  destruct q as [n d]. unfold Qle in Hq. cbn [Qnum Qden Qfloor] in *.
  apply Z.div_pos; lia.
Qed.

Module ExactSpec.

#[global] Instance number_spec : NumberSpec Q.
Proof.
  refine {| value := fun q => Some q |}.
  - reflexivity.
  - intros z p x qx q Hz [= <-] [= <-] Hx [= <-].
    apply Qmult_le_0_compat; [unfold Qle; cbn; lia | exact Hx].
  - intros z p x qx q Hz [= <-] [= <-] Hx [= <-].
    apply Qmult_le_0_compat; [exact Hx | unfold Qle; cbn; lia].
Defined.

End ExactSpec.

Module Binary64Spec.

Import Binary64.

Lemma SF_trunc_value (x : spec_float) : SF_trunc x = option_map Qtrunc (SF2Q x).
Proof.
  destruct x as [s | s | | s m e]; try reflexivity.
  destruct e as [|k|k]; cbn [SF_trunc SF2Q option_map]; f_equal; unfold Qtrunc.
  - cbn [Qnum Qden inject_Z]. rewrite Z.quot_1_r.
    destruct s; cbn [cond_Zopp Z.shiftl]; lia.
  - cbn [Qnum Qden inject_Z]. rewrite Z.quot_1_r, Z.shiftl_mul_pow2 by lia.
    destruct s; cbn [cond_Zopp]; lia.
  - cbn [Qnum Qden]. rewrite Pos2Z.inj_pow.
    change (Z.shiftl (Zpos m) (Zneg k)) with (Z.shiftr (Zpos m) (Zpos k)).
    rewrite Z.shiftr_div_pow2 by lia.
    assert (Hp : 0 < 2 ^ Zpos k) by (apply Z.pow_pos_nonneg; lia).
    destruct s; cbn [cond_Zopp].
    + transitivity (- (Z.quot (Zpos m) (2 ^ Zpos k))).
      * rewrite Z.quot_div_nonneg by lia. reflexivity.
      * rewrite <- Z.quot_opp_l by lia. reflexivity.
    + symmetry. apply Z.quot_div_nonneg; lia.
Qed.

(** a value that is defined and not negative has no sign, or is a zero *)
Definition SF_unsigned (x : spec_float) : Prop :=
  match x with
  | S754_zero _ => True
  | S754_finite s _ _ | S754_infinity s => s = false
  | S754_nan => True
  end.

Lemma finite_value_sign (s : bool) (m : positive) (e : Z) (q : Q) :
  SF2Q (S754_finite s m e) = Some q -> ((0 <= q)%Q <-> s = false).
Proof.
  assert (Hpow : forall k, 0 < 2 ^ Zpos k) by (intros k; apply Z.pow_pos_nonneg; lia).
  destruct e as [|k|k]; cbn [SF2Q]; intros [= <-]; unfold Qle;
    cbn [Qnum Qden inject_Z]; rewrite ?Z.pow_0_r, ?Z.mul_1_r; cbn [Z.mul];
    destruct s; cbn [cond_Zopp]; split; intros Hs; try discriminate; try reflexivity;
    try (pose proof (Hpow k)); nia.
Qed.

Lemma SF2Q_unsigned (x : spec_float) (q : Q) :
  SF_unsigned x -> SF2Q x = Some q -> (0 <= q)%Q.
Proof.
  destruct x as [s | s | | s m e]; cbn [SF_unsigned]; try discriminate.
  - intros _ [= <-]. apply Qle_refl.
  - intros Hs Hq. now apply (finite_value_sign s m e q Hq).
Qed.

Lemma SF2Q_nonneg_cases (x : spec_float) (q : Q) :
  SF2Q x = Some q -> (0 <= q)%Q ->
  (exists s, x = S754_zero s) \/ (exists m e, x = S754_finite false m e).
Proof.
  destruct x as [s | s | | s m e]; try discriminate.
  - intros _ _. left. now exists s.
  - intros Hq Hle. right. exists m, e.
    apply (finite_value_sign s m e q Hq) in Hle. now subst s.
Qed.

Lemma binary_round_aux_sign (sx : bool) (mx ex : Z) (lx : location) :
  let r := binary_round_aux prec emax sx mx ex lx in
  r = S754_zero sx \/ (exists m e, r = S754_finite sx m e)
  \/ r = S754_infinity sx \/ r = S754_nan.
Proof.
  unfold binary_round_aux.
  destruct (shr_fexp prec emax mx ex lx) as [mrs' e'].
  destruct (shr_fexp prec emax _ e' loc_Exact) as [mrs'' e''].
  destruct (shr_m mrs'') as [|m|m]; cbn zeta.
  - now left.
  - destruct (e'' <=? emax - prec); [right; left; eauto | right; right; now left].
  - now right; right; right.
Qed.

Lemma binary_round_aux_unsigned (mx ex : Z) (lx : location) :
  SF_unsigned (binary_round_aux prec emax false mx ex lx).
Proof.
  destruct (binary_round_aux_sign false mx ex lx) as [-> | [[m [e ->]] | [-> | ->]]];
    cbn; trivial.
Qed.

Lemma SFmul_unsigned (x y : spec_float) :
  SF_unsigned x -> SF_unsigned y -> SF_unsigned (SFmul prec emax x y).
Proof.
  destruct x as [sx | sx | | sx mx ex]; destruct y as [sy | sy | | sy my ey];
    cbn [SFmul SF_unsigned]; trivial; try (intros -> ->; reflexivity).
  intros -> ->. apply binary_round_aux_unsigned.
Qed.

Lemma SF2Q_nonneg_unsigned (x : spec_float) (q : Q) :
  SF2Q x = Some q -> (0 <= q)%Q -> SF_unsigned x.
Proof.
  intros Hq Hle.
  destruct (SF2Q_nonneg_cases x q Hq Hle) as [[s ->] | [m [e ->]]]; cbn; trivial.
Qed.

Lemma binary_normalize_unsigned (z e : Z) :
  0 <= z -> SF_unsigned (binary_normalize prec emax z e false).
Proof.
  intros Hz. destruct z as [|m|m]; cbn [binary_normalize SF_unsigned]; trivial; [ | lia].
  unfold binary_round. destruct (shl_align _ _ _) as [mz ez].
  apply binary_round_aux_unsigned.
Qed.

Lemma SFldexp_unsigned (x : spec_float) (e : Z) :
  SF_unsigned x -> SF_unsigned (SFldexp prec emax x e).
Proof.
  destruct x as [s | s | | s m ex]; cbn [SFldexp SF_unsigned]; trivial.
  intros ->. unfold binary_round. destruct (shl_align _ _ _) as [mz ez].
  apply binary_round_aux_unsigned.
Qed.

(** [SF2Prim] keeps an unsigned value unsigned *)
Lemma SF2Prim_unsigned (x : spec_float) :
  SF_unsigned x -> SF_unsigned (Prim2SF (SF2Prim x)).
Proof.
  destruct x as [s | s | | s m e]; cbn [SF2Prim SF_unsigned].
  - intros _. destruct s; vm_compute; trivial.
  - intros ->. vm_compute. reflexivity.
  - intros _. vm_compute. trivial.
  - intros ->. rewrite Z_ldexp_spec. apply SFldexp_unsigned.
    rewrite of_uint63_spec. apply binary_normalize_unsigned.
    apply Uint63.to_Z_bounded.
Qed.

Lemma b64_of_int_unsigned (z : Z) (p : float) :
  0 <= z -> b64_of_int z = Some p -> SF_unsigned (Prim2SF p).
Proof.
  intros Hz Hp. unfold b64_of_int in Hp.
  destruct (SF_finite _); [ | discriminate]. injection Hp as <-.
  apply SF2Prim_unsigned. now apply binary_normalize_unsigned.
Qed.

#[global] Instance number_spec : NumberSpec float.
Proof.
  refine {| value := b64_value |}.
  - intros x. apply SF_trunc_value.
  - intros z p x qx q Hz Hp Hx Hqx Hq. unfold b64_value in *. cbn [fmul number] in Hq.
    rewrite mul_spec in Hq. eapply SF2Q_unsigned; [ | exact Hq].
    apply SFmul_unsigned.
    + exact (b64_of_int_unsigned z p Hz Hp).
    + eapply SF2Q_nonneg_unsigned; eassumption.
  - intros z p x qx q Hz Hp Hx Hqx Hq. unfold b64_value in *. cbn [fmul number] in Hq.
    rewrite mul_spec in Hq. eapply SF2Q_unsigned; [ | exact Hq].
    apply SFmul_unsigned.
    + eapply SF2Q_nonneg_unsigned; eassumption.
    + exact (b64_of_int_unsigned z p Hz Hp).
Defined.

End Binary64Spec.


(** ** The exact-sum rule *)

Section ExactSum.

Context {F : Type} `{NumberSpec F}.

(** [x] stands for a rational that is not negative *)
Definition nonneg (x : F) : Prop := exists q, value x = Some q /\ (0 <= q)%Q.

(** [z] is the floor of the rational [x] stands for *)
Definition floor_of (x : F) (z : Z) : Prop := exists q, value x = Some q /\ z = Qfloor q.

Lemma int_of_float_floor (x : F) (z : Z) :
  int_of_float x = Some z ->
  (forall q, value x = Some q -> (0 <= q)%Q) ->
  floor_of x z /\ 0 <= z.
Proof.
  rewrite int_of_float_value. destruct (value x) as [q|] eqn:Hv; [ | discriminate].
  cbn [option_map]. intros [= <-] Hq. specialize (Hq q eq_refl). split.
  - exists q. split; [exact Hv | now apply Qtrunc_floor].
  - now apply Qtrunc_nonneg.
Qed.

(** [int(pool_tt * DEG_PER_TT)] is the floor of the product for a pool that
    is not negative *)
Lemma to_deg_floor (pool_tt : F) (pool_deg : Z) :
  to_deg pool_tt = Some pool_deg -> nonneg pool_tt ->
  0 <= pool_deg
  /\ exists deg_per_tt, float_of_int DEG_PER_TT = Some deg_per_tt
                        /\ floor_of (fmul pool_tt deg_per_tt) pool_deg.
Proof.
  unfold to_deg. destruct (float_of_int DEG_PER_TT) as [d|] eqn:Hd; [ | discriminate].
  intros Hint [q [Hq Hle]].
  destruct (int_of_float_floor _ _ Hint) as [Hfl Hpos].
  - intros qp Hqp.
    assert (Hz : 0 <= DEG_PER_TT) by (unfold DEG_PER_TT; lia).
    exact (fmul_int_nonneg_r DEG_PER_TT d pool_tt q qp Hz Hd Hq Hle Hqp).
  - split; [exact Hpos | ]. exists d. split; [reflexivity | exact Hfl].
Qed.

(** [int(pool_deg * weight)] is the floor of the product when neither
    factor is negative *)
Lemma amount_floor (pool_deg : Z) (wgt : F) (a : Z) :
  amount pool_deg wgt = Some a -> 0 <= pool_deg -> nonneg wgt ->
  0 <= a
  /\ exists pool_deg_f, float_of_int pool_deg = Some pool_deg_f
                        /\ floor_of (fmul pool_deg_f wgt) a.
Proof.
  unfold amount. destruct (float_of_int pool_deg) as [p|] eqn:Hp; [ | discriminate].
  intros Hint Hpos [q [Hq Hle]].
  destruct (int_of_float_floor _ _ Hint) as [Hfl Ha].
  - intros qp Hqp. exact (fmul_int_nonneg_l pool_deg p wgt q qp Hpos Hp Hq Hle Hqp).
  - split; [exact Ha | ]. exists p. split; [reflexivity | exact Hfl].
Qed.


End ExactSum.

(** ** The weighting formula in exact arithmetic *)

Module ExactWeights.

Local Open Scope Q_scope.

Definition qsum (l : list Q) : Q := fold_right Qplus 0 l.

Lemma fold_left_Qplus (l : list Q) (a : Q) : fold_left Qplus l a == a + qsum l.
Proof.
  revert a. induction l as [|x l IH]; intros a; cbn [fold_left qsum fold_right].
  - ring.
  - rewrite IH. fold (qsum l). ring.
Qed.

Lemma py_sum_qsum (l : list Q) : py_sum l == qsum l.
Proof. unfold py_sum. cbn [fadd fzero Exact.number]. rewrite fold_left_Qplus. ring. Qed.

Lemma qsum_map_zero {A : Type} (l : list A) : qsum (map (fun _ => 0) l) == 0.
Proof.
  induction l as [|x l IH]; cbn; [reflexivity | ].
  fold (qsum (map (fun _ : A => 0) l)). rewrite IH. ring.
Qed.

Lemma qsum_map_div {A : Type} (f : A -> Q) (t : Q) (l : list A) :
  qsum (map (fun x => f x / t) l) == qsum (map f l) / t.
Proof.
  induction l as [|x l IH]; cbn [map qsum fold_right].
  - unfold Qdiv. ring.
  - fold (qsum (map (fun x => f x / t) l)). fold (qsum (map f l)). rewrite IH.
    unfold Qdiv. ring.
Qed.

Lemma qsum_map_blend {A : Type} (f g : A -> Q) (a b : Q) (l : list A) :
  qsum (map (fun x => a * f x + b * g x) l) == a * qsum (map f l) + b * qsum (map g l).
Proof.
  induction l as [|x l IH]; cbn [map qsum fold_right].
  - ring.
  - fold (qsum (map (fun x => a * f x + b * g x) l)).
    fold (qsum (map f l)). fold (qsum (map g l)). rewrite IH. ring.
Qed.

Section Formula.

Variables alpha lambda_spill : Q.
Variable knus : list (KNUEntry Q).

Local Abbreviation E := (total_effort knus).
Local Abbreviation I := (total_impact lambda_spill knus).
Local Abbreviation W := (total_weight alpha lambda_spill knus).

(** 1 when the total is not zero, 0 when it is *)
Definition indicator (t : Q) : Q := if Qeq_bool t 0 then 0 else 1.

Lemma sum_effort_norm :
  qsum (map (effort_norm knus) knus) == indicator E.
Proof.
  unfold effort_norm, indicator. cbn [feqb fzero fdiv Exact.number].
  destruct (Qeq_bool E 0) eqn:Hz.
  - apply qsum_map_zero.
  - apply Qeq_bool_neq in Hz. rewrite qsum_map_div.
    unfold total_effort in *. rewrite <- py_sum_qsum. now field.
Qed.

Lemma sum_impact_norm :
  qsum (map (impact_norm lambda_spill knus) knus) == indicator I.
Proof.
  unfold impact_norm, indicator. cbn [feqb fzero fdiv Exact.number].
  destruct (Qeq_bool I 0) eqn:Hz.
  - apply qsum_map_zero.
  - apply Qeq_bool_neq in Hz. rewrite qsum_map_div.
    unfold total_impact in *. rewrite <- py_sum_qsum. now field.
Qed.

(** the total of the raw weights *)
Lemma total_weight_value :
  W == alpha * indicator E + (1 - alpha) * indicator I.
Proof.
  unfold total_weight. rewrite py_sum_qsum. unfold raw_weight.
  cbn [fadd fmul fsub fone Exact.number].
  rewrite (qsum_map_blend (effort_norm knus) (impact_norm lambda_spill knus)).
  rewrite sum_effort_norm, sum_impact_norm. reflexivity.
Qed.

Lemma final_weight_normalised (knu : KNUEntry Q) :
  0 < W ->
  final_weight alpha lambda_spill knus knu == raw_weight alpha lambda_spill knus knu / W.
Proof.
  intros Hw. unfold final_weight. cbn [fltb fzero fdiv Exact.number].
  destruct (Qle_bool W 0) eqn:Hle; cbn [negb]; [ | reflexivity].
  apply Qle_bool_iff in Hle. exfalso. apply (Qlt_not_le _ _ Hw Hle).
Qed.

Lemma final_weight_raw (knu : KNUEntry Q) :
  W <= 0 ->
  final_weight alpha lambda_spill knus knu = raw_weight alpha lambda_spill knus knu.
Proof.
  intros Hw. unfold final_weight. cbn [fltb fzero fdiv Exact.number].
  destruct (Qle_bool W 0) eqn:Hle; cbn [negb]; [reflexivity | ].
  apply Qle_bool_iff in Hw. congruence.
Qed.

(** once renormalised, the weights sum to one *)
Lemma sum_final_weight :
  0 < W -> qsum (map (final_weight alpha lambda_spill knus) knus) == 1.
Proof.
  intros Hw.
  assert (Hext : forall l : list (KNUEntry Q),
             qsum (map (final_weight alpha lambda_spill knus) l)
             == qsum (map (fun k => raw_weight alpha lambda_spill knus k / W) l)).
  { induction l as [|k l IH]; cbn [map qsum fold_right]; [reflexivity | ].
    fold (qsum (map (final_weight alpha lambda_spill knus) l)).
    fold (qsum (map (fun k => raw_weight alpha lambda_spill knus k / W) l)).
    now rewrite IH, final_weight_normalised. }
  rewrite Hext, qsum_map_div.
  assert (Hq : qsum (map (raw_weight alpha lambda_spill knus) knus) == W)
    by (unfold total_weight; now rewrite py_sum_qsum).
  rewrite Hq. field. intros Hz. rewrite Hz in Hw. now apply (Qlt_irrefl 0).
Qed.

Lemma indicator_0_1 (t : Q) : 0 <= indicator t <= 1.
Proof. unfold indicator. destruct (Qeq_bool t 0); split; unfold Qle; cbn; lia. Qed.

Lemma indicator_nonzero (t : Q) : ~ t == 0 -> indicator t = 1.
Proof.
  intros Ht. unfold indicator. destruct (Qeq_bool t 0) eqn:Hz; [ | reflexivity].
  apply Qeq_bool_iff in Hz. contradiction.
Qed.

Lemma indicator_zero (t : Q) : t == 0 -> indicator t = 0.
Proof.
  intros Ht. unfold indicator. destruct (Qeq_bool t 0) eqn:Hz; [reflexivity | ].
  apply Qeq_bool_neq in Hz. contradiction.
Qed.

Lemma weight_in (knu : KNUEntry Q) (w : Q) :
  In (knu, w) (calculate_weights_with alpha lambda_spill knus) ->
  In knu knus /\ w = final_weight alpha lambda_spill knus knu.
Proof.
  rewrite calculate_weights_closed_form, in_map_iff.
  intros [k [[= <- <-] Hin]]. now split.
Qed.

Lemma weights_of :
  map snd (calculate_weights_with alpha lambda_spill knus)
  = map (final_weight alpha lambda_spill knus) knus.
Proof. rewrite calculate_weights_closed_form, map_map. reflexivity. Qed.



End Formula.

Lemma effort_norm_same (knus : list (KNUEntry Q)) (a b : KNUEntry Q) :
  E_pred a == E_pred b -> effort_norm knus a == effort_norm knus b.
Proof.
  intros He. unfold effort_norm. cbn [feqb fzero fdiv Exact.number].
  destruct (Qeq_bool (total_effort knus) 0); [reflexivity | now rewrite He].
Qed.

Lemma raw_weight_difference (alpha lambda_spill : Q) (knus : list (KNUEntry Q))
      (a b : KNUEntry Q) :
  E_pred a == E_pred b ->
  raw_weight alpha lambda_spill knus a - raw_weight alpha lambda_spill knus b
  == (1 - alpha) * (impact_norm lambda_spill knus a - impact_norm lambda_spill knus b).
Proof.
  intros He. unfold raw_weight. cbn [fadd fmul fsub fone Exact.number].
  rewrite (effort_norm_same knus a b He). ring.
Qed.


End ExactWeights.

(** ** Amounts that are not negative *)

Section NonNegativeAmounts.

Context {F : Type} `{NumberSpec F}.

Local Open Scope Q_scope.

Variable pool_deg : Z.
Variable len : nat.

(** [c] bounds the rounded products: [int(pool_deg * w) <= c * w] *)
Variable c : Q.
Hypothesis c_nonneg : 0 <= c.
Hypothesis amount_bound :
  forall w a q, amount pool_deg w = Some a -> value w = Some q -> 0 <= q ->
                (0 <= a)%Z /\ inject_Z a <= c * q.

(** the records before the last: none is negative and together they take at
    most [c] times the sum of their weights; the last takes the rest *)
Lemma allocations_body_bound (weighted : list (KNUEntry F * F)) :
  forall (qs : list Q) (i : nat) (total : Z) (ds : list (Distribution F)),
    Forall2 (fun kw q => value (snd kw) = Some q /\ 0 <= q) weighted qs ->
    allocations pool_deg len i weighted total = Some ds ->
    (i + List.length weighted = len)%nat -> weighted <> [] ->
    exists body last_d,
      ds = body ++ [last_d]
      /\ Forall (fun d => (0 <= tokens_deg d)%Z) body
      /\ inject_Z (sum_deg body) <= c * ExactWeights.qsum (removelast qs)
      /\ tokens_deg last_d = (pool_deg - (total + sum_deg body))%Z.
Proof.
  induction weighted as [|[knu wgt] rest IH]; intros qs i total ds Hq; cbn [allocations].
  - intros _ _ Hne. contradiction.
  - destruct (allocation pool_deg len i total wgt) as [alloc|] eqn:Ha; [ | discriminate].
    destruct (allocations pool_deg len (S i) rest (total + fst alloc)) as [ds'|] eqn:Hr;
      [ | discriminate].
    intros [= <-] Hlen _. cbn [List.length] in Hlen.
    destruct qs as [|q qs']; [inversion Hq | ].
    apply Forall2_cons_iff in Hq. destruct Hq as [[Hv Hq0] Hrest]. cbn [snd] in Hv.
    destruct (allocation_spec _ _ _ _ _ _ Ha) as [_ [_ [Hmid Hlast]]].
    destruct rest as [|kw' rest''].
    + cbn [allocations] in Hr. injection Hr as <-.
      destruct qs' as [|q' qs'']; [ | inversion Hrest]. cbn [List.length] in Hlen.
      exists [], (record_of knu wgt alloc). cbn [app removelast]. repeat split.
      * constructor.
      * unfold sum_deg, ExactWeights.qsum. cbn. rewrite Qmult_0_r. apply Qle_refl.
      * cbn [record_of tokens_deg]. rewrite Hlast by lia. unfold sum_deg. cbn. lia.
    + cbn [List.length] in Hlen.
      destruct (IH qs' (S i) (total + fst alloc)%Z ds' Hrest Hr)
        as [body [last_d [-> [Hall [Hsum Htail]]]]];
        [cbn [List.length]; lia | discriminate | ].
      assert (Hi : i <> (len - 1)%nat) by lia.
      destruct (amount_bound wgt (fst alloc) q (Hmid Hi) Hv Hq0) as [Hpos Hle].
      exists (record_of knu wgt alloc :: body), last_d. repeat split.
      * constructor; [exact Hpos | exact Hall].
      * destruct qs' as [|q2 qs2]; [inversion Hrest | ].
        change (removelast (q :: q2 :: qs2)) with (q :: removelast (q2 :: qs2)).
        unfold sum_deg, ExactWeights.qsum in *.
        cbn [map fold_right record_of tokens_deg].
        rewrite inject_Z_plus. rewrite Qmult_plus_distr_r.
        apply Qplus_le_compat; [exact Hle | exact Hsum].
      * rewrite Htail. unfold sum_deg. cbn [map fold_right record_of tokens_deg]. lia.
Qed.

Lemma qsum_removelast_le (qs : list Q) :
  Forall (fun q => 0 <= q) qs ->
  ExactWeights.qsum (removelast qs) <= ExactWeights.qsum qs.
Proof.
  induction 1 as [|q qs Hq Hall IH]; [apply Qle_refl | ].
  destruct qs as [|q' qs'].
  - cbn. lra.
  - change (removelast (q :: q' :: qs')) with (q :: removelast (q' :: qs')).
    unfold ExactWeights.qsum in *. cbn [fold_right] in *. lra.
Qed.

(** with [c] below [pool_deg + 1] and weights that sum to at most one, the
    remainder left for the last record is not negative either *)
Lemma allocations_nonneg (weighted : list (KNUEntry F * F)) (qs : list Q)
      (ds : list (Distribution F)) :
  c < inject_Z pool_deg + 1 ->
  Forall2 (fun kw q => value (snd kw) = Some q /\ 0 <= q) weighted qs ->
  ExactWeights.qsum qs <= 1 ->
  allocations pool_deg len 0 weighted 0 = Some ds ->
  List.length weighted = len -> weighted <> [] ->
  Forall (fun d => (0 <= tokens_deg d)%Z) ds.
Proof.
  intros Hc Hq Hsum Ha Hlen Hne.
  destruct (allocations_body_bound weighted qs 0%nat 0%Z ds Hq Ha Hlen Hne)
    as [body [last_d [-> [Hall [Hbody Hlast]]]]].
  apply Forall_app. split; [exact Hall | ]. constructor; [ | constructor].
  assert (Hqs : Forall (fun q => 0 <= q) qs).
  { clear - Hq. induction Hq as [|kw q l l' [_ Hq0] _ IH]; constructor; assumption. }
  pose proof (qsum_removelast_le qs Hqs) as Hrm.
  assert (Hcr : c * ExactWeights.qsum (removelast qs) <= c).
  { rewrite Qmult_comm. rewrite <- (Qmult_1_l c) at 2.
    apply Qmult_le_compat_r; [lra | exact c_nonneg]. }
  assert (Hlt : inject_Z (sum_deg body) < inject_Z pool_deg + 1) by lra.
  assert (Hz : (sum_deg body < pool_deg + 1)%Z).
  { rewrite Zlt_Qlt, inject_Z_plus. exact Hlt. }
  rewrite Hlast. lia.
Qed.

End NonNegativeAmounts.

Module ExactAmounts.

Import ExactSpec.
Local Open Scope Q_scope.

Lemma allocations_total (pool_deg : Z) (len : nat) (weighted : list (KNUEntry Q * Q)) :
  forall i total, exists ds, allocations pool_deg len i weighted total = Some ds.
Proof.
  induction weighted as [|[knu wgt] rest IH]; intros i total; cbn [allocations].
  - now exists [].
  - unfold allocation, amount.
    cbn [float_of_int int_of_float int_truediv fmul Exact.number].
    change (DEG_PER_TT =? 0)%Z with false. cbn iota.
    destruct (Nat.eqb i (len - 1));
      match goal with
      | |- context [allocations pool_deg len (S i) rest ?t] =>
        destruct (IH (S i) t) as [ds' ->]
      end; eexists; reflexivity.
Qed.

Lemma exact_amount_bound (pool_deg : Z) (w : Q) (a : Z) (q : Q) :
  (0 <= pool_deg)%Z ->
  amount pool_deg w = Some a -> value w = Some q -> 0 <= q ->
  (0 <= a)%Z /\ inject_Z a <= inject_Z pool_deg * q.
Proof.
  intros Hp Ha [= <-] Hq. unfold amount in Ha.
  cbn [float_of_int int_of_float fmul Exact.number] in Ha. injection Ha as <-.
  assert (Hprod : 0 <= inject_Z pool_deg * w).
  { apply Qmult_le_0_compat; [ | exact Hq]. unfold Qle. cbn. lia. }
  split.
  - now apply Qtrunc_nonneg.
  - rewrite (Qtrunc_floor _ Hprod). apply Qfloor_le.
Qed.

(** In exact arithmetic the rule needs no bound on the pool: for every pool
    size that is not negative and every non-empty list of weighted records
    whose weights are not negative and sum to at most 1, [distribute]
    computes an amount for every record and none of these integer deg
    amounts is negative, the last record's remainder included.  (In
    binary64 the products [pool_deg * weight] are rounded, and the rule
    holds while they are not rounded upward past the pool: see
    [Binary64Amounts] below.) *)
Theorem exact_amounts_are_not_negative (env : Env) (knot : string) (pool_tt : Q)
        (weighted_knus : list (KNUEntry Q * Q)) (w : World Q) :
  weighted_knus <> [] ->
  0 <= pool_tt ->
  Forall (fun kw => 0 <= snd kw) weighted_knus ->
  ExactWeights.qsum (map snd weighted_knus) <= 1 ->
  exists pool_deg w' ds,
    to_deg pool_tt = Some pool_deg
    /\ distribute_loop env true knot pool_deg (List.length weighted_knus) 0
                       weighted_knus 0 [] w = (w', Ok ds)
    /\ List.length ds = List.length weighted_knus
    /\ Forall (fun d => (0 <= tokens_deg d)%Z) ds.
Proof.
  intros Hne Hpool Hw Hsum.
  destruct (to_deg pool_tt) as [pool_deg|] eqn:Hdeg; [ | discriminate].
  assert (Hp : (0 <= pool_deg)%Z).
  { eapply to_deg_floor; [exact Hdeg | ]. exists pool_tt. split; [reflexivity | exact Hpool]. }
  destruct (allocations_total pool_deg (List.length weighted_knus) weighted_knus 0%nat 0%Z)
    as [ds Ha].
  exists pool_deg, (add_console w (map dry_event ds)), ds. split; [reflexivity | ].
  split; [rewrite (distribute_loop_dry env knot _ _ _ _ _ _ _ _ Ha); reflexivity | ].
  split; [eapply allocations_length; exact Ha | ].
  assert (Hc0 : 0 <= inject_Z pool_deg) by (unfold Qle; cbn; lia).
  assert (Hbound : forall w0 a q,
             amount pool_deg w0 = Some a -> value w0 = Some q -> 0 <= q ->
             (0 <= a)%Z /\ inject_Z a <= inject_Z pool_deg * q)
    by (intros w0 a q; now apply exact_amount_bound).
  assert (Hvals : Forall2 (fun (kw : KNUEntry Q * Q) q => value (snd kw) = Some q /\ 0 <= q)
                          weighted_knus (map snd weighted_knus)).
  { clear - Hw. induction Hw as [|kw l Hk Hl IH]; cbn [map]; constructor;
      [split; [reflexivity | exact Hk] | exact IH]. }
  refine (allocations_nonneg pool_deg (List.length weighted_knus) (inject_Z pool_deg)
                             Hc0 Hbound weighted_knus (map snd weighted_knus) ds
                             _ Hvals Hsum Ha eq_refl Hne).
  lra.
Qed.

End ExactAmounts.

(** ** Rounding in binary64

    How far above the exact result a rounded result can lie: every
    operation of [SpecFloat] rounds to nearest, so a normal result is at
    most a factor [1 + 2^-53] above the exact one. *)

Module Binary64Rounding.

Import Binary64 Binary64Spec.

(** [digits2_pos p] is the number of binary digits of [p] *)
Lemma digits2_pos_bounds (p : positive) :
  2 ^ (Zpos (digits2_pos p) - 1) <= Zpos p < 2 ^ Zpos (digits2_pos p).
Proof.
  induction p as [p IH | p IH | ]; cbn [digits2_pos]; [ | | cbn; lia].
  all: rewrite Pos2Z.inj_succ.
  all: replace (Z.succ (Zpos (digits2_pos p)) - 1) with (Zpos (digits2_pos p)) by lia.
  all: rewrite Z.pow_succ_r by lia.
  all: assert (Hd : 2 ^ Zpos (digits2_pos p) = 2 * 2 ^ (Zpos (digits2_pos p) - 1))
    by (rewrite <- Z.pow_succ_r by lia; f_equal; lia).
  all: lia.
Qed.

Lemma iter_pos_nat {A : Type} (f : A -> A) (p : positive) (x : A) :
  iter_pos f p x = Nat.iter (Pos.to_nat p) f x.
Proof.
  revert x. induction p as [p IH | p IH | ]; intros x; cbn [iter_pos].
  - rewrite !IH, Pos2Nat.inj_xI.
    replace (2 * Pos.to_nat p)%nat with (Pos.to_nat p + Pos.to_nat p)%nat by lia.
    rewrite Nat.iter_succ, Nat.iter_add, !Nat.iter_swap. reflexivity.
  - rewrite !IH, Pos2Nat.inj_xO.
    replace (2 * Pos.to_nat p)%nat with (Pos.to_nat p + Pos.to_nat p)%nat by lia.
    now rewrite Nat.iter_add.
  - reflexivity.
Qed.

(** the bit last shifted out of a mantissa *)
Definition round_bit (r : shr_record) : Z := if shr_r r then 1 else 0.

Lemma shr_1_step (r : shr_record) :
  0 <= shr_m r ->
  0 <= shr_m (shr_1 r) /\ shr_m r = 2 * shr_m (shr_1 r) + round_bit (shr_1 r).
Proof.
  destruct r as [m rb sb]. cbn [shr_m]. intros Hm. unfold round_bit.
  destruct m as [|[p|p|]|p]; cbn [shr_1 shr_m shr_r]; lia.
Qed.

(** after [n] shifts of a mantissa [m] that is not negative *)
Lemma shr_iter_bound (m : Z) (n : nat) :
  0 <= m ->
  let r := Nat.iter n shr_1 {| shr_m := m; shr_r := false; shr_s := false |} in
  0 <= shr_m r
  /\ shr_m r * 2 ^ Z.of_nat n <= m
  /\ ((0 < n)%nat -> (2 * shr_m r + round_bit r) * 2 ^ (Z.of_nat n - 1) <= m).
Proof.
  intros Hm. induction n as [|n IH]; cbn zeta.
  - cbn. repeat split; try lia.
  - cbn zeta in IH. rewrite Nat.iter_succ.
    set (r := Nat.iter n shr_1 {| shr_m := m; shr_r := false; shr_s := false |}) in *.
    destruct IH as [H0 [H1 _]].
    destruct (shr_1_step r H0) as [H0' Hstep].
    rewrite Nat2Z.inj_succ.
    replace (Z.succ (Z.of_nat n) - 1) with (Z.of_nat n) by lia.
    rewrite Z.pow_succ_r by lia.
    assert (Hp : 0 < 2 ^ Z.of_nat n) by (apply Z.pow_pos_nonneg; lia).
    assert (Hb : 0 <= round_bit (shr_1 r)) by (unfold round_bit; destruct (shr_r _); lia).
    repeat split.
    + exact H0'.
    + rewrite Hstep in H1. nia.
    + intros _. rewrite <- Hstep. exact H1.
Qed.

(** rounding to nearest adds at most the bit last shifted out *)
Lemma round_nearest_even_bound (r : shr_record) :
  0 <= shr_m r ->
  shr_m r <= round_nearest_even (shr_m r) (loc_of_shr_record r) <= shr_m r + round_bit r.
Proof.
  destruct r as [m rb sb]. cbn [shr_m]. unfold round_bit. cbn [shr_r].
  destruct rb, sb; cbn [loc_of_shr_record round_nearest_even]; try lia.
  destruct (Z.even m); lia.
Qed.

(** one rounding shift by [k] places: the rounded mantissa times [2^k] is at
    most [m + 2^(k-1)] *)
Lemma shr_round_bound (m e : Z) (mrs : shr_record) (e1 : Z) :
  0 <= m ->
  shr_fexp prec emax m e loc_Exact = (mrs, e1) ->
  let m1 := round_nearest_even (shr_m mrs) (loc_of_shr_record mrs) in
  let k := e1 - e in
  0 <= m1 /\ 0 <= k /\ 0 <= shr_m mrs /\ shr_m mrs * 2 ^ k <= m
  /\ (k = 0 -> m1 = m)
  /\ (0 < k -> m1 * 2 ^ k <= m + 2 ^ (k - 1)
               /\ k = fexp prec emax (Zdigits2 m + e) - e).
Proof.
  intros Hm. unfold shr_fexp, shr. cbn [shr_record_of_loc].
  destruct (fexp prec emax (Zdigits2 m + e) - e) as [|p|p] eqn:Hk.
  - intros [= <- <-]. cbn [shr_m loc_of_shr_record round_nearest_even].
    replace (e - e) with 0 by lia. rewrite Z.pow_0_r. repeat split; try lia.
  - intros [= <- <-]. rewrite iter_pos_nat. cbn zeta.
    pose proof (shr_iter_bound m (Pos.to_nat p) Hm) as Hb. cbn zeta in Hb.
    set (r := Nat.iter (Pos.to_nat p) shr_1 {| shr_m := m; shr_r := false; shr_s := false |}) in *.
    destruct Hb as [H0 [H1 H2]]. specialize (H2 (Pos2Nat.is_pos p)).
    rewrite positive_nat_Z in H1, H2.
    pose proof (round_nearest_even_bound r H0) as [Hlo Hhi].
    replace (e + Zpos p - e) with (Zpos p) by lia.
    assert (Hp : 0 < 2 ^ (Zpos p - 1)) by (apply Z.pow_pos_nonneg; lia).
    assert (Hpp : 2 ^ Zpos p = 2 * 2 ^ (Zpos p - 1)).
    { rewrite <- Z.pow_succ_r by lia. f_equal. lia. }
    assert (Hbit : 0 <= round_bit r <= 1) by (unfold round_bit; destruct (shr_r r); lia).
    repeat split; try lia.
    rewrite Hpp. nia.
  - intros [= <- <-]. cbn [shr_m loc_of_shr_record round_nearest_even].
    replace (e - e) with 0 by lia. rewrite Z.pow_0_r. repeat split; try lia.
Qed.

(** half a unit in the last place after a shift by [k1] places *)
Definition half_ulp (k1 : Z) : Z := if k1 =? 0 then 0 else 2 ^ (k1 - 1).

(** the mantissa and exponent that rounding gives, against the exact ones:
    the error is at most half a unit in the last place, which is at most
    [2^-53] of a normal number; a subnormal result is below [2^-1021] *)
Lemma binary_round_aux_bound (m : positive) (e : Z) (m2 : positive) (e2 : Z) :
  binary_round_aux prec emax false (Zpos m) e loc_Exact = S754_finite false m2 e2 ->
  exists k1 k,
    0 <= k1 <= k /\ e2 = e + k
    /\ Zpos m2 * 2 ^ k <= Zpos m + half_ulp k1
    /\ (k1 = 0 \/ 2 ^ (k1 + 52) <= Zpos m
        \/ (e + k1 = -1074 /\ Zpos m < 2 ^ (k1 + 52))).
Proof.
  unfold binary_round_aux.
  destruct (shr_fexp prec emax (Zpos m) e loc_Exact) as [mrs1 e1] eqn:H1.
  pose proof (shr_round_bound (Zpos m) e mrs1 e1 ltac:(lia) H1) as B1. cbn zeta in B1.
  set (m1 := round_nearest_even (shr_m mrs1) (loc_of_shr_record mrs1)) in *.
  destruct B1 as [Hm1 [Hk1 [_ [_ [Hexact Hround]]]]].
  destruct (shr_fexp prec emax m1 e1 loc_Exact) as [mrs2 e2'] eqn:H2.
  pose proof (shr_round_bound m1 e1 mrs2 e2' Hm1 H2) as B2. cbn zeta in B2.
  destruct B2 as [_ [Hk2 [_ [Hfloor _]]]].
  destruct (shr_m mrs2) as [|m2'|m2'] eqn:Hm2; try discriminate.
  destruct (e2' <=? emax - prec); [ | discriminate].
  intros [= <- <-].
  exists (e1 - e), (e2' - e).
  assert (Hp2 : 0 < 2 ^ (e2' - e1)) by (apply Z.pow_pos_nonneg; lia).
  assert (Hp1 : 0 < 2 ^ (e1 - e)) by (apply Z.pow_pos_nonneg; lia).
  assert (Hsplit : 2 ^ (e2' - e) = 2 ^ (e2' - e1) * 2 ^ (e1 - e)).
  { rewrite <- Z.pow_add_r by lia. f_equal. lia. }
  split; [lia | ]. split; [lia | ]. split.
  - unfold half_ulp. destruct (e1 - e =? 0) eqn:Hz.
    + apply Z.eqb_eq in Hz. rewrite Hsplit, Hz, Z.pow_0_r, Z.mul_1_r.
      rewrite <- (Hexact Hz). lia.
    + apply Z.eqb_neq in Hz. destruct Hround as [Hr _]; [lia | ].
      rewrite Hsplit. nia.
  - destruct (Z.eq_dec (e1 - e) 0) as [Hz | Hz]; [now left | right].
    destruct Hround as [_ Hk]; [lia | ].
    pose proof (digits2_pos_bounds m) as [Hlo Hhi].
    unfold fexp, emin in Hk. cbn [Zdigits2] in Hk.
    change prec with 53 in Hk. change emax with 1024 in Hk.
    destruct (Z_le_gt_dec (-1074) (Zpos (digits2_pos m) + e - 53)) as [Hn | Hs].
    + left. replace (e1 - e + 52) with (Zpos (digits2_pos m) - 1) by lia. exact Hlo.
    + right. split; [lia | ].
      eapply Z.lt_le_trans; [exact Hhi | ]. apply Z.pow_le_mono_r; lia.
Qed.

Local Open Scope Q_scope.

(** *** The same bounds on the rationals the numbers stand for *)

Definition pow2 (e : Z) : Q := 2 ^ e.

(** the unit roundoff of binary64 *)
Definition eps : Q := 1 # 9007199254740992.

Lemma pow2_pos (e : Z) : 0 < pow2 e.
Proof. apply Qpower_0_lt. reflexivity. Qed.

Lemma pow2_add (a b : Z) : pow2 (a + b) == pow2 a * pow2 b.
Proof. apply Qpower_plus. discriminate. Qed.

Lemma inject_Z_pow2 (k : Z) : (0 <= k)%Z -> inject_Z (2 ^ k) == pow2 k.
Proof. intros Hk. unfold pow2. now rewrite Zpower_Qpower. Qed.

Lemma SF2Q_finite_value (s : bool) (m : positive) (e : Z) (q : Q) :
  SF2Q (S754_finite s m e) = Some q ->
  q == inject_Z (cond_Zopp s (Zpos m)) * pow2 e.
Proof.
  destruct e as [|k|k]; cbn [SF2Q]; intros [= <-].
  - unfold pow2. cbn [Qpower]. rewrite Qmult_1_r. now rewrite Z.mul_1_r.
  - rewrite inject_Z_mult, <- inject_Z_pow2 by lia. reflexivity.
  - rewrite Qmake_Qdiv, Pos2Z.inj_pow.
    change (Zneg k) with (- Zpos k)%Z. unfold pow2. rewrite Qpower_opp.
    rewrite <- (Zpower_Qpower 2 (Zpos k)) by lia. reflexivity.
Qed.

(** [r] is not negative and lies at most one rounding above [x], or below 1
    (which covers the subnormal results, whose error is not relative) *)
Definition rounds_up_to (x : Q) (r : spec_float) : Prop :=
  forall q, SF2Q r = Some q -> 0 <= q /\ (q < 1 \/ q <= x * (1 + eps)).

Lemma pow2_53_eps : pow2 53 * eps == 1.
Proof. reflexivity. Qed.

Lemma subnormal_below_one : pow2 (-1074) * (pow2 52 + 1) < 1.
Proof. unfold pow2. vm_compute. reflexivity. Qed.

(** rounding a mantissa [m] at exponent [e] *)
Lemma binary_round_aux_value_bound (m : positive) (e : Z) :
  rounds_up_to (inject_Z (Zpos m) * pow2 e)
               (binary_round_aux prec emax false (Zpos m) e loc_Exact).
Proof.
  intros q Hq.
  pose proof (binary_round_aux_unsigned (Zpos m) e loc_Exact) as Hu.
  split; [exact (SF2Q_unsigned _ _ Hu Hq) | ].
  destruct (binary_round_aux prec emax false (Zpos m) e loc_Exact)
    as [s | s | | s m2 e2] eqn:Hr; try discriminate.
  - injection Hq as <-. left. reflexivity.
  - cbn [SF_unsigned] in Hu. subst s.
    destruct (binary_round_aux_bound m e m2 e2 Hr) as [k1 [k [[Hk1 Hk] [-> [Hle Hcase]]]]].
    apply SF2Q_finite_value in Hq. cbn [cond_Zopp] in Hq.
    assert (Hpe : 0 < pow2 e) by apply pow2_pos.
    assert (Hm : 0 < inject_Z (Zpos m)) by (unfold Qlt; cbn; lia).
    assert (Hq' : q <= (inject_Z (Zpos m) + inject_Z (half_ulp k1)) * pow2 e).
    { rewrite Hq, pow2_add, (Qmult_comm (pow2 e)), Qmult_assoc.
      apply Qmult_le_compat_r; [ | now apply Qlt_le_weak].
      rewrite <- inject_Z_pow2, <- inject_Z_mult, <- inject_Z_plus by lia.
      rewrite <- Zle_Qle. exact Hle. }
    unfold half_ulp in Hq'.
    destruct (Z.eqb_spec k1 0) as [-> | Hk10].
    + right. apply Qle_trans with (1 := Hq').
      assert (H0 : 0 <= inject_Z (Zpos m) * pow2 e * eps).
      { apply Qmult_le_0_compat; [ | discriminate].
        apply Qmult_le_0_compat; now apply Qlt_le_weak. }
      change (inject_Z 0) with 0. lra.
    + assert (Hhalf : inject_Z (2 ^ (k1 - 1)) * pow2 53 == pow2 (k1 + 52)).
      { rewrite inject_Z_pow2 by lia. rewrite <- pow2_add. f_equiv. lia. }
      destruct Hcase as [Hc | [Hc | [He Hc]]]; [lia | | ].
      * right.
        assert (Hh : inject_Z (2 ^ (k1 - 1)) <= inject_Z (Zpos m) * eps).
        { rewrite Zle_Qle, inject_Z_pow2 in Hc by lia.
          rewrite <- Hhalf in Hc.
          setoid_replace (inject_Z (2 ^ (k1 - 1)))
            with (inject_Z (2 ^ (k1 - 1)) * pow2 53 * eps)
            by (rewrite <- Qmult_assoc, pow2_53_eps; ring).
          apply Qmult_le_compat_r; [exact Hc | discriminate]. }
        apply Qle_trans with (1 := Hq').
        setoid_replace (inject_Z (Zpos m) * pow2 e * (1 + eps))
          with ((inject_Z (Zpos m) + inject_Z (Zpos m) * eps) * pow2 e) by ring.
        apply Qmult_le_compat_r; [lra | now apply Qlt_le_weak].
      * left.
        apply Qle_lt_trans with (1 := Hq').
        apply Qlt_le_trans with (y := pow2 (-1074) * (pow2 52 + 1));
          [ | apply Qlt_le_weak, subnormal_below_one].
        replace (-1074)%Z with (e + k1)%Z by exact He.
        rewrite pow2_add.
        rewrite Zlt_Qlt, inject_Z_pow2 in Hc by lia.
        assert (Hh : inject_Z (2 ^ (k1 - 1)) * 2 == pow2 k1).
        { rewrite inject_Z_pow2 by lia. change 2 with (pow2 1) at 1.
          rewrite <- pow2_add. f_equiv. lia. }
        assert (Hk1p : 0 < pow2 k1) by apply pow2_pos.
        assert (H52 : pow2 (k1 + 52) == pow2 k1 * pow2 52) by apply pow2_add.
        setoid_replace (pow2 e * pow2 k1 * (pow2 52 + 1))
          with ((pow2 k1 * pow2 52 + pow2 k1) * pow2 e) by ring.
        apply Qmult_lt_compat_r; [exact Hpe | ].
        rewrite <- H52. lra.
Qed.

Lemma rounds_up_to_ge_one (x : Q) (r : spec_float) (q : Q) :
  rounds_up_to x r -> 1 <= x -> SF2Q r = Some q -> 0 <= q <= x * (1 + eps).
Proof.
  intros Hr Hx Hq. destruct (Hr q Hq) as [H0 [Hlt | Hle]]; split; trivial.
  assert (He : 0 <= x * eps) by (apply Qmult_le_0_compat; [lra | discriminate]).
  lra.
Qed.

Lemma rounds_up_to_ext (x y : Q) (r : spec_float) :
  x == y -> rounds_up_to x r -> rounds_up_to y r.
Proof.
  intros Hxy Hr q Hq. destruct (Hr q Hq) as [H0 [Hlt | Hle]]; split; trivial;
    [now left | right]. now rewrite <- Hxy.
Qed.

(** aligning a mantissa keeps its value *)
Lemma shl_align_value (mx : positive) (ex ex' : Z) (mz : positive) (ez : Z) :
  shl_align mx ex ex' = (mz, ez) ->
  inject_Z (Zpos mz) * pow2 ez == inject_Z (Zpos mx) * pow2 ex.
Proof.
  unfold shl_align. destruct (ex' - ex)%Z as [|d|d] eqn:Hd; intros [= <- <-]; try reflexivity.
  change (Pos.iter xO mx d) with (shift_pos d mx).
  rewrite shift_pos_correct. change (Zpower_pos 2 d) with (2 ^ Zpos d)%Z.
  rewrite inject_Z_mult, inject_Z_pow2 by lia.
  replace ex with (Zpos d + ex')%Z by lia. rewrite pow2_add. ring.
Qed.

Lemma binary_round_value_bound (m : positive) (e : Z) :
  rounds_up_to (inject_Z (Zpos m) * pow2 e) (binary_round prec emax false m e).
Proof.
  unfold binary_round.
  destruct (shl_align m e _) as [mz ez] eqn:Hs.
  apply (rounds_up_to_ext _ _ _ (shl_align_value _ _ _ _ _ Hs)).
  apply binary_round_aux_value_bound.
Qed.

Lemma binary_normalize_value_bound (z e : Z) :
  (0 <= z)%Z ->
  rounds_up_to (inject_Z z * pow2 e) (binary_normalize prec emax z e false).
Proof.
  intros Hz. destruct z as [|m|m]; [ | apply binary_round_value_bound | lia].
  intros q [= <-]. split; [apply Qle_refl | left; reflexivity].
Qed.

Lemma SFldexp_value_bound (f : spec_float) (e : Z) (x : Q) :
  SF_unsigned f -> SF2Q f = Some x ->
  rounds_up_to (x * pow2 e) (SFldexp prec emax f e).
Proof.
  destruct f as [s | s | | s m ex]; try discriminate; cbn [SF_unsigned SFldexp].
  - intros _ _ q [= <-]. split; [apply Qle_refl | left; reflexivity].
  - intros -> Hx. apply SF2Q_finite_value in Hx. cbn [cond_Zopp] in Hx.
    apply rounds_up_to_ext with (2 := binary_round_value_bound m (ex + e)).
    rewrite Hx, pow2_add. ring.
Qed.

Lemma SFldexp_undefined (f : spec_float) (e : Z) :
  SF2Q f = None -> SF2Q (SFldexp prec emax f e) = None.
Proof. destruct f as [s | s | | s m [|k|k]]; try discriminate; intros _; reflexivity. Qed.

(** a product of two numbers that are not negative: one rounding *)
Lemma SFmul_value_bound (x y : spec_float) (qx qy : Q) :
  SF_unsigned x -> SF_unsigned y -> SF2Q x = Some qx -> SF2Q y = Some qy ->
  rounds_up_to (qx * qy) (SFmul prec emax x y).
Proof.
  destruct x as [sx | sx | | sx mx ex]; destruct y as [sy | sy | | sy my ey];
    try discriminate; cbn [SF_unsigned SFmul];
    try (intros _ _ _ _ q [= <-]; split; [apply Qle_refl | left; reflexivity]).
  intros -> -> Hx Hy.
  apply SF2Q_finite_value in Hx, Hy. cbn [cond_Zopp xorb] in *.
  apply rounds_up_to_ext with (2 := binary_round_aux_value_bound (mx * my) (ex + ey)).
  rewrite Hx, Hy, Pos2Z.inj_mul, inject_Z_mult, pow2_add. ring.
Qed.

Lemma SFmul_undefined_l (x y : spec_float) :
  SF2Q x = None -> SF2Q (SFmul prec emax x y) = None.
Proof.
  destruct x as [s | s | | s m [|k|k]]; try discriminate; intros _; destruct y; reflexivity.
Qed.

(** the factor of one rounding upward *)
Definition up : Q := 1 + eps.

Lemma inject_Z_nonneg (z : Z) : (0 <= z)%Z -> 0 <= inject_Z z.
Proof. intros Hz. unfold Qle. cbn. lia. Qed.

Lemma inject_Z_ge_one (z : Z) : (1 <= z)%Z -> 1 <= inject_Z z.
Proof. intros Hz. unfold Qle. cbn. lia. Qed.

(** an int that is not negative, rounded to a float: at most one rounding up *)
Lemma binary_normalize_int_bound (z : Z) (q : Q) :
  (0 <= z)%Z -> SF2Q (binary_normalize prec emax z 0 false) = Some q ->
  0 <= q <= inject_Z z * up.
Proof.
  intros Hz Hq. destruct (Z.eq_dec z 0) as [-> | Hz0].
  - injection Hq as <-. split; apply Qle_refl || discriminate.
  - pose proof (binary_normalize_value_bound z 0 Hz) as Hr.
    apply rounds_up_to_ext with (y := inject_Z z) in Hr;
      [ | unfold pow2; cbn [Qpower]; ring].
    apply (rounds_up_to_ge_one _ _ _ Hr); [apply inject_Z_ge_one; lia | exact Hq].
Qed.

(** [SF2Prim] goes through [of_uint63] and [ldexp]: two more roundings *)
Lemma SF2Prim_value_bound (m : positive) (e : Z) (q : Q) :
  b64_value (SF2Prim (S754_finite false m e)) = Some q ->
  0 <= q /\ (q < 1 \/ q <= inject_Z (Zpos m) * pow2 e * (up * up)).
Proof.
  unfold b64_value. cbn [SF2Prim]. rewrite Z_ldexp_spec.
  set (pm := of_uint63 (Uint63.of_Z (Zpos m))).
  assert (Hpm : Prim2SF pm
                = binary_normalize prec emax (Uint63.to_Z (Uint63.of_Z (Zpos m))) 0 false)
    by apply of_uint63_spec.
  pose proof (Uint63.to_Z_bounded (Uint63.of_Z (Zpos m))) as Hb.
  assert (Hle : (Uint63.to_Z (Uint63.of_Z (Zpos m)) <= Zpos m)%Z).
  { rewrite Uint63.of_Z_spec. apply Z.mod_le; [lia | apply Uint63.wB_pos]. }
  destruct (SF2Q (Prim2SF pm)) as [v1|] eqn:Hv1;
    [ | intros Hq; rewrite SFldexp_undefined in Hq by exact Hv1; discriminate].
  intros Hq.
  assert (Hu : SF_unsigned (Prim2SF pm)).
  { rewrite Hpm. apply binary_normalize_unsigned. lia. }
  rewrite Hpm in Hv1.
  destruct (binary_normalize_int_bound _ v1 (proj1 Hb) Hv1) as [Hv0 Hvle].
  rewrite <- Hpm in Hv1.
  destruct (SFldexp_value_bound _ e v1 Hu Hv1 q Hq) as [H0 [Hlt | Hq1]];
    (split; [exact H0 | ]); [now left | right].
  apply Qle_trans with (1 := Hq1).
  setoid_replace (inject_Z (Zpos m) * pow2 e * (up * up))
    with (inject_Z (Zpos m) * up * (pow2 e * (1 + eps))) by (unfold up; ring).
  rewrite <- Qmult_assoc.
  apply Qmult_le_compat_nonneg.
  - split; [exact Hv0 | ]. apply Qle_trans with (1 := Hvle).
    apply Qmult_le_compat_r; [ | discriminate]. now rewrite <- Zle_Qle.
  - split; [ | apply Qle_refl].
    apply Qmult_le_0_compat; [apply Qlt_le_weak, pow2_pos | discriminate].
Qed.

(** the float of an int that is not negative is at most three roundings above it *)
Lemma b64_of_int_value_bound (z : Z) (p : float) (q : Q) :
  (0 <= z)%Z -> b64_of_int z = Some p -> b64_value p = Some q ->
  0 <= q <= inject_Z z * (up * up * up).
Proof.
  intros Hz Hp Hq. unfold b64_of_int in Hp.
  pose proof (binary_normalize_unsigned z 0 Hz) as Hu.
  pose proof (binary_normalize_int_bound z) as Hr.
  assert (Hup : 0 <= up * up * up) by discriminate.
  destruct (binary_normalize prec emax z 0 false) as [s | s | | s m0 e0];
    try discriminate; injection Hp as <-.
  - assert (H0 : q == 0).
    { destruct s; vm_compute in Hq; injection Hq as <-; reflexivity. }
    rewrite H0. split; [apply Qle_refl | ].
    apply Qmult_le_0_compat; [now apply inject_Z_nonneg | exact Hup].
  - cbn [SF_unsigned] in Hu. subst s.
    destruct (SF2Q (S754_finite false m0 e0)) as [v0|] eqn:Hv0.
    2:{ destruct e0; discriminate. }
    destruct (Hr v0 Hz eq_refl) as [Hv0pos Hv0le].
    apply SF2Q_finite_value in Hv0. cbn [cond_Zopp] in Hv0.
    assert (Hz1 : 1 <= inject_Z z).
    { apply inject_Z_ge_one. destruct z as [|mz|mz]; [ | lia | lia].
      exfalso. rewrite Hv0 in Hv0le. rewrite Qmult_0_l in Hv0le.
      assert (0 < inject_Z (Zpos m0) * pow2 e0); [ | lra].
      apply Qmult_lt_0_compat; [reflexivity | apply pow2_pos]. }
    destruct (SF2Prim_value_bound m0 e0 q Hq) as [H0 [Hlt | Hle]];
      (split; [exact H0 | ]).
    + apply Qle_trans with (y := 1 * (1 * 1 * 1)); [lra | ].
      apply Qmult_le_compat_nonneg; [split; [discriminate | exact Hz1] | ].
      split; discriminate.
    + apply Qle_trans with (1 := Hle). rewrite <- Hv0.
      setoid_replace (inject_Z z * (up * up * up)) with (inject_Z z * up * (up * up)) by ring.
      apply Qmult_le_compat_r; [exact Hv0le | discriminate].
Qed.

(** [int(pool_deg * weight)] lies at most four roundings above the exact
    product: three for [float(pool_deg)], one for the product, and [int()]
    only truncates *)
Lemma b64_amount_bound (pool_deg : Z) (w : float) (a : Z) (q : Q) :
  (0 <= pool_deg)%Z ->
  amount pool_deg w = Some a -> value w = Some q -> 0 <= q ->
  (0 <= a)%Z /\ inject_Z a <= inject_Z pool_deg * (up * up * up * up) * q.
Proof.
  intros Hp Ha Hw Hq. unfold amount in Ha.
  destruct (float_of_int pool_deg) as [p|] eqn:Hpf; [ | discriminate].
  rewrite int_of_float_value in Ha.
  cbn [value number_spec fmul number float_of_int] in *.
  unfold b64_value in Ha. rewrite mul_spec in Ha. unfold SF64mul in Ha.
  destruct (b64_value p) as [vp|] eqn:Hvp.
  2:{ rewrite (SFmul_undefined_l _ (Prim2SF w) Hvp) in Ha. discriminate Ha. }
  destruct (b64_of_int_value_bound pool_deg p vp Hp Hpf Hvp) as [Hvp0 Hvple].
  pose proof (SFmul_value_bound (Prim2SF p) (Prim2SF w) vp q
                (b64_of_int_unsigned pool_deg p Hp Hpf)
                (SF2Q_nonneg_unsigned _ _ Hw Hq) Hvp Hw) as Hr.
  destruct (SF2Q (SFmul prec emax (Prim2SF p) (Prim2SF w))) as [v|] eqn:Hv; [ | discriminate].
  cbn [option_map] in Ha. injection Ha as <-.
  destruct (Hr v Hv) as [Hv0 Hcase].
  split; [now apply Qtrunc_nonneg | ].
  rewrite (Qtrunc_floor v Hv0).
  pose proof (Qfloor_le v) as Hfl.
  assert (Hc : 0 <= inject_Z pool_deg * (up * up * up * up) * q).
  { apply Qmult_le_0_compat; [ | exact Hq].
    apply Qmult_le_0_compat; [now apply inject_Z_nonneg | discriminate]. }
  destruct Hcase as [Hlt | Hle].
  - assert (Hz : (Qfloor v < 1)%Z).
    { rewrite Zlt_Qlt. apply Qle_lt_trans with (1 := Hfl). exact Hlt. }
    apply Qle_trans with (y := 0); [ | exact Hc].
    change 0 with (inject_Z 0). rewrite <- Zle_Qle. lia.
  - apply Qle_trans with (1 := Hfl). apply Qle_trans with (1 := Hle).
    setoid_replace (inject_Z pool_deg * (up * up * up * up) * q)
      with (inject_Z pool_deg * (up * up * up) * q * (1 + eps)) by (unfold up; ring).
    apply Qmult_le_compat_r; [ | discriminate].
    apply Qmult_le_compat_r; [exact Hvple | exact Hq].
Qed.

(** below [2^50] four roundings upward stay under the next integer *)
Lemma four_roundings_below_next (pool_deg : Z) :
  (0 <= pool_deg < 2 ^ 50)%Z ->
  inject_Z pool_deg * (up * up * up * up) < inject_Z pool_deg + 1.
Proof.
  intros [H0 H1]. rewrite Zle_Qle in H0. rewrite Zlt_Qlt in H1.
  assert (Hup : up * up * up * up <= 1 + (5 # 9007199254740992)) by (vm_compute; discriminate).
  assert (Hle : inject_Z pool_deg * (up * up * up * up)
                <= inject_Z pool_deg * (1 + (5 # 9007199254740992))).
  { rewrite !(Qmult_comm (inject_Z pool_deg)). now apply Qmult_le_compat_r. }
  apply Qle_lt_trans with (1 := Hle).
  change (inject_Z (2 ^ 50)) with (1125899906842624 # 1) in H1.
  change (inject_Z 0) with 0 in H0. lra.
Qed.

End Binary64Rounding.

(** ** Amounts that are not negative, in binary64 *)

Module Binary64Amounts.

Import Binary64 Binary64Spec Binary64Rounding.
Local Open Scope Q_scope.


End Binary64Amounts.

(** ** Binary64 facts *)

Module Binary64Weights.

Import Binary64.
Local Open Scope float_scope.

Lemma Prim2SF_zero : Prim2SF 0 = S754_zero false.
Proof. reflexivity. Qed.

Lemma positive_cases (x : float) :
  (0 <? x) = true ->
  (exists m e, Prim2SF x = S754_finite false m e) \/ x = infinity.
Proof.
  rewrite ltb_spec, Prim2SF_zero. unfold SFltb, SFcompare.
  destruct (Prim2SF x) as [s | s | | s m e] eqn:Hx; try discriminate.
  - destruct s; [discriminate | ]. intros _. right.
    apply Prim2SF_inj. rewrite Hx. reflexivity.
  - destruct s; [discriminate | ]. intros _. left. now exists m, e.
Qed.

(** [0 + x] compares with zero as [x] does *)
Lemma zero_plus_ltb (x : float) : (0 <? 0 + x) = (0 <? x).
Proof.
  rewrite !ltb_spec, add_spec, Prim2SF_zero. unfold SF64add, SFadd.
  destruct (Prim2SF x) as [s | s | | s m e]; try reflexivity.
  now destruct s.
Qed.

Lemma zero_plus_positive (x : float) : (0 <? x) = true -> 0 + x = x.
Proof.
  intros Hx. apply Prim2SF_inj. rewrite add_spec, Prim2SF_zero. unfold SF64add, SFadd.
  destruct (positive_cases x Hx) as [[m [e ->]] | ->]; reflexivity.
Qed.

(** a finite non-zero float divided by itself is exactly one *)
Lemma div_self (x : float) (s : bool) (m : positive) (e : Z) :
  Prim2SF x = S754_finite s m e -> x / x = 1.
Proof.
  intros Hx. apply Prim2SF_inj. rewrite div_spec, Hx.
  unfold SF64div, SFdiv, SFdiv_core_binary.
  replace (Zdigits2 (Zpos m) + e - (Zdigits2 (Zpos m) + e))%Z with 0%Z by lia.
  rewrite Z.sub_diag.
  change (Z.min (fexp prec emax 0) 0) with (-53)%Z.
  change (0 - -53)%Z with 53%Z. cbn iota.
  rewrite Z.shiftl_mul_pow2 by lia.
  assert (Hdiv : Z.div_eucl (Zpos m * 2 ^ 53) (Zpos m) = ((2 ^ 53)%Z, 0%Z)).
  { rewrite (surjective_pairing (Z.div_eucl _ _)).
    change (fst (Z.div_eucl (Zpos m * 2 ^ 53) (Zpos m)))
      with ((Zpos m * 2 ^ 53) / Zpos m)%Z.
    change (snd (Z.div_eucl (Zpos m * 2 ^ 53) (Zpos m)))
      with ((Zpos m * 2 ^ 53) mod Zpos m)%Z.
    rewrite Z.mul_comm, Z.div_mul, Z.mod_mul by lia. reflexivity. }
  rewrite Hdiv.
  assert (Hloc : new_location (Zpos m) 0 = loc_Exact).
  { unfold new_location, new_location_even, new_location_odd.
    destruct (Z.even (Zpos m)); reflexivity. }
  rewrite Hloc. destruct s; reflexivity.
Qed.

(** the weight of a single record: one, or a raw weight that is not positive *)
Lemma single_record_weight (alpha lambda_spill : float) (knu : KNUEntry float) :
  exists w,
    calculate_weights_with alpha lambda_spill [knu] = [(knu, w)]
    /\ (w = 1 \/ (0 <? w) = false).
Proof.
  rewrite calculate_weights_closed_form. cbn [map].
  exists (final_weight alpha lambda_spill [knu] knu). split; [reflexivity | ].
  unfold final_weight, total_weight, py_sum. cbn [map fold_left].
  cbn [fltb fzero fadd fdiv number].
  set (raw := raw_weight alpha lambda_spill [knu] knu).
  destruct (0 <? 0 + raw) eqn:Hg.
  - rewrite zero_plus_ltb in Hg. rewrite (zero_plus_positive raw Hg).
    destruct (positive_cases raw Hg) as [[m [e Hr]] | Hr].
    + left. exact (div_self raw false m e Hr).
    + right. rewrite Hr. reflexivity.
  - right. now rewrite <- zero_plus_ltb.
Qed.

End Binary64Weights.

(** ** The single surviving record *)

Module SingleRecord.

Import Binary64 Binary64Weights.
Local Open Scope float_scope.


End SingleRecord.

(** ** The program on concrete inputs (binary64) *)

Module Examples.

Local Open Scope float_scope.

(** the default parameters: [alpha] is the float nearest 0.30 *)
Definition alpha_030 : float := 0x1.3333333333333p-2.
Definition lambda_050 : float := 0.5.

Definition k06 : KNUDistributor float :=
  {| pools_data :=
       {| pools := fun knot =>
                     if String.eqb knot "K06" then
                       Some {| entry_pool_tt := 150; entry_description := None |}
                     else None;
          eligibility := None |};
     alpha := alpha_030;
     lambda_spillover := lambda_050 |}.

Definition entry (id who : string) (E P S : float) : KNUEntry float :=
  {| knu_id := id; knot_id := "K06"; owner := who; E_pred := E; dR_primary := P;
     dR_adj_sum := S; status := "merged"; artifacts := ["evidence/001.md"];
     validated_by := "knot_owner"; validated_at := "2026-01-10T00:00:00Z" |}.

(** the test helper [assert_approx]: [abs(a - b) < tolerance] *)
Definition approx (a b tolerance : float) : bool := abs (a - b) <? tolerance.

Definition weights_of (alpha_arg lambda_arg : option float) (knus : list (KNUEntry float))
  : list float :=
  map snd (calculate_weights k06 knus alpha_arg lambda_arg).

Definition world0 : World float :=
  {| clock := 0; calls := []; ledger := None; console := [] |}.

(** every reward run succeeds but the second, which exits with status 1 *)
Definition second_fails : Env :=
  {| now_at := fun _ => "2026-01-10T00:00:00+00:00";
     run_at := fun k =>
                 match k with
                 | 1%nat => Completed 1 EmptyString "insufficient balance"
                 | _ => Completed 0 "Rewarded. TX-000042" EmptyString
                 end |}.

Definition team : list (KNUEntry float) :=
  [entry "KNU-K06-00-001" "alice" 5 30 10;
   entry "KNU-K06-00-002" "bob" 3 15 5;
   entry "KNU-K06-00-003" "charlie" 2 5 0].

(** a record with no effort and no impact passes the eligibility rules *)
Definition idle : KNUEntry float := entry "KNU-K06-00-009" "dave" 0 0 0.

Lemma idle_is_eligible : validate_eligibility k06 idle = (true, EmptyString).
Proof. reflexivity. Qed.






(** *** The theorems at concrete inputs *)

Definition pair : list (KNUEntry float) :=
  [entry "KNU-K06-00-001" "alice" 10 10 0; entry "KNU-K06-00-002" "bob" 5 40 0].

Definition pair_weighted : list (KNUEntry float * float) :=
  calculate_weights k06 pair None None.

Definition pair_run : World float * result (list (Distribution float)) :=
  Eval vm_compute in
    distribute_loop second_fails true "K06" 54000 2 0 pair_weighted 0 [] world0.

Definition pair_allocs : list (Distribution float) :=
  match snd pair_run with
  | Ok ds => ds
  | Raise _ => []
  end.


Definition team_dry : list (Distribution float) :=
  Eval vm_compute in
    match snd (distribute second_fails k06 "K06" team true world0) with
    | Ok ds => ds
    | Raise _ => []
    end.


(** the live run on [team]: three commands, the second refused, two records
    returned and two rows after the header of the new ledger *)
Lemma live_run_on_team :
  let r := distribute second_fails k06 "K06" team false world0 in
  map fst (calls (fst r)) = ["alice"; "bob"; "charlie"]
  /\ (exists ds, snd r = Ok ds
                 /\ map d_knu_id ds = ["KNU-K06-00-001"; "KNU-K06-00-003"]
                 /\ map tx_id ds = ["TX-000042"; "TX-000042"]
                 /\ map tokens_deg ds = [31108; 6528]%Z)
  /\ map tokens_deg team_dry = [31108; 16364; 6528]%Z
  /\ row_txs (ledger_lines (fst r)) = ["TX-000042"; "TX-000042"]
  /\ In (RewardFailed "KNU-K06-00-002"
                      (DistributionError "TT reward failed for bob: insufficient balance"))
        (console (fst r)).
Proof.
  cbv zeta. split; [vm_compute; reflexivity | ].
  split; [eexists; split; [vm_compute; reflexivity | ] | ].
  { split; [vm_compute; reflexivity | ]. split; vm_compute; reflexivity. }
  split; [vm_compute; reflexivity | ]. split; [vm_compute; reflexivity | ].
  vm_compute. right. left. reflexivity.
Qed.

Definition pending : KNUEntry float :=
  {| knu_id := "KNU-K06-00-002"; knot_id := "K06"; owner := "bob"; E_pred := 5;
     dR_primary := 30; dR_adj_sum := 10; status := "pending";
     artifacts := ["evidence/002.md"]; validated_by := "knot_owner";
     validated_at := "2026-01-10T00:00:00Z" |}.

Definition alice : KNUEntry float := entry "KNU-K06-00-001" "alice" 5 30 10.

Definition alice_alone : list (Distribution float) :=
  Eval vm_compute in
    match snd (distribute second_fails k06 "K06" [alice; pending] true world0) with
    | Ok ds => ds
    | Raise _ => []
    end.


(** a pool of 150 TT split by the weights 0.5, 0.3 and 0.2: as floats the
    last two are a little below 0.3 and a little above 0.2, and the three
    stand for rationals that sum to exactly 1 *)
Definition split_three : list (KNUEntry float * float) :=
  [(alice, 0.5); (pending, 0x1.3333333333333p-2); (idle, 0x1.999999999999ap-3)].

Definition split_three_exact : list Q :=
  Eval vm_compute in
    map (fun kw => match value (snd kw) with Some q => q | None => 0%Q end) split_three.

Definition split_three_run : World float * result (list (Distribution float)) :=
  Eval vm_compute in
    distribute_loop second_fails true "K06" 54000 3 0 split_three 0 [] world0.

Definition split_three_allocs : list (Distribution float) :=
  match snd split_three_run with
  | Ok ds => ds
  | Raise _ => []
  end.


End Examples.

(** ** The exact-arithmetic theorems at concrete inputs *)

Module ExactExamples.

Import ExactSpec.
Local Open Scope Q_scope.

Definition entry (id who : string) (E P S : Q) : KNUEntry Q :=
  {| knu_id := id; knot_id := "K06"; owner := who; E_pred := E; dR_primary := P;
     dR_adj_sum := S; status := "merged"; artifacts := ["evidence/001.md"];
     validated_by := "knot_owner"; validated_at := "2026-01-10T00:00:00Z" |}.

Definition team : list (KNUEntry Q) :=
  [entry "KNU-K06-00-001" "alice" 5 30 10;
   entry "KNU-K06-00-002" "bob" 3 15 5;
   entry "KNU-K06-00-003" "charlie" 2 5 0].


Definition no_effort : list (KNUEntry Q) :=
  [entry "KNU-K06-00-001" "alice" 0 50 0; entry "KNU-K06-00-002" "bob" 0 30 0].

Definition bob_weight : Q :=
  Eval vm_compute in nth 1 (map snd (calculate_weights_with (3 # 10) (1 # 2) no_effort)) 0.


Definition with_spillover : KNUEntry Q := entry "KNU-K06-00-001" "alice" 5 30 20.
Definition without_spillover : KNUEntry Q := entry "KNU-K06-00-002" "bob" 5 30 0.


Definition shares : list (KNUEntry Q * Q) :=
  [(with_spillover, 1 # 2); (without_spillover, 3 # 10); (without_spillover, 1 # 5)].

Definition world0 : World Q :=
  {| clock := 0; calls := []; ledger := None; console := [] |}.

Definition no_runs : Env :=
  {| now_at := fun _ => EmptyString; run_at := fun _ => SubprocessError EmptyString |}.

Lemma exact_amounts_of_shares_are_not_negative :
  shares <> []
  /\ 0 <= (301 # 2)
  /\ Forall (fun kw => 0 <= snd kw) shares
  /\ ExactWeights.qsum (map snd shares) <= 1
  /\ exists pool_deg w' ds,
      to_deg (301 # 2) = Some pool_deg
      /\ distribute_loop no_runs true "K06" pool_deg (List.length shares) 0 shares 0 []
                         world0 = (w', Ok ds)
      /\ List.length ds = List.length shares
      /\ Forall (fun d => (0 <= tokens_deg d)%Z) ds.
Proof.
  assert (Hne : shares <> []) by discriminate.
  assert (Hpool : 0 <= (301 # 2)) by (apply Qle_bool_imp_le; reflexivity).
  assert (Hw : Forall (fun kw : KNUEntry Q * Q => 0 <= snd kw) shares)
    by (repeat constructor; apply Qle_bool_imp_le; reflexivity).
  assert (Hsum : ExactWeights.qsum (map snd shares) <= 1)
    by (apply Qle_bool_imp_le; reflexivity).
  refine (conj Hne (conj Hpool (conj Hw (conj Hsum _)))).
  exact (ExactAmounts.exact_amounts_are_not_negative no_runs "K06" (301 # 2) shares world0
                                                     Hne Hpool Hw Hsum).
Defined.

End ExactExamples.

(** * Further properties of the engine *)

Section EngineProperties.

Context {F : Type} `{Number F}.

(** X1: [calculate_weights] returns one pair per record, in the order of its
    input, each holding the record it was computed for: no record is
    dropped, repeated or moved, whatever the numbers are. *)
Theorem calculate_weights_keeps_records (self : KNUDistributor F) (knus : list (KNUEntry F))
        (alpha_arg lambda_spill_arg : option F) :
  map fst (calculate_weights self knus alpha_arg lambda_spill_arg) = knus
  /\ List.length (calculate_weights self knus alpha_arg lambda_spill_arg) = List.length knus.
Proof.
  unfold calculate_weights. rewrite calculate_weights_closed_form.
  rewrite map_map, length_map. cbn [fst]. split; [apply map_id | reflexivity].
Qed.

(** the parts of the world that only a live run changes *)
Definition same_outside (w w' : World F) : Prop :=
  clock w' = clock w /\ calls w' = calls w /\ ledger w' = ledger w.

Lemma distribute_loop_dry_world (env : Env) (knot : string) (pool_deg : Z) (len : nat)
      (weighted : list (KNUEntry F * F)) :
  forall i total acc w,
    same_outside w (fst (distribute_loop env true knot pool_deg len i weighted total acc w))
    /\ exists evs,
        console (fst (distribute_loop env true knot pool_deg len i weighted total acc w))
        = console w ++ evs.
Proof.
  induction weighted as [|[knu wgt] rest IH]; intros i total acc w.
  - cbn. repeat split. exists []. now rewrite app_nil_r.
  - rewrite distribute_loop_cons.
    destruct (allocation pool_deg len i total wgt) as [alloc|].
    + cbn [negb]. cbv zeta. unfold bind. cbn [print].
      match goal with
      | |- context [distribute_loop env true knot pool_deg len (S i) rest ?t ?a ?w1] =>
        destruct (IH (S i) t a w1) as [[Hc [Hk Hl]] [evs Hevs]];
          set (w' := fst (distribute_loop env true knot pool_deg len (S i) rest t a w1)) in *
      end.
      cbn [clock calls ledger console] in Hc, Hk, Hl, Hevs.
      split; [repeat split; assumption | ].
      eexists. rewrite Hevs, <- app_assoc. reflexivity.
    + cbn. repeat split. exists []. now rewrite app_nil_r.
Qed.

Lemma distribute_loop_dry_env (env1 env2 : Env) (knot : string) (pool_deg : Z) (len : nat)
      (weighted : list (KNUEntry F * F)) :
  forall i total acc w,
    distribute_loop env1 true knot pool_deg len i weighted total acc w
    = distribute_loop env2 true knot pool_deg len i weighted total acc w.
Proof.
  induction weighted as [|[knu wgt] rest IH]; intros i total acc w; [reflexivity | ].
  rewrite !distribute_loop_cons.
  destruct (allocation pool_deg len i total wgt) as [alloc|]; [ | reflexivity].
  cbn [negb]. cbv zeta. unfold bind. cbn [print]. apply IH.
Qed.

(** X2: a dry run of [distribute] only prints.  Whatever it is given and
    whether it returns or raises, it runs no reward command, does not read
    the clock and leaves the ledger file as it is (absent, if it was
    absent); and its outcome does not depend on the clock or on the reward
    process. *)
Theorem dry_run_only_prints (env env' : Env) (self : KNUDistributor F) (knot : string)
        (knus : list (KNUEntry F)) (w : World F) :
  let w' := fst (distribute env self knot knus true w) in
  clock w' = clock w /\ calls w' = calls w /\ ledger w' = ledger w
  /\ (exists evs, console w' = console w ++ evs)
  /\ distribute env' self knot knus true w = distribute env self knot knus true w.
Proof.
  cbv zeta. rewrite !distribute_spec.
  destruct (pools (pools_data self) knot) as [pool_data|].
  2:{ cbn. repeat split. exists []. now rewrite app_nil_r. }
  cbv zeta.
  destruct (filter (eligible self knot) knus) as [|k valid].
  { cbn. repeat split. eexists. reflexivity. }
  destruct (to_deg (entry_pool_tt pool_data)) as [pool_deg|].
  2:{ cbn. repeat split. eexists. reflexivity. }
  match goal with
  | |- context [distribute_loop env true knot pool_deg ?len 0 ?wk 0 [] ?w1] =>
    destruct (distribute_loop_dry_world env knot pool_deg len wk 0%nat 0 [] w1)
      as [[Hc [Hk Hl]] [evs Hevs]];
      set (w' := fst (distribute_loop env true knot pool_deg len 0 wk 0 [] w1)) in *
  end.
  cbn [add_console clock calls ledger console] in Hc, Hk, Hl, Hevs.
  repeat split; try assumption.
  - eexists. rewrite Hevs, <- app_assoc. reflexivity.
  - apply distribute_loop_dry_env.
Qed.


(** the header line [_log_to_csv] writes before [rows] into the ledger [old] *)
Definition header_for (old rows : list (LedgerLine F)) : list (LedgerLine F) :=
  match old, rows with
  | [], _ :: _ => [Header]
  | _, _ => []
  end.

(** [line] is the ledger row of the returned record [d] *)
Definition logged (knot : string) (d : Distribution F) (line : LedgerLine F) : Prop :=
  match line with
  | Header => False
  | Row md tx =>
    tx = tx_id d /\ md_knot_id md = knot /\ md_knu_id md = d_knu_id d
    /\ md_owner md = d_owner d /\ md_weight md = weight d
    /\ md_tokens_tt md = tokens_tt d /\ md_tokens_deg md = tokens_deg d
  end.

Lemma header_for_nil (old : list (LedgerLine F)) : header_for old [] = [].
Proof. now destruct old. Qed.

Lemma ledger_lines_some (c : nat) (k : list (string * F)) (l : list (LedgerLine F))
      (e : list (Event F)) :
  ledger_lines {| clock := c; calls := k; ledger := Some l; console := e |} = l.
Proof. reflexivity. Qed.

Lemma live_loop_effects (env : Env) (knot : string) (pool_deg : Z) (len : nat)
      (weighted : list (KNUEntry F * F)) :
  forall i total acc w,
  exists w' r tried out rows evs,
    distribute_loop env false knot pool_deg len i weighted total acc w = (w', r)
    /\ clock w' = (clock w + List.length tried)%nat
    /\ calls w' = calls w ++ map call_of tried
    /\ ledger_lines w' = ledger_lines w ++ header_for (ledger_lines w) rows ++ rows
    /\ (rows = [] -> ledger w' = ledger w)
    /\ console w' = console w ++ evs
    /\ executed env (List.length (calls w)) tried out
    /\ Forall2 (logged knot) out rows
    /\ (r = Ok (acc ++ out) \/ r = Raise ConversionError).
Proof.
  induction weighted as [|[knu wgt] rest IH]; intros i total acc w.
  - exists w, (Ok acc), [], [], [], []. cbn. rewrite header_for_nil, !app_nil_r, Nat.add_0_r.
    repeat split; [constructor | constructor | now left].
  - rewrite distribute_loop_cons.
    destruct (allocation pool_deg len i total wgt) as [alloc|].
    2:{ exists w, (Raise ConversionError), [], [], [], []. cbn.
        rewrite header_for_nil, !app_nil_r, Nat.add_0_r.
        repeat split; [constructor | constructor | now right]. }
    cbn [negb]. cbv zeta.
    unfold bind at 1. cbn [now]. unfold bind at 1, try_except, bind at 1.
    match goal with
    | |- context [execute_reward env ?a ?b ?c ?d] =>
      pose proof (execute_reward_spec env a b c d) as Hex
    end.
    cbn [clock calls ledger console] in Hex.
    replace (ledger_lines
               {| clock := S (clock w); calls := calls w; ledger := ledger w;
                  console := console w |})
      with (ledger_lines w) in Hex by reflexivity.
    destruct (reward_tx (run_at env (List.length (calls w)))) as [tx|] eqn:Htx.
    + rewrite Hex. unfold bind at 1. cbn [print ret].
      destruct (reward_tx_some _ _ Htx) as [Hacc [Hid _]].
      match goal with
      | |- context [distribute_loop env false knot pool_deg len (S i) rest ?t ?a ?w1] =>
        destruct (IH (S i) t a w1)
          as [w' [r [tried [out [rows [evs [Hrun [Hclock [Hcalls [Hled [_ [Hcon
                [Hexec [Hrows Hres]]]]]]]]]]]]]]
      end.
      cbn [clock calls ledger console] in Hled. rewrite !ledger_lines_some in Hled.
      cbn [clock calls ledger console] in Hclock, Hcalls, Hcon, Hexec.
      rewrite length_app in Hexec. cbn [List.length] in Hexec.
      rewrite Nat.add_1_r in Hexec.
      exists w', r, (record_of knu wgt alloc :: tried),
             (set_tx_id (record_of knu wgt alloc) tx :: out),
             (Row {| md_timestamp := now_at env (clock w); md_knot_id := knot;
                     md_knu_id := knu_id knu; md_owner := owner knu;
                     md_E_pred := E_pred knu; md_dR_primary := dR_primary knu;
                     md_dR_adj_sum := dR_adj_sum knu; md_weight := wgt;
                     md_tokens_tt := snd alloc; md_tokens_deg := fst alloc;
                     md_validated_by := validated_by knu |} tx :: rows),
             (Rewarded (knu_id knu) (owner knu) (snd alloc) (fst alloc) tx :: evs).
      split; [exact Hrun | ]. split; [rewrite Hclock; cbn [List.length]; lia | ].
      split; [rewrite Hcalls, <- app_assoc; reflexivity | ].
      split.
      { rewrite Hled.
        assert (Hnil : forall (a b : list (LedgerLine F)) x,
                   header_for (a ++ b ++ [x]) rows = []).
        { intros a b x. destruct a; [destruct b | ]; now destruct rows. }
        rewrite Hnil. cbn [app].
        destruct (ledger_lines w); cbn [header_for app]; rewrite <- ?app_assoc; reflexivity. }
      split; [discriminate | ].
      split; [rewrite Hcon, <- app_assoc; reflexivity | ].
      split; [now constructor | ].
      split; [constructor; [cbn; repeat split | exact Hrows] | ].
      destruct Hres as [-> | ->]; [left | now right]. now rewrite <- app_assoc.
    + destruct Hex as [msg Hex]. rewrite Hex. cbn [is_DistributionError].
      unfold bind at 1. cbn [print ret].
      pose proof (reward_tx_none _ Htx) as Hnacc.
      match goal with
      | |- context [distribute_loop env false knot pool_deg len (S i) rest ?t ?a ?w1] =>
        destruct (IH (S i) t a w1)
          as [w' [r [tried [out [rows [evs [Hrun [Hclock [Hcalls [Hled [Hsame [Hcon
                [Hexec [Hrows Hres]]]]]]]]]]]]]]
      end.
      cbn [clock calls ledger console] in Hled.
      change (ledger_lines
                {| clock := S (clock w); calls := calls w ++ [(owner knu, snd alloc)];
                   ledger := ledger w;
                   console := console w
                              ++ [RewardFailed (knu_id knu) (DistributionError msg)] |})
        with (ledger_lines w) in Hled.
      cbn [clock calls ledger console] in Hclock, Hcalls, Hsame, Hcon, Hexec.
      rewrite length_app in Hexec. cbn [List.length] in Hexec.
      rewrite Nat.add_1_r in Hexec.
      exists w', r, (record_of knu wgt alloc :: tried), out, rows,
             (RewardFailed (knu_id knu) (DistributionError msg) :: evs).
      split; [exact Hrun | ]. split; [rewrite Hclock; cbn [List.length]; lia | ].
      split; [rewrite Hcalls, <- app_assoc; reflexivity | ].
      split; [exact Hled | ]. split; [exact Hsame | ].
      split; [rewrite Hcon, <- app_assoc; reflexivity | ].
      split; [now constructor | ]. split; [exact Hrows | exact Hres].
Qed.


(** *** What follows for [distribute] *)

Lemma executed_length (env : Env) (k : nat) (tried out : list (Distribution F)) :
  executed env k tried out -> (List.length out <= List.length tried)%nat.
Proof. induction 1; cbn [List.length]; lia. Qed.

Lemma logged_rows (knot : string) (out : list (Distribution F)) (rows : list (LedgerLine F)) :
  Forall2 (logged knot) out rows ->
  row_txs rows = map tx_id out /\ Forall (fun line => line <> Header) rows.
Proof.
  induction 1 as [|d line out rows Hd _ [IHtx IHrows]]; [split; [reflexivity | constructor] | ].
  destruct line as [|md tx]; [contradiction | ]. destruct Hd as [-> _].
  cbn [row_txs map]. rewrite IHtx. split; [reflexivity | ].
  constructor; [discriminate | exact IHrows].
Qed.

Lemma row_txs_header_for (old rows : list (LedgerLine F)) :
  row_txs (header_for old rows ++ rows) = row_txs rows.
Proof. destruct old, rows; reflexivity. Qed.

(** every way through [distribute] but the second loop leaves the world as
    it is, but for the console *)
Lemma distribute_cases (env : Env) (self : KNUDistributor F) (knot : string)
      (knus : list (KNUEntry F)) (dry_run : bool) (w : World F) :
  (exists e, distribute env self knot knus dry_run w
             = (add_console w (match pools (pools_data self) knot with
                               | Some _ => skip_events self knot knus
                               | None => []
                               end), Raise e))
  \/ (exists pool_deg weighted,
         weighted <> []
         /\ distribute env self knot knus dry_run w
            = distribute_loop env dry_run knot pool_deg (List.length weighted) 0 weighted 0 []
                              (add_console w (skip_events self knot knus))).
Proof.
  rewrite distribute_spec.
  destruct (pools (pools_data self) knot) as [pool_data|].
  2:{ left. eexists. unfold add_console. rewrite app_nil_r. now destruct w. }
  cbv zeta.
  destruct (filter (eligible self knot) knus) as [|k valid] eqn:Hf;
    [left; eexists; reflexivity | ].
  destruct (to_deg (entry_pool_tt pool_data)) as [pool_deg|];
    [ | left; eexists; reflexivity].
  right. exists pool_deg, (calculate_weights self (k :: valid) None None).
  split; [ | reflexivity].
  unfold calculate_weights. rewrite calculate_weights_closed_form. discriminate.
Qed.

(** X3: [distribute] only ever appends.  In both modes and whether it
    returns or raises (also when a conversion fails in the middle of a live
    batch), the reward commands run so far, the lines of the ledger and the
    console are kept and only extended; the clock is read once per reward
    command; there are no more new data rows in the ledger than new reward
    commands; and when no command was run the ledger file is untouched. *)
Theorem distribute_only_appends (env : Env) (self : KNUDistributor F) (knot : string)
        (knus : list (KNUEntry F)) (dry_run : bool) (w : World F) :
  let w' := fst (distribute env self knot knus dry_run w) in
  exists new_calls new_lines evs,
    calls w' = calls w ++ new_calls
    /\ clock w' = (clock w + List.length new_calls)%nat
    /\ ledger_lines w' = ledger_lines w ++ new_lines
    /\ (List.length (row_txs new_lines) <= List.length new_calls)%nat
    /\ (new_calls = [] -> ledger w' = ledger w)
    /\ console w' = console w ++ evs.
Proof.
  cbv zeta.
  destruct (distribute_cases env self knot knus dry_run w)
    as [[e ->] | [pool_deg [weighted [_ ->]]]].
  - exists [], [], (match pools (pools_data self) knot with
                    | Some _ => skip_events self knot knus
                    | None => []
                    end).
    cbn. rewrite !app_nil_r, Nat.add_0_r. repeat split. lia.
  - destruct dry_run.
    + destruct (distribute_loop_dry_world env knot pool_deg (List.length weighted) weighted
                  0%nat 0 [] (add_console w (skip_events self knot knus)))
        as [[Hc [Hk Hl]] [evs Hevs]].
      set (w' := fst (distribute_loop env true knot pool_deg (List.length weighted) 0
                                      weighted 0 []
                                      (add_console w (skip_events self knot knus)))) in *.
      cbn [add_console clock calls ledger console] in Hc, Hk, Hl, Hevs.
      exists [], [], (skip_events self knot knus ++ evs).
      rewrite !app_nil_r, Nat.add_0_r, app_assoc. unfold ledger_lines. rewrite Hl.
      repeat split; try assumption. cbn. lia.
    + destruct (live_loop_effects env knot pool_deg (List.length weighted) weighted
                  0%nat 0 [] (add_console w (skip_events self knot knus)))
        as [w' [r [tried [out [rows [evs [-> [Hclock [Hcalls [Hled [Hsame [Hcon
              [Hexec [Hrows _]]]]]]]]]]]]]].
      cbn [fst].
      change (ledger_lines (add_console w (skip_events self knot knus)))
        with (ledger_lines w) in Hled.
      cbn [add_console clock calls ledger console] in Hclock, Hcalls, Hsame, Hcon.
      exists (map call_of tried), (header_for (ledger_lines w) rows ++ rows),
             (skip_events self knot knus ++ evs).
      rewrite length_map.
      destruct (logged_rows knot out rows Hrows) as [Htx _].
      pose proof (executed_length _ _ _ _ Hexec) as Hlen.
      split; [exact Hcalls | ]. split; [exact Hclock | ]. split; [exact Hled | ].
      split; [rewrite row_txs_header_for, Htx, length_map; exact Hlen | ].
      split; [ | rewrite Hcon, <- app_assoc; reflexivity].
      intros Hnil. apply Hsame. apply map_eq_nil in Hnil. subst tried.
      inversion Hexec; subst. inversion Hrows. reflexivity.
Qed.

(** a ledger that is empty, or a header followed by data rows only *)
Definition tidy (l : list (LedgerLine F)) : Prop :=
  match l with
  | [] => True
  | Header :: rows => Forall (fun line => line <> Header) rows
  | Row _ _ :: _ => False
  end.

(** X4: the ledger keeps its shape.  If the ledger that [distribute] finds is
    empty or absent, or is one header line followed by data rows only, so is
    the ledger it leaves: the header is written once, before the first row
    of a new or empty file, and never again. *)
Theorem distribute_keeps_ledger_tidy (env : Env) (self : KNUDistributor F) (knot : string)
        (knus : list (KNUEntry F)) (dry_run : bool) (w : World F) :
  tidy (ledger_lines w) ->
  tidy (ledger_lines (fst (distribute env self knot knus dry_run w))).
Proof.
  intros Htidy.
  destruct (distribute_cases env self knot knus dry_run w)
    as [[e ->] | [pool_deg [weighted [_ ->]]]]; [exact Htidy | ].
  destruct dry_run.
  - destruct (distribute_loop_dry_world env knot pool_deg (List.length weighted) weighted
                0%nat 0 [] (add_console w (skip_events self knot knus)))
      as [[_ [_ Hl]] _].
    unfold ledger_lines in *. rewrite Hl. exact Htidy.
  - destruct (live_loop_effects env knot pool_deg (List.length weighted) weighted
                0%nat 0 [] (add_console w (skip_events self knot knus)))
      as [w' [r [tried [out [rows [evs [-> [_ [_ [Hled [_ [_ [_ [Hrows _]]]]]]]]]]]]]].
    cbn [fst]. rewrite Hled.
    change (ledger_lines (add_console w (skip_events self knot knus)))
      with (ledger_lines w).
    destruct (logged_rows knot out rows Hrows) as [_ Hall].
    destruct (ledger_lines w) as [|[|md tx] old]; cbn [tidy] in Htidy.
    + destruct rows as [|line rows']; cbn [header_for app tidy]; [exact I | exact Hall].
    + cbn [header_for app tidy]. destruct rows; cbn [app]; apply Forall_app; now split.
    + contradiction.
Qed.

(** X5: the rows that a live [distribute] appends to the ledger mirror the
    list it returns: one row per returned record, in the same order, with
    the KNOT of the call and the knu id, owner, weight, tokens_tt,
    tokens_deg and transaction id of the record; they come after the header
    when the ledger was empty or absent; and when nothing is returned the
    ledger file is untouched. *)
Theorem live_ledger_rows_mirror_results (env : Env) (self : KNUDistributor F)
        (knot : string) (knus : list (KNUEntry F)) (w w' : World F)
        (ds : list (Distribution F)) :
  distribute env self knot knus false w = (w', Ok ds) ->
  exists rows,
    ledger_lines w' = ledger_lines w ++ header_for (ledger_lines w) rows ++ rows
    /\ Forall2 (logged knot) ds rows
    /\ (ds = [] -> ledger w' = ledger w).
Proof.
  destruct (distribute_cases env self knot knus false w)
    as [[e ->] | [pool_deg [weighted [_ ->]]]]; [discriminate | ].
  destruct (live_loop_effects env knot pool_deg (List.length weighted) weighted
              0%nat 0 [] (add_console w (skip_events self knot knus)))
    as [w1 [r [tried [out [rows [evs [-> [_ [_ [Hled [Hsame [_ [_ [Hrows Hres]]]]]]]]]]]]]].
  intros [= -> ->]. destruct Hres as [[= ->] | ?]; [ | discriminate].
  cbn [app] in *. exists rows. split; [exact Hled | ]. split; [exact Hrows | ].
  intros ->. inversion Hrows; subst. now apply Hsame.
Qed.


(** *** The records returned *)

Lemma allocations_fields (pool_deg : Z) (len : nat) (weighted : list (KNUEntry F * F)) :
  forall i total ds,
    allocations pool_deg len i weighted total = Some ds ->
    map d_knu_id ds = map (fun kw => knu_id (fst kw)) weighted
    /\ map d_owner ds = map (fun kw => owner (fst kw)) weighted
    /\ map weight ds = map snd weighted
    /\ Forall (fun d => int_truediv (tokens_deg d) DEG_PER_TT = Some (tokens_tt d)) ds.
Proof.
  induction weighted as [|[knu wgt] rest IH]; intros i total ds; cbn [allocations].
  - intros [= <-]. repeat split. constructor.
  - destruct (allocation pool_deg len i total wgt) as [alloc|] eqn:Ha; [ | discriminate].
    destruct (allocations pool_deg len (S i) rest (total + fst alloc)) as [ds'|] eqn:Hr;
      [ | discriminate].
    intros [= <-]. destruct (IH _ _ _ Hr) as [Hid [Hown [Hw Htt]]].
    cbn [map record_of d_knu_id d_owner weight fst snd]. rewrite Hid, Hown, Hw.
    repeat split. constructor; [ | exact Htt].
    now destruct (allocation_spec _ _ _ _ _ _ Ha) as [Hdiv _].
Qed.

Lemma calculate_weights_fst (self : KNUDistributor F) (knus : list (KNUEntry F))
      (alpha_arg lambda_spill_arg : option F) :
  map fst (calculate_weights self knus alpha_arg lambda_spill_arg) = knus.
Proof.
  unfold calculate_weights. rewrite calculate_weights_closed_form.
  rewrite map_map. apply map_id.
Qed.

(** X6: a dry run returns one record per input record that is eligible and
    belongs to the KNOT, in the order of the input, with that record's id
    and owner, the weight [calculate_weights] gives it, and an empty
    transaction id. *)
Theorem dry_run_returns_eligible_records_in_order (env : Env) (self : KNUDistributor F)
        (knot : string) (knus : list (KNUEntry F)) (w : World F)
        (ds : list (Distribution F)) :
  snd (distribute env self knot knus true w) = Ok ds ->
  let valid_knus := filter (eligible self knot) knus in
  map d_knu_id ds = map knu_id valid_knus
  /\ map d_owner ds = map owner valid_knus
  /\ map weight ds = map snd (calculate_weights self valid_knus None None)
  /\ Forall (fun d => tx_id d = EmptyString) ds.
Proof.
  rewrite distribute_spec.
  destruct (pools (pools_data self) knot) as [pool_data|]; [ | discriminate].
  cbv zeta.
  destruct (filter (eligible self knot) knus) as [|k valid]; [discriminate | ].
  destruct (to_deg (entry_pool_tt pool_data)) as [pool_deg|]; [ | discriminate].
  set (weighted := calculate_weights self (k :: valid) None None).
  destruct (allocations pool_deg (List.length weighted) 0 weighted 0) as [allocs|] eqn:Ha.
  - rewrite (distribute_loop_dry env knot _ _ _ _ _ _ _ _ Ha). cbn [snd app].
    intros [= <-].
    destruct (allocations_fields _ _ _ _ _ _ Ha) as [Hid [Hown [Hw _]]].
    pose proof (calculate_weights_fst self (k :: valid) None None) as Hfst.
    fold weighted in Hfst.
    rewrite Hid, Hown, Hw, <- !(map_map fst), Hfst.
    repeat split. eapply allocations_no_tx. exact Ha.
  - intros Hdry.
    rewrite (distribute_loop_raises env true knot _ _ _ _ _ _ _ Ha) in Hdry. discriminate.
Qed.

(** X7: in every record that [distribute] returns, in both modes and for the
    last record too, [tokens_tt] is [tokens_deg / 360]: the TT amount is
    always derived from the integer deg amount. *)
Theorem tokens_tt_is_tokens_deg_over_360 (env : Env) (self : KNUDistributor F)
        (knot : string) (knus : list (KNUEntry F)) (dry_run : bool) (w : World F)
        (ds : list (Distribution F)) :
  snd (distribute env self knot knus dry_run w) = Ok ds ->
  Forall (fun d => int_truediv (tokens_deg d) DEG_PER_TT = Some (tokens_tt d)) ds.
Proof.
  rewrite distribute_spec.
  destruct (pools (pools_data self) knot) as [pool_data|]; [ | discriminate].
  cbv zeta.
  destruct (filter (eligible self knot) knus) as [|k valid]; [discriminate | ].
  destruct (to_deg (entry_pool_tt pool_data)) as [pool_deg|]; [ | discriminate].
  set (weighted := calculate_weights self (k :: valid) None None).
  destruct (allocations pool_deg (List.length weighted) 0 weighted 0) as [allocs|] eqn:Ha.
  - destruct (allocations_fields _ _ _ _ _ _ Ha) as [_ [_ [_ Htt]]].
    destruct dry_run.
    + rewrite (distribute_loop_dry env knot _ _ _ _ _ _ _ _ Ha). cbn [snd app].
      now intros [= <-].
    + destruct (distribute_loop_live env knot _ _ _ 0%nat 0 []
                                     (add_console w (skip_events self knot knus)) _ Ha)
        as [w' [out [-> [Hexec _]]]].
      cbn [snd app]. intros [= <-].
      pose proof (executed_same_amounts _ _ _ _ Hexec) as Hsame.
      rewrite Forall_forall in Hsame, Htt. apply Forall_forall. intros d' Hin.
      destruct (Hsame d' Hin) as [d [Hd [[_ [_ [_ [Htt' Hdeg']]]] _]]].
      rewrite Htt', Hdeg'. now apply Htt.
  - intros Hrun.
    rewrite (distribute_loop_raises env dry_run knot _ _ _ _ _ _ _ Ha) in Hrun. discriminate.
Qed.

(** *** Calls that are rejected before anything is computed *)

(** X8: [distribute] for a KNOT that the pools configuration does not hold
    raises [ConfigError] before it looks at any record: nothing is printed,
    no reward is run, in both modes and whatever the records are. *)
Theorem distribute_unknown_knot_is_a_config_error (env : Env) (self : KNUDistributor F)
        (knot : string) (knus : list (KNUEntry F)) (dry_run : bool) (w : World F) :
  pools (pools_data self) knot = None ->
  distribute env self knot knus dry_run w
  = (w, Raise (ConfigError ("KNOT " ++ knot ++ " not found in pools config")%string)).
Proof. intros Hk. rewrite distribute_spec, Hk. reflexivity. Qed.

Lemma skip_events_length (self : KNUDistributor F) (knot : string)
      (knus : list (KNUEntry F)) :
  (List.length (skip_events self knot knus)
   + List.length (filter (eligible self knot) knus) = List.length knus)%nat.
Proof.
  induction knus as [|knu knus' IH]; [reflexivity | ].
  cbn [skip_events flat_map filter]. fold (skip_events self knot knus').
  unfold eligible at 1.
  destruct (fst (validate_eligibility self knu)); cbn [negb andb];
    [destruct (String.eqb (knot_id knu) knot); cbn [negb] | ];
    rewrite ?length_app; cbn [List.length app]; lia.
Qed.

(** X9: when no record is both eligible and of the KNOT (also for an empty
    list), [distribute] raises [ValidationError] after reporting every
    record once as skipped; no reward is run and the ledger is untouched. *)
Theorem distribute_without_valid_knus_is_a_validation_error
        (env : Env) (self : KNUDistributor F) (knot : string) (knus : list (KNUEntry F))
        (dry_run : bool) (w : World F) (pool_data : PoolEntry F) :
  pools (pools_data self) knot = Some pool_data ->
  filter (eligible self knot) knus = [] ->
  distribute env self knot knus dry_run w
  = (add_console w (skip_events self knot knus),
     Raise (ValidationError "No valid KNUs found for distribution"))
  /\ List.length (skip_events self knot knus) = List.length knus.
Proof.
  intros Hk Hnone. rewrite distribute_spec, Hk. cbv zeta. rewrite Hnone.
  split; [reflexivity | ].
  pose proof (skip_events_length self knot knus) as Hlen. rewrite Hnone in Hlen.
  cbn [List.length] in Hlen. lia.
Qed.


(** *** One reward *)


End EngineProperties.

(** *** Which identifier is taken *)

Lemma is_tx_id_length (m : string) : is_tx_id m -> String.length m = 9%nat.
Proof. intros [d [-> [Hlen _]]]. cbn [String.append String.length]. now rewrite Hlen. Qed.

Lemma append_same_length (a a' b b' : string) :
  (a ++ b)%string = (a' ++ b')%string -> String.length a = String.length a' -> a = a'.
Proof.
  revert a'. induction a as [|c a IH]; intros [|c' a']; cbn; try discriminate.
  - reflexivity.
  - intros [= -> Heq] [= Hlen]. f_equal. now apply IH.
Qed.

Lemma re_search_tx_leftmost (s m : string) :
  re_search_tx s = Some m ->
  exists pre post,
    s = (pre ++ m ++ post)%string
    /\ forall pre' m' post',
        s = (pre' ++ m' ++ post')%string -> is_tx_id m' ->
        (String.length pre <= String.length pre')%nat
        /\ (String.length pre' = String.length pre -> m' = m).
Proof.
  revert m. induction s as [|c s IH]; intros m; cbn [re_search_tx].
  - destruct (match_tx EmptyString) as [m0|] eqn:Hm; [ | discriminate].
    intros [= ->]. apply match_tx_spec in Hm. destruct Hm as [Hid [post Hs]].
    apply is_tx_id_length in Hid. destruct m; discriminate.
  - destruct (match_tx (String c s)) as [m0|] eqn:Hm.
    + intros [= ->]. apply match_tx_spec in Hm. destruct Hm as [Hid [post Hs]].
      exists EmptyString, post. split; [exact Hs | ].
      intros pre' m' post' Hs' Hid'. split; [cbn; lia | ].
      destruct pre' as [|c' pre'']; [ | discriminate]. intros _.
      cbn [String.append] in Hs'. rewrite Hs in Hs'. symmetry.
      apply (append_same_length _ _ _ _ Hs').
      now rewrite (is_tx_id_length _ Hid), (is_tx_id_length _ Hid').
    + intros Hs. destruct (IH m Hs) as [pre [post [Heq Hleft]]].
      exists (String c pre), post. split; [cbn [String.append]; now rewrite <- Heq | ].
      intros pre' m' post' Hs' Hid'.
      destruct pre' as [|c' pre''].
      * exfalso. cbn [String.append] in Hs'.
        assert (Hsome : match_tx (String c s) = Some m').
        { apply match_tx_spec. split; [exact Hid' | now exists post']. }
        rewrite Hsome in Hm. discriminate.
      * cbn [String.append] in Hs'. injection Hs' as _ Hs'.
        destruct (Hleft pre'' m' post' Hs' Hid') as [Hle Hsame].
        cbn [String.length]. split; [lia | ]. intros [= Hlen]. now apply Hsame.
Qed.

Section FirstIdentifier.

Context {F : Type} `{Number F}.


End FirstIdentifier.

(** ** The weighting formula in exact arithmetic, continued *)

Module ExactWeightLaws.

Import ExactSpec ExactWeights.
Local Open Scope Q_scope.

Lemma qsum_nonneg (l : list Q) : Forall (fun q => 0 <= q) l -> 0 <= qsum l.
Proof.
  induction 1 as [|q l Hq _ IH]; cbn [qsum fold_right]; [apply Qle_refl | ].
  fold (qsum l). lra.
Qed.

Lemma qsum_member_le (l : list Q) (q : Q) :
  Forall (fun x => 0 <= x) l -> In q l -> q <= qsum l.
Proof.
  induction 1 as [|x l Hx Hall IH]; intros Hin; [contradiction | ].
  cbn [qsum fold_right]. fold (qsum l). pose proof (qsum_nonneg l Hall) as Hs.
  destruct Hin as [-> | Hin]; [lra | ]. specialize (IH Hin). lra.
Qed.

(** records whose effort, primary impact and spillover are not negative *)
Definition sane (knu : KNUEntry Q) : Prop :=
  0 <= E_pred knu /\ 0 <= dR_primary knu /\ 0 <= dR_adj_sum knu.

Section Laws.

Variables alpha lambda_spill : Q.
Variable knus : list (KNUEntry Q).

Local Abbreviation E := (total_effort knus).
Local Abbreviation I := (total_impact lambda_spill knus).
Local Abbreviation W := (total_weight alpha lambda_spill knus).

Lemma total_weight_nonneg : 0 <= alpha <= 1 -> 0 <= W.
Proof.
  intros [Ha0 Ha1]. rewrite total_weight_value.
  pose proof (indicator_0_1 E) as [HE0 _]. pose proof (indicator_0_1 I) as [HI0 _].
  assert (0 <= alpha * indicator E) by (apply Qmult_le_0_compat; lra).
  assert (0 <= (1 - alpha) * indicator I) by (apply Qmult_le_0_compat; lra).
  lra.
Qed.

Lemma raw_weights_sum : qsum (map (raw_weight alpha lambda_spill knus) knus) == W.
Proof. unfold total_weight. now rewrite py_sum_qsum. Qed.

(** the weights sum to 1, or to 0 when there is no signal *)
Lemma sum_final_weight_le_1 :
  0 <= alpha <= 1 -> qsum (map (final_weight alpha lambda_spill knus) knus) <= 1.
Proof.
  intros Ha. pose proof (total_weight_nonneg Ha) as HW.
  destruct (Qlt_le_dec 0 W) as [Hpos | Hle].
  - rewrite (sum_final_weight _ _ _ Hpos). apply Qle_refl.
  - assert (Hext : map (final_weight alpha lambda_spill knus) knus
                   = map (raw_weight alpha lambda_spill knus) knus).
    { apply map_ext. intros k. now apply final_weight_raw. }
    rewrite Hext, raw_weights_sum. lra.
Qed.

Hypothesis alpha_range : 0 <= alpha <= 1.
Hypothesis lambda_nonneg : 0 <= lambda_spill.
Hypothesis knus_sane : Forall sane knus.

Lemma total_effort_nonneg : 0 <= E.
Proof.
  unfold total_effort. rewrite py_sum_qsum. apply qsum_nonneg.
  apply Forall_map. eapply Forall_impl; [ | exact knus_sane]. now intros k [He _].
Qed.

Lemma impact_nonneg (knu : KNUEntry Q) : sane knu -> 0 <= impact lambda_spill knu.
Proof.
  intros [_ [Hp Hs]]. unfold impact. cbn [fadd fmul Exact.number].
  assert (0 <= lambda_spill * dR_adj_sum knu) by now apply Qmult_le_0_compat.
  lra.
Qed.

Lemma total_impact_nonneg : 0 <= I.
Proof.
  unfold total_impact. rewrite py_sum_qsum. apply qsum_nonneg.
  apply Forall_map. eapply Forall_impl; [ | exact knus_sane]. apply impact_nonneg.
Qed.

Lemma share_nonneg (x t : Q) : 0 <= x -> 0 <= t -> 0 <= x / t.
Proof.
  intros Hx Ht. unfold Qdiv. apply Qmult_le_0_compat; [exact Hx | ].
  now apply Qinv_le_0_compat.
Qed.

Lemma raw_weight_nonneg (knu : KNUEntry Q) :
  sane knu -> 0 <= raw_weight alpha lambda_spill knus knu.
Proof.
  intros Hk. unfold raw_weight, effort_norm, impact_norm.
  cbn [fadd fmul fsub fone fzero feqb fdiv Exact.number].
  assert (He : 0 <= (if Qeq_bool E 0 then 0 else E_pred knu / E)).
  { destruct (Qeq_bool E 0); [apply Qle_refl | ].
    apply share_nonneg; [apply Hk | apply total_effort_nonneg]. }
  assert (Hi : 0 <= (if Qeq_bool I 0 then 0 else impact lambda_spill knu / I)).
  { destruct (Qeq_bool I 0); [apply Qle_refl | ].
    apply share_nonneg; [now apply impact_nonneg | apply total_impact_nonneg]. }
  destruct alpha_range as [Ha0 Ha1].
  assert (0 <= alpha * (if Qeq_bool E 0 then 0 else E_pred knu / E))
    by now apply Qmult_le_0_compat.
  assert (0 <= (1 - alpha) * (if Qeq_bool I 0 then 0 else impact lambda_spill knu / I))
    by (apply Qmult_le_0_compat; [lra | exact Hi]).
  lra.
Qed.

Lemma final_weight_range (knu : KNUEntry Q) :
  In knu knus -> 0 <= final_weight alpha lambda_spill knus knu <= 1.
Proof.
  intros Hin.
  assert (Hk : sane knu) by (rewrite Forall_forall in knus_sane; now apply knus_sane).
  pose proof (raw_weight_nonneg knu Hk) as Hraw.
  assert (Hall : Forall (fun x => 0 <= x) (map (raw_weight alpha lambda_spill knus) knus)).
  { apply Forall_map. eapply Forall_impl; [ | exact knus_sane]. apply raw_weight_nonneg. }
  assert (Hle : raw_weight alpha lambda_spill knus knu <= W).
  { rewrite <- raw_weights_sum. apply qsum_member_le; [exact Hall | ].
    now apply in_map. }
  destruct (Qlt_le_dec 0 W) as [Hpos | Hnpos].
  - rewrite (final_weight_normalised _ _ _ _ Hpos). split.
    + apply share_nonneg; [exact Hraw | now apply Qlt_le_weak].
    + apply Qle_shift_div_r; [exact Hpos | lra].
  - rewrite (final_weight_raw _ _ _ _ Hnpos). lra.
Qed.

End Laws.




(** *** The whole of a dry run in exact arithmetic *)

Lemma sum_deg_member_le (ds : list (Distribution Q)) (d : Distribution Q) :
  Forall (fun d => (0 <= tokens_deg d)%Z) ds -> In d ds -> (tokens_deg d <= sum_deg ds)%Z.
Proof.
  unfold sum_deg.
  induction 1 as [|x l Hx Hall IH]; intros Hin; [contradiction | ].
  cbn [map fold_right].
  assert (Hs : (0 <= fold_right Z.add 0 (map tokens_deg l))%Z).
  { clear - Hall. induction Hall as [|y l Hy _ IH]; cbn [map fold_right]; lia. }
  destruct Hin as [-> | Hin]; [lia | ]. specialize (IH Hin). lia.
Qed.

Lemma values_of_weights (f : KNUEntry Q -> Q) (l : list (KNUEntry Q)) :
  (forall x, In x l -> 0 <= f x) ->
  Forall2 (fun (kw : KNUEntry Q * Q) q => value (snd kw) = Some q /\ 0 <= q)
          (map (fun k => (k, f k)) l) (map snd (map (fun k => (k, f k)) l)).
Proof.
  induction l as [|x l IH]; intros Hin; cbn [map]; constructor.
  - cbn [snd]. split; [reflexivity | ]. apply Hin. now left.
  - apply IH. intros y Hy. apply Hin. now right.
Qed.

Lemma dict_get_none {A : Type} (default : A) : dict_get None default = default.
Proof. reflexivity. Qed.



(** *** The order of the batch *)

Lemma qsum_permutation (l l' : list Q) : Permutation l l' -> qsum l == qsum l'.
Proof.
  induction 1 as [ | x l l' _ IH | x y l | l l' l'' _ IH1 _ IH2];
    cbn [qsum fold_right]; fold qsum.
  - reflexivity.
  - fold (qsum l). fold (qsum l'). now rewrite IH.
  - fold (qsum l). ring.
  - now rewrite IH1.
Qed.

Lemma qsum_map_ext {A : Type} (f g : A -> Q) (l : list A) :
  (forall x, f x == g x) -> qsum (map f l) == qsum (map g l).
Proof.
  intros Hfg. induction l as [|x l IH]; cbn [map qsum fold_right]; [reflexivity | ].
  fold (qsum (map f l)). fold (qsum (map g l)). now rewrite IH, Hfg.
Qed.

Lemma Qeq_bool_compat (x y : Q) : x == y -> Qeq_bool x 0 = Qeq_bool y 0.
Proof.
  intros Hxy. destruct (Qeq_bool x 0) eqn:Hx, (Qeq_bool y 0) eqn:Hy; try reflexivity.
  - apply Qeq_bool_iff in Hx. apply Qeq_bool_neq in Hy. rewrite Hxy in Hx. contradiction.
  - apply Qeq_bool_iff in Hy. apply Qeq_bool_neq in Hx. rewrite <- Hxy in Hy. contradiction.
Qed.

Lemma Qle_bool_compat (x y : Q) : x == y -> Qle_bool x 0 = Qle_bool y 0.
Proof.
  intros Hxy. destruct (Qle_bool x 0) eqn:Hx, (Qle_bool y 0) eqn:Hy; try reflexivity.
  - apply Qle_bool_iff in Hx. rewrite Hxy in Hx. apply Qle_bool_iff in Hx. congruence.
  - apply Qle_bool_iff in Hy. rewrite <- Hxy in Hy. apply Qle_bool_iff in Hy. congruence.
Qed.

Section Order.

Variables alpha lambda_spill : Q.
Variables knus knus' : list (KNUEntry Q).
Hypothesis same_batch : Permutation knus knus'.

Lemma total_effort_permutation : total_effort knus == total_effort knus'.
Proof.
  unfold total_effort. rewrite !py_sum_qsum. apply qsum_permutation.
  now apply Permutation_map.
Qed.

Lemma total_impact_permutation :
  total_impact lambda_spill knus == total_impact lambda_spill knus'.
Proof.
  unfold total_impact. rewrite !py_sum_qsum. apply qsum_permutation.
  now apply Permutation_map.
Qed.

Lemma raw_weight_permutation (knu : KNUEntry Q) :
  raw_weight alpha lambda_spill knus knu == raw_weight alpha lambda_spill knus' knu.
Proof.
  unfold raw_weight, effort_norm, impact_norm.
  cbn [fadd fmul fsub fone fzero feqb fdiv Exact.number].
  rewrite (Qeq_bool_compat _ _ total_effort_permutation).
  rewrite (Qeq_bool_compat _ _ total_impact_permutation).
  destruct (Qeq_bool (total_effort knus') 0), (Qeq_bool (total_impact lambda_spill knus') 0);
    rewrite ?total_effort_permutation, ?total_impact_permutation; reflexivity.
Qed.

Lemma total_weight_permutation :
  total_weight alpha lambda_spill knus == total_weight alpha lambda_spill knus'.
Proof.
  unfold total_weight. rewrite !py_sum_qsum.
  rewrite (qsum_map_ext _ _ knus raw_weight_permutation).
  apply qsum_permutation. now apply Permutation_map.
Qed.

Lemma final_weight_permutation (knu : KNUEntry Q) :
  final_weight alpha lambda_spill knus knu == final_weight alpha lambda_spill knus' knu.
Proof.
  unfold final_weight. cbn [fltb fzero fdiv Exact.number].
  rewrite (Qle_bool_compat _ _ total_weight_permutation).
  destruct (Qle_bool (total_weight alpha lambda_spill knus') 0); cbn [negb].
  - apply raw_weight_permutation.
  - now rewrite raw_weight_permutation, total_weight_permutation.
Qed.

End Order.


End ExactWeightLaws.

(** * The command line

    [load_knus_from_file], the constructor of [KNUDistributor] and the four
    commands behind [main].  What the files hold comes from a [Disk], as
    the answers of the clock and of the reward process come from an [Env]:
    a file is missing, or cannot be read as what the program expects
    ([json.load] or the constructor of [KNUEntry] raises), or holds the decoded
    content.  What is printed is recorded line by line, unformatted. *)

(** exceptions that reach a command: the engine's, and those of the files *)
Inductive cli_exn : Type :=
| Engine (e : exn)
| FileNotFoundError (msg : string)
(** anything else: a JSON decoding error, a [TypeError] of a constructor *)
| OtherException (msg : string).

(** [except (DistributionError, ConfigError, FileNotFoundError)] *)
Definition handled (e : cli_exn) : bool :=
  match e with
  | Engine e' => is_DistributionError e'
  | FileNotFoundError _ => true
  | OtherException _ => false
  end.

Inductive outcome (A : Type) : Type :=
| Returned (a : A)
| Thrown (e : cli_exn).
Arguments Returned {A} a.
Arguments Thrown {A} e.

Inductive file (A : Type) : Type :=
| Missing
| Unreadable (msg : string)
| Holds (content : A).
Arguments Missing {A}.
Arguments Unreadable {A} msg.
Arguments Holds {A} content.

(** the parsed arguments *)
Record Args : Type := {
  arg_command : option string;
  arg_knot : string;
  arg_input : string;
  arg_dry_run : bool;
  arg_output : option string
}.

Declare Scope cli_scope.

Section CommandLine.

Context {F : Type} `{Number F}.

(** the ["parameters"] object of the pools configuration *)
Record Parameters : Type := {
  par_alpha : option F;
  par_lambda_spillover : option F
}.

(** the pools configuration file: what [PoolsData] holds, and the parameters *)
Record PoolsFile : Type := {
  pf_data : PoolsData F;
  pf_parameters : option Parameters
}.

(** [Dict[str, Dict[str, float]]] *)
Definition Adjacency : Type := string -> option (string -> option F).

Record AdjacencyData : Type := {
  adjacency : option Adjacency
}.

(** the input file: an array of records, or an object with a ["knus"] key *)
Inductive InputData : Type :=
| KnuArray (knus : list (KNUEntry F))
| KnuObject (knus : option (list (KNUEntry F))).

Record Disk : Type := {
  pools_file : string -> file PoolsFile;
  adjacency_file : string -> file AdjacencyData;
  input_file : string -> file InputData
}.

(** one entry of the ["distributions"] list of a report *)
Record ReportEntry : Type := {
  re_knu_id : string;
  re_owner : string;
  re_effort : F;
  re_impact_primary : F;
  re_impact_spillover : F;
  re_weight : F;
  re_tokens_tt : F;
  re_tokens_deg : Z
}.

Record Report : Type := {
  rep_knot_id : string;
  rep_pool_tt : F;
  rep_pool_description : string;
  rep_alpha : F;
  rep_lambda_spillover : F;
  rep_distributions : list ReportEntry;
  rep_total_knus : nat;
  rep_total_weight : F;
  rep_total_tt : F
}.

(** what the commands print, one constructor per [print] *)
Inductive Line : Type :=
| Said (ev : Event F)
| Rule
| ErrorLine (e : cli_exn)
| DistributionTitle (knot : string)
| DistributionComplete
| KnotLine (knot : string)
| DistributedCount (n : nat)
| TotalAllocated (total_tt : F) (total_deg : Z)
| NoKnusForKnot (knot : string)
| Warned (knu error : string)
| NoValidForCalculation
| CalculationTitle (knot : string)
| PoolLine (pool_tt : F)
| AlphaLine (alpha : F)
| LambdaLine (lambda_spillover : F)
| WeightLine (knu owner : string) (weight tokens_tt : F)
| TotalWeightLine (total_weight : F)
| ValidationTitle
| ValidLine (knu owner : string)
| InvalidLine (knu owner error : string)
| ValidationSummary (valid_count invalid_count : nat)
| NoValidForKnot (knot : string)
| ReportSaved (path : string)
| ReportPrinted (report : Report)
| HelpShown
| UnexpectedError (e : cli_exn)
| TracebackShown.

(** the engine's world, the lines printed and the report files written *)
Record Terminal : Type := {
  world : World F;
  lines : list Line;
  written : list (string * Report)
}.

Definition CM (A : Type) : Type := Terminal -> Terminal * outcome A.

Definition cret {A : Type} (a : A) : CM A := fun t => (t, Returned a).

Definition throw {A : Type} (e : cli_exn) : CM A := fun t => (t, Thrown e).

Definition cbind {A B : Type} (m : CM A) (k : A -> CM B) : CM B :=
  fun t =>
    match m t with
    | (t', Returned a) => k a t'
    | (t', Thrown e) => (t', Thrown e)
    end.

(** [try: m except classes as e: handler e] *)
Definition catch {A : Type} (m : CM A) (classes : cli_exn -> bool)
           (handler : cli_exn -> CM A) : CM A :=
  fun t =>
    match m t with
    | (t', Returned a) => (t', Returned a)
    | (t', Thrown e) => if classes e then handler e t' else (t', Thrown e)
    end.

Definition say (l : Line) : CM unit :=
  fun t =>
    ({| world := world t; lines := lines t ++ [l]; written := written t |}, Returned tt).

Definition write_file (path : string) (report : Report) : CM unit :=
  fun t =>
    ({| world := world t; lines := lines t; written := written t ++ [(path, report)] |},
     Returned tt).

(** a call into the engine: its effects on the world, and what it prints *)
Definition lift {A : Type} (m : M (World F) A) : CM A :=
  fun t =>
    let (w', r) := m (world t) in
    ({| world := w';
        lines := lines t ++ map Said (skipn (List.length (console (world t))) (console w'));
        written := written t |},
     match r with
     | Ok a => Returned a
     | Raise e => Thrown (Engine e)
     end).

Notation "x <- m ;; k" := (cbind m (fun x => k))
  (at level 61, m at next level, right associativity) : cli_scope.
Notation "m ;; k" := (cbind m (fun _ => k))
  (at level 61, right associativity) : cli_scope.
Local Open Scope cli_scope.

(** the float literals [0.30] and [0.50] *)
Variables default_alpha default_lambda_spillover : F.

(** [POOLS_CONFIG] and [ADJACENCY_CONFIG], paths under the repository root *)
Variables POOLS_CONFIG ADJACENCY_CONFIG : string.

Variable env : Env.
Variable disk : Disk.

(** the distributor that a pools configuration gives *)
Definition configured (pools_config : PoolsFile) : KNUDistributor F :=
  let params :=
    dict_get (pf_parameters pools_config)
             {| par_alpha := None; par_lambda_spillover := None |} in
  {| pools_data := pf_data pools_config;
     alpha := dict_get (par_alpha params) default_alpha;
     lambda_spillover := dict_get (par_lambda_spillover params) default_lambda_spillover |}.

(** [KNUDistributor(config_path)]: [__init__] and [_load_configs]; the
    object is the distributor and the adjacency data it keeps *)
Definition _load_configs (pools_config_path adjacency_config_path : string)
  : CM (KNUDistributor F * AdjacencyData) :=
  match pools_file disk pools_config_path with
  | Missing =>
    throw (Engine (ConfigError ("Pools config not found: " ++ pools_config_path)%string))
  | Unreadable msg => throw (OtherException msg)
  | Holds pools_config =>
    match adjacency_file disk adjacency_config_path with
    | Missing =>
      throw (Engine (ConfigError
                       ("Adjacency config not found: " ++ adjacency_config_path)%string))
    | Unreadable msg => throw (OtherException msg)
    | Holds adjacency_data => cret (configured pools_config, adjacency_data)
    end
  end.

Definition KNUDistributor_init (config_path : option string)
  : CM (KNUDistributor F * AdjacencyData) :=
  _load_configs (dict_get config_path POOLS_CONFIG) ADJACENCY_CONFIG.

Definition load_adjacency_graph (distributor : KNUDistributor F * AdjacencyData)
  : Adjacency :=
  dict_get (adjacency (snd distributor)) (fun _ => None).

Definition calculate_spillover (knu : KNUEntry F) (adjacency : Adjacency) : F :=
  dR_adj_sum knu.

(** the records of an input file *)
Definition records (data : InputData) : list (KNUEntry F) :=
  match data with
  | KnuArray knus => knus
  | KnuObject knus => dict_get knus []
  end.

Definition load_knus_from_file (filepath : string) : CM (list (KNUEntry F)) :=
  match input_file disk filepath with
  | Missing => throw (FileNotFoundError ("Input file not found: " ++ filepath)%string)
  | Unreadable msg => throw (OtherException msg)
  | Holds data => cret (records data)
  end.

(** [except (DistributionError, ConfigError, FileNotFoundError) as e] of
    every command *)
Definition report_error (e : cli_exn) : CM Z :=
  say (ErrorLine e) ;; cret 1.

Definition cmd_distribute (args : Args) : CM Z :=
  catch
    (distributor <- KNUDistributor_init None ;;
     knus <- load_knus_from_file (arg_input args) ;;
     say Rule ;;
     say (DistributionTitle (arg_knot args)) ;;
     say Rule ;;
     distributions <- lift (distribute env (fst distributor) (arg_knot args) knus
                                       (arg_dry_run args)) ;;
     let total_tt := py_sum (map tokens_tt distributions) in
     let total_deg := fold_left Z.add (map tokens_deg distributions) 0 in
     say Rule ;;
     say DistributionComplete ;;
     say Rule ;;
     say (KnotLine (arg_knot args)) ;;
     say (DistributedCount (List.length distributions)) ;;
     say (TotalAllocated total_tt total_deg) ;;
     say Rule ;;
     cret 0)
    handled report_error.

(** the loop of [cmd_calculate] that keeps the valid records *)
Fixpoint keep_valid (self : KNUDistributor F) (knot_knus valid_knus : list (KNUEntry F))
  : CM (list (KNUEntry F)) :=
  match knot_knus with
  | [] => cret valid_knus
  | knu :: rest =>
    let (is_valid, error) := validate_eligibility self knu in
    if is_valid then keep_valid self rest (valid_knus ++ [knu])
    else say (Warned (knu_id knu) error) ;; keep_valid self rest valid_knus
  end.

Fixpoint say_weights (pool : KNOTPool F) (weighted_knus : list (KNUEntry F * F))
  : CM unit :=
  match weighted_knus with
  | [] => cret tt
  | (knu, weight) :: rest =>
    let tokens_tt := fmul (pool_tt pool) weight in
    say (WeightLine (knu_id knu) (owner knu) weight tokens_tt) ;;
    say_weights pool rest
  end.

Definition cmd_calculate (args : Args) : CM Z :=
  catch
    (distributor <- KNUDistributor_init None ;;
     knus <- load_knus_from_file (arg_input args) ;;
     let knot_knus := filter (fun k => String.eqb (knot_id k) (arg_knot args)) knus in
     match knot_knus with
     | [] => say (NoKnusForKnot (arg_knot args)) ;; cret 1
     | _ =>
       valid_knus <- keep_valid (fst distributor) knot_knus [] ;;
       match valid_knus with
       | [] => say NoValidForCalculation ;; cret 1
       | _ =>
         let weighted_knus := calculate_weights (fst distributor) valid_knus None None in
         pool <- lift (load_pool_config (fst distributor) (arg_knot args)) ;;
         say Rule ;;
         say (CalculationTitle (arg_knot args)) ;;
         say (PoolLine (pool_tt pool)) ;;
         say (AlphaLine (alpha (fst distributor))) ;;
         say (LambdaLine (lambda_spillover (fst distributor))) ;;
         say Rule ;;
         say_weights pool weighted_knus ;;
         let total_weight := py_sum (map snd weighted_knus) in
         say Rule ;;
         say (TotalWeightLine total_weight) ;;
         say Rule ;;
         cret 0
       end
     end)
    handled report_error.

(** the loop of [cmd_validate], with its two counters *)
Fixpoint count_valid (self : KNUDistributor F) (knus : list (KNUEntry F))
         (valid_count invalid_count : nat) : CM (nat * nat) :=
  match knus with
  | [] => cret (valid_count, invalid_count)
  | knu :: rest =>
    let (is_valid, error) := validate_eligibility self knu in
    if is_valid then
      say (ValidLine (knu_id knu) (owner knu)) ;;
      count_valid self rest (S valid_count) invalid_count
    else
      say (InvalidLine (knu_id knu) (owner knu) error) ;;
      count_valid self rest valid_count (S invalid_count)
  end.

Definition cmd_validate (args : Args) : CM Z :=
  catch
    (distributor <- KNUDistributor_init None ;;
     knus <- load_knus_from_file (arg_input args) ;;
     say Rule ;;
     say ValidationTitle ;;
     say Rule ;;
     counts <- count_valid (fst distributor) knus 0 0 ;;
     say Rule ;;
     say (ValidationSummary (fst counts) (snd counts)) ;;
     say Rule ;;
     cret (if Nat.eqb (snd counts) 0 then 0 else 1))
    handled report_error.

(** [int(pool.pool_tt * weight * 360)] *)
Definition report_deg (pool_tt weight : F) : option Z :=
  match float_of_int 360 with
  | Some f360 => int_of_float (fmul (fmul pool_tt weight) f360)
  | None => None
  end.

(** the ["distributions"] list of the report *)
Fixpoint report_entries (pool : KNOTPool F) (weighted_knus : list (KNUEntry F * F))
  : option (list ReportEntry) :=
  match weighted_knus with
  | [] => Some []
  | (knu, weight) :: rest =>
    match report_deg (pool_tt pool) weight with
    | None => None
    | Some deg =>
      option_map
        (cons {| re_knu_id := knu_id knu; re_owner := owner knu;
                 re_effort := E_pred knu; re_impact_primary := dR_primary knu;
                 re_impact_spillover := dR_adj_sum knu; re_weight := weight;
                 re_tokens_tt := fmul (pool_tt pool) weight; re_tokens_deg := deg |})
        (report_entries pool rest)
    end
  end.

Definition cmd_report (args : Args) : CM Z :=
  catch
    (distributor <- KNUDistributor_init None ;;
     knus <- load_knus_from_file (arg_input args) ;;
     let knot_knus := filter (fun k => String.eqb (knot_id k) (arg_knot args)) knus in
     let valid_knus :=
       filter (fun k => fst (validate_eligibility (fst distributor) k)) knot_knus in
     match valid_knus with
     | [] => say (NoValidForKnot (arg_knot args)) ;; cret 1
     | _ =>
       let weighted_knus := calculate_weights (fst distributor) valid_knus None None in
       pool <- lift (load_pool_config (fst distributor) (arg_knot args)) ;;
       match report_entries pool weighted_knus with
       | None => throw (Engine ConversionError)
       | Some entries =>
         let report :=
           {| rep_knot_id := arg_knot args;
              rep_pool_tt := pool_tt pool;
              rep_pool_description := description pool;
              rep_alpha := alpha (fst distributor);
              rep_lambda_spillover := lambda_spillover (fst distributor);
              rep_distributions := entries;
              rep_total_knus := List.length valid_knus;
              rep_total_weight := py_sum (map snd weighted_knus);
              rep_total_tt := pool_tt pool |} in
         match arg_output args with
         | Some output_path =>
           if String.eqb output_path EmptyString then
             say (ReportPrinted report) ;; cret 0
           else
             write_file output_path report ;;
             say (ReportSaved output_path) ;;
             cret 0
         | None => say (ReportPrinted report) ;; cret 0
         end
       end
     end)
    handled report_error.

(** [main], once the arguments are parsed *)
Definition main (args : Args) : CM Z :=
  match arg_command args with
  | None => say HelpShown ;; cret 0
  | Some command =>
    if String.eqb command EmptyString then say HelpShown ;; cret 0
    else
      catch
        (if String.eqb command "distribute" then cmd_distribute args
         else if String.eqb command "calculate" then cmd_calculate args
         else if String.eqb command "validate" then cmd_validate args
         else if String.eqb command "report" then cmd_report args
         else say HelpShown ;; cret 0)
        (fun _ => true)
        (fun e => say (UnexpectedError e) ;; say TracebackShown ;; cret 1)
  end.


(** ** Properties of the commands *)

Definition add_lines (t : Terminal) (ls : list Line) : Terminal :=
  {| world := world t; lines := lines t ++ ls; written := written t |}.

Lemma add_lines_nil (t : Terminal) : add_lines t [] = t.
Proof. unfold add_lines. rewrite app_nil_r. now destruct t. Qed.

Lemma add_lines_app (t : Terminal) (l1 l2 : list Line) :
  add_lines (add_lines t l1) l2 = add_lines t (l1 ++ l2).
Proof. unfold add_lines. cbn. now rewrite app_assoc. Qed.

Lemma say_add (l : Line) (t : Terminal) : say l t = (add_lines t [l], Returned tt).
Proof. reflexivity. Qed.

(** *** [cmd_validate] *)

Definition validation_line (self : KNUDistributor F) (knu : KNUEntry F) : Line :=
  if fst (validate_eligibility self knu) then ValidLine (knu_id knu) (owner knu)
  else InvalidLine (knu_id knu) (owner knu) (snd (validate_eligibility self knu)).

Definition is_valid (self : KNUDistributor F) (knu : KNUEntry F) : bool :=
  fst (validate_eligibility self knu).

Lemma count_valid_spec (self : KNUDistributor F) (knus : list (KNUEntry F)) :
  forall valid_count invalid_count t,
    count_valid self knus valid_count invalid_count t
    = (add_lines t (map (validation_line self) knus),
       Returned ((valid_count + List.length (filter (is_valid self) knus))%nat,
                 (invalid_count
                  + List.length (filter (fun k => negb (is_valid self k)) knus))%nat)).
Proof.
  unfold is_valid, validation_line.
  induction knus as [|knu rest IH]; intros v i t; cbn [count_valid map filter].
  - rewrite add_lines_nil, !Nat.add_0_r. reflexivity.
  - destruct (validate_eligibility self knu) as [ok error]. cbn [fst snd].
    destruct ok; cbn [negb]; unfold cbind; rewrite say_add, IH, add_lines_app;
      cbn [app List.length]; rewrite <- ?plus_n_Sm; reflexivity.
Qed.

Lemma filter_length_split {A : Type} (f : A -> bool) (l : list A) :
  (List.length (filter f l) + List.length (filter (fun x => negb (f x)) l)
   = List.length l)%nat.
Proof.
  induction l as [|x l IH]; [reflexivity | ].
  cbn [filter]. destruct (f x); cbn [negb List.length]; lia.
Qed.

Lemma filter_nil_forallb {A : Type} (f : A -> bool) (l : list A) :
  Nat.eqb (List.length (filter (fun x => negb (f x)) l)) 0 = forallb f l.
Proof.
  induction l as [|x l IH]; [reflexivity | ].
  cbn [filter forallb]. destruct (f x); cbn [negb andb List.length]; [exact IH | reflexivity].
Qed.

(** *** Calls into the engine *)

Lemma lift_load_pool_config (self : KNUDistributor F) (knot : string) (t : Terminal) :
  lift (load_pool_config self knot) t
  = (t, match pools (pools_data self) knot with
        | None =>
          Thrown (Engine (ConfigError ("KNOT " ++ knot ++ " not found in pools config")%string))
        | Some pool_data =>
          Returned {| pool_knot_id := knot; pool_tt := entry_pool_tt pool_data;
                      description := dict_get (entry_description pool_data) EmptyString |}
        end).
Proof.
  unfold lift, load_pool_config.
  destruct (pools (pools_data self) knot) as [pool_data|]; cbn [raise ret];
    rewrite skipn_all, app_nil_r; now destruct t.
Qed.

(** what the engine printed during a call *)
Definition heard (w w' : World F) : list Line :=
  map Said (skipn (List.length (console w)) (console w')).

Definition after_engine (t : Terminal) (w' : World F) : Terminal :=
  {| world := w'; lines := lines t ++ heard (world t) w'; written := written t |}.

(** *** The loops of [cmd_calculate] *)

Definition warnings (self : KNUDistributor F) (knus : list (KNUEntry F)) : list Line :=
  flat_map (fun knu => if is_valid self knu then []
                       else [Warned (knu_id knu) (snd (validate_eligibility self knu))])
           knus.

Lemma keep_valid_spec (self : KNUDistributor F) (knot_knus : list (KNUEntry F)) :
  forall valid_knus t,
    keep_valid self knot_knus valid_knus t
    = (add_lines t (warnings self knot_knus),
       Returned (valid_knus ++ filter (is_valid self) knot_knus)).
Proof.
  unfold warnings, is_valid.
  induction knot_knus as [|knu rest IH]; intros valid t; cbn [keep_valid flat_map filter].
  - rewrite add_lines_nil, app_nil_r. reflexivity.
  - destruct (validate_eligibility self knu) as [ok error]. cbn [fst snd].
    destruct ok.
    + rewrite IH, <- app_assoc. reflexivity.
    + unfold cbind. rewrite say_add, IH, add_lines_app. reflexivity.
Qed.

Definition weight_line (pool : KNOTPool F) (kw : KNUEntry F * F) : Line :=
  WeightLine (knu_id (fst kw)) (owner (fst kw)) (snd kw) (fmul (pool_tt pool) (snd kw)).

Lemma say_weights_spec (pool : KNOTPool F) (weighted_knus : list (KNUEntry F * F)) :
  forall t,
    say_weights pool weighted_knus t
    = (add_lines t (map (weight_line pool) weighted_knus), Returned tt).
Proof.
  induction weighted_knus as [|[knu weight] rest IH]; intros t; cbn [say_weights map].
  - now rewrite add_lines_nil.
  - unfold cbind. rewrite say_add, IH, add_lines_app. reflexivity.
Qed.

(** the commands filter by KNOT and then by eligibility, [distribute] the
    other way round: the records left are the same *)
Lemma filter_knot_then_valid (self : KNUDistributor F) (knot : string)
      (knus : list (KNUEntry F)) :
  filter (is_valid self) (filter (fun k => String.eqb (knot_id k) knot) knus)
  = filter (eligible self knot) knus.
Proof.
  unfold is_valid, eligible.
  induction knus as [|knu rest IH]; [reflexivity | ]. cbn [filter].
  destruct (String.eqb (knot_id knu) knot); cbn [filter]; rewrite IH;
    destruct (fst (validate_eligibility self knu)); reflexivity.
Qed.


Section FilesPresent.

Variable args : Args.
Variable pools_config : PoolsFile.
Variable adjacency_data : AdjacencyData.
Variable data : InputData.

Hypothesis pools_present : pools_file disk POOLS_CONFIG = Holds pools_config.
Hypothesis adjacency_present : adjacency_file disk ADJACENCY_CONFIG = Holds adjacency_data.
Hypothesis input_present : input_file disk (arg_input args) = Holds data.

Lemma init_returns (t : Terminal) :
  KNUDistributor_init None t = (t, Returned (configured pools_config, adjacency_data)).
Proof.
  unfold KNUDistributor_init, _load_configs. cbn [dict_get].
  now rewrite pools_present, adjacency_present.
Qed.

Lemma load_returns (t : Terminal) :
  load_knus_from_file (arg_input args) t = (t, Returned (records data)).
Proof. unfold load_knus_from_file. now rewrite input_present. Qed.

Lemma cmd_validate_spec (t : Terminal) :
  let self := configured pools_config in
  let knus := records data in
  cmd_validate args t
  = (add_lines t ([Rule; ValidationTitle; Rule] ++ map (validation_line self) knus
                  ++ [Rule;
                      ValidationSummary
                        (List.length (filter (is_valid self) knus))
                        (List.length (filter (fun k => negb (is_valid self k)) knus));
                      Rule]),
     Returned (if forallb (is_valid self) knus then 0 else 1)).
Proof.
  cbv zeta. unfold cmd_validate, catch, cbind.
  rewrite init_returns, load_returns. cbn [fst snd]. rewrite !say_add.
  rewrite count_valid_spec. rewrite !say_add. cbn [fst snd cret Nat.add].
  rewrite !add_lines_app, filter_nil_forallb. cbn [app]. rewrite <- ?app_assoc. reflexivity.
Qed.


Lemma cmd_distribute_spec (t : Terminal) :
  let self := configured pools_config in
  let knot := arg_knot args in
  let run := distribute env self knot (records data) (arg_dry_run args)
                        (world (add_lines t [Rule; DistributionTitle knot; Rule])) in
  let t' := after_engine (add_lines t [Rule; DistributionTitle knot; Rule]) (fst run) in
  cmd_distribute args t
  = match snd run with
    | Ok distributions =>
      (add_lines t' [Rule; DistributionComplete; Rule; KnotLine knot;
                     DistributedCount (List.length distributions);
                     TotalAllocated (py_sum (map tokens_tt distributions))
                                    (fold_left Z.add (map tokens_deg distributions) 0);
                     Rule],
       Returned 0)
    | Raise e =>
      if is_DistributionError e then (add_lines t' [ErrorLine (Engine e)], Returned 1)
      else (t', Thrown (Engine e))
    end.
Proof.
  cbv zeta. unfold cmd_distribute, catch, cbind.
  rewrite init_returns, load_returns. cbn [fst snd]. rewrite !say_add, !add_lines_app.
  cbn [app]. unfold lift at 1.
  destruct (distribute env (configured pools_config) (arg_knot args) (records data)
                       (arg_dry_run args)
                       (world (add_lines t [Rule; DistributionTitle (arg_knot args); Rule])))
    as [w' [ds | e]]; cbn [fst snd].
  - rewrite !say_add, !add_lines_app. reflexivity.
  - cbn [handled]. destruct (is_DistributionError e); [ | reflexivity].
    unfold report_error, cbind. rewrite say_add. reflexivity.
Qed.

Lemma cmd_calculate_spec (t : Terminal) :
  let self := configured pools_config in
  let knot := arg_knot args in
  let knot_knus := filter (fun k => String.eqb (knot_id k) knot) (records data) in
  let valid_knus := filter (eligible self knot) (records data) in
  let weighted_knus := calculate_weights self valid_knus None None in
  cmd_calculate args t
  = match knot_knus with
    | [] => (add_lines t [NoKnusForKnot knot], Returned 1)
    | _ =>
      match valid_knus with
      | [] => (add_lines t (warnings self knot_knus ++ [NoValidForCalculation]), Returned 1)
      | _ =>
        match pools (pools_data self) knot with
        | None =>
          (add_lines t (warnings self knot_knus
                        ++ [ErrorLine
                              (Engine (ConfigError
                                 ("KNOT " ++ knot ++ " not found in pools config")%string))]),
           Returned 1)
        | Some pool_data =>
          let pool := {| pool_knot_id := knot; pool_tt := entry_pool_tt pool_data;
                         description :=
                           dict_get (entry_description pool_data) EmptyString |} in
          (add_lines t (warnings self knot_knus
                        ++ [Rule; CalculationTitle knot; PoolLine (pool_tt pool);
                            AlphaLine (alpha self); LambdaLine (lambda_spillover self);
                            Rule]
                        ++ map (weight_line pool) weighted_knus
                        ++ [Rule; TotalWeightLine (py_sum (map snd weighted_knus)); Rule]),
           Returned 0)
        end
      end
    end.
Proof.
  cbv zeta. unfold cmd_calculate, catch. unfold cbind at 1 2.
  rewrite init_returns, load_returns. cbn [fst snd].
  rewrite <- (filter_knot_then_valid (configured pools_config) (arg_knot args)).
  destruct (filter (fun k => String.eqb (knot_id k) (arg_knot args)) (records data))
    as [|k0 rest] eqn:Hknot.
  { unfold cbind. rewrite say_add. reflexivity. }
  unfold cbind at 1. rewrite keep_valid_spec. cbn [app].
  destruct (filter (is_valid (configured pools_config)) (k0 :: rest)) as [|v0 valid].
  { unfold cbind. rewrite say_add, add_lines_app. reflexivity. }
  unfold cbind at 1. rewrite lift_load_pool_config.
  destruct (pools (pools_data (configured pools_config)) (arg_knot args)) as [pool_data|].
  - unfold cbind. rewrite !say_add, say_weights_spec, !say_add, !add_lines_app.
    cbn [cret pool_tt app]. rewrite <- ?app_assoc. reflexivity.
  - cbn [handled is_DistributionError]. unfold report_error, cbind.
    rewrite say_add, add_lines_app. reflexivity.
Qed.

(** the report of [cmd_report] *)
Definition report_of (self : KNUDistributor F) (knot : string) (pool : KNOTPool F)
           (valid_knus : list (KNUEntry F)) (entries : list ReportEntry) : Report :=
  {| rep_knot_id := knot;
     rep_pool_tt := pool_tt pool;
     rep_pool_description := description pool;
     rep_alpha := alpha self;
     rep_lambda_spillover := lambda_spillover self;
     rep_distributions := entries;
     rep_total_knus := List.length valid_knus;
     rep_total_weight := py_sum (map snd (calculate_weights self valid_knus None None));
     rep_total_tt := pool_tt pool |}.

Lemma cmd_report_spec (t : Terminal) :
  let self := configured pools_config in
  let knot := arg_knot args in
  let valid_knus := filter (eligible self knot) (records data) in
  cmd_report args t
  = match valid_knus with
    | [] => (add_lines t [NoValidForKnot knot], Returned 1)
    | _ =>
      match pools (pools_data self) knot with
      | None =>
        (add_lines t [ErrorLine
                        (Engine (ConfigError
                           ("KNOT " ++ knot ++ " not found in pools config")%string))],
         Returned 1)
      | Some pool_data =>
        let pool := {| pool_knot_id := knot; pool_tt := entry_pool_tt pool_data;
                       description :=
                         dict_get (entry_description pool_data) EmptyString |} in
        match report_entries pool (calculate_weights self valid_knus None None) with
        | None => (t, Thrown (Engine ConversionError))
        | Some entries =>
          let report := report_of self knot pool valid_knus entries in
          match arg_output args with
          | Some output_path =>
            if String.eqb output_path EmptyString then
              (add_lines t [ReportPrinted report], Returned 0)
            else
              ({| world := world t; lines := lines t ++ [ReportSaved output_path];
                  written := written t ++ [(output_path, report)] |}, Returned 0)
          | None => (add_lines t [ReportPrinted report], Returned 0)
          end
        end
      end
    end.
Proof.
  cbv zeta. unfold cmd_report, catch. unfold cbind at 1 2.
  rewrite init_returns, load_returns. cbn [fst snd].
  rewrite <- (filter_knot_then_valid (configured pools_config) (arg_knot args)).
  unfold is_valid.
  destruct (filter (fun knu => fst (validate_eligibility (configured pools_config) knu))
                   (filter (fun k => String.eqb (knot_id k) (arg_knot args)) (records data)))
    as [|v0 valid].
  { unfold cbind. rewrite say_add. reflexivity. }
  unfold cbind at 1. rewrite lift_load_pool_config.
  destruct (pools (pools_data (configured pools_config)) (arg_knot args)) as [pool_data|].
  2:{ cbn [handled is_DistributionError]. unfold report_error, cbind.
      rewrite say_add. reflexivity. }
  destruct (report_entries _ _) as [entries|]; [ | reflexivity].
  destruct (arg_output args) as [output_path|].
  - destruct (String.eqb output_path EmptyString).
    + unfold cbind. rewrite say_add. reflexivity.
    + unfold cbind, write_file. rewrite say_add. reflexivity.
  - unfold cbind. rewrite say_add. reflexivity.
Qed.

(** X16: [cmd_validate] returns 0 exactly when every record of the input file
    passes [validate_eligibility], and 1 otherwise; it prints one line per
    record and the two counts, which add up to the number of records, and
    touches neither the engine's world nor any file. *)
Theorem cmd_validate_succeeds_iff_all_valid (t : Terminal) :
  let self := configured pools_config in
  let knus := records data in
  exists t' code valid_count invalid_count new,
    cmd_validate args t = (t', Returned code)
    /\ world t' = world t /\ written t' = written t
    /\ (code = 0 <-> Forall (fun knu => fst (validate_eligibility self knu) = true) knus)
    /\ (code = 0 \/ code = 1)
    /\ lines t' = lines t ++ new
    /\ In (ValidationSummary valid_count invalid_count) new
    /\ (valid_count + invalid_count = List.length knus)%nat
    /\ List.length new = (6 + List.length knus)%nat.
Proof.
  cbv zeta. rewrite cmd_validate_spec. cbv zeta.
  do 5 eexists. split; [reflexivity | ]. cbn [add_lines world written lines].
  split; [reflexivity | ]. split; [reflexivity | ]. split.
  { destruct (forallb (is_valid (configured pools_config)) (records data)) eqn:Hall.
    - split; [ | reflexivity]. intros _. apply Forall_forall. intros k Hk.
      rewrite forallb_forall in Hall. exact (Hall k Hk).
    - split; [discriminate | ]. intros Hforall.
      assert (Htrue : forallb (is_valid (configured pools_config)) (records data) = true).
      { apply forallb_forall. intros k Hk. rewrite Forall_forall in Hforall.
        exact (Hforall k Hk). }
      congruence. }
  split; [destruct (forallb _ _); [now left | now right] | ].
  split; [reflexivity | ]. split.
  { apply in_app_iff. right. apply in_app_iff. right. right. now left. }
  split; [apply filter_length_split | ].
  rewrite !length_app, length_map. cbn [List.length]. lia.
Qed.

(** X17: [cmd_distribute] returns 0 exactly when [distribute] returns, whatever
    it returns: also when every reward of the batch has failed and the list
    is empty.  It returns 1 when [distribute] raises a [DistributionError],
    and lets any other exception through; the world it leaves is the one
    [distribute] leaves. *)
Theorem cmd_distribute_succeeds_iff_distribute_returns (t : Terminal) :
  let self := configured pools_config in
  let run := distribute env self (arg_knot args) (records data) (arg_dry_run args)
                        (world t) in
  exists t',
    cmd_distribute args t
    = (t', match snd run with
           | Ok _ => Returned 0
           | Raise e => if is_DistributionError e then Returned 1 else Thrown (Engine e)
           end)
    /\ world t' = fst run /\ written t' = written t.
Proof.
  cbv zeta. rewrite cmd_distribute_spec. cbv zeta. cbn [add_lines world].
  destruct (distribute env (configured pools_config) (arg_knot args) (records data)
                       (arg_dry_run args) (world t)) as [w' [ds | e]]; cbn [fst snd].
  - eexists. split; [reflexivity | ]. split; reflexivity.
  - destruct (is_DistributionError e); eexists; (split; [reflexivity | ]); split; reflexivity.
Qed.

Lemma report_entries_fields (pool : KNOTPool F) (weighted_knus : list (KNUEntry F * F)) :
  forall entries,
    report_entries pool weighted_knus = Some entries ->
    map re_knu_id entries = map (fun kw => knu_id (fst kw)) weighted_knus
    /\ map re_owner entries = map (fun kw => owner (fst kw)) weighted_knus
    /\ map re_weight entries = map snd weighted_knus
    /\ Forall2 (fun kw e => report_deg (pool_tt pool) (snd kw) = Some (re_tokens_deg e)
                            /\ re_tokens_tt e = fmul (pool_tt pool) (snd kw))
               weighted_knus entries.
Proof.
  induction weighted_knus as [|[knu weight] rest IH]; intros entries; cbn [report_entries].
  - intros [= <-]. repeat split. constructor.
  - destruct (report_deg (pool_tt pool) weight) as [deg|] eqn:Hdeg; [ | discriminate].
    destruct (report_entries pool rest) as [entries'|]; [ | discriminate].
    intros [= <-]. destruct (IH entries' eq_refl) as [Hid [Hown [Hw Hall]]].
    cbn [map re_knu_id re_owner re_weight fst snd]. rewrite Hid, Hown, Hw.
    repeat split. constructor; [ | exact Hall]. cbn. now split.
Qed.

(** X18: [cmd_report] and [distribute] weigh the same records: whenever a dry
    run of [distribute] returns and [cmd_report] produces a report, the
    report lists the records of the dry run, in the same order, with the same
    owners and the same weights.  (The commands filter by KNOT first and by
    eligibility second, [distribute] the other way round.) *)
Theorem report_lists_the_records_of_a_dry_run (t t' : Terminal) (w : World F)
        (ds : list (Distribution F)) :
  let self := configured pools_config in
  snd (distribute env self (arg_knot args) (records data) true w) = Ok ds ->
  cmd_report args t = (t', Returned 0) ->
  exists report,
    (lines t' = lines t ++ [ReportPrinted report]
     \/ exists path, written t' = written t ++ [(path, report)])
    /\ map re_knu_id (rep_distributions report) = map d_knu_id ds
    /\ map re_owner (rep_distributions report) = map d_owner ds
    /\ map re_weight (rep_distributions report) = map weight ds
    /\ rep_total_knus report = List.length ds.
Proof.
  cbv zeta. rewrite distribute_spec, cmd_report_spec. cbv zeta.
  destruct (pools (pools_data (configured pools_config)) (arg_knot args)) as [pool_data|];
    [ | discriminate].
  destruct (filter (eligible (configured pools_config) (arg_knot args)) (records data))
    as [|k valid]; [discriminate | ].
  destruct (to_deg (entry_pool_tt pool_data)) as [pool_deg|]; [ | discriminate].
  set (weighted := calculate_weights (configured pools_config) (k :: valid) None None).
  destruct (allocations pool_deg (List.length weighted) 0 weighted 0) as [allocs|] eqn:Ha.
  2:{ intros Hdry.
      rewrite (distribute_loop_raises env true (arg_knot args) _ _ _ _ _ _ _ Ha) in Hdry.
      discriminate. }
  rewrite (distribute_loop_dry env (arg_knot args) _ _ _ _ _ _ _ _ Ha). cbn [snd app].
  intros [= <-].
  destruct (allocations_fields _ _ _ _ _ _ Ha) as [Hid [Hown [Hw _]]].
  pose proof (allocations_length _ _ _ _ _ _ Ha) as Hlen.
  destruct (report_entries _ weighted) as [entries|] eqn:He; [ | discriminate].
  destruct (report_entries_fields _ _ _ He) as [Hid' [Hown' [Hw' _]]].
  assert (Hwlen : List.length weighted = List.length (k :: valid)).
  { unfold weighted, calculate_weights. rewrite calculate_weights_closed_form.
    apply length_map. }
  set (report := report_of (configured pools_config) (arg_knot args) _ (k :: valid) entries).
  assert (Hfields : map re_knu_id (rep_distributions report) = map d_knu_id allocs
                    /\ map re_owner (rep_distributions report) = map d_owner allocs
                    /\ map re_weight (rep_distributions report) = map weight allocs
                    /\ rep_total_knus report = List.length allocs).
  { cbn [report report_of rep_distributions rep_total_knus].
    rewrite Hid, Hown, Hw, Hid', Hown', Hw', Hlen, Hwlen. repeat split. }
  destruct (arg_output args) as [output_path|].
  - destruct (String.eqb output_path EmptyString); intros [= <-]; exists report;
      (split; [ | exact Hfields]); cbn [add_lines lines written];
      [now left | right; now exists output_path].
  - intros [= <-]. exists report. split; [now left | exact Hfields].
Qed.

(** the records, owners and weights that weight lines show *)
Fixpoint weights_shown (ls : list Line) : list (string * string * F) :=
  match ls with
  | [] => []
  | WeightLine knu owner weight _ :: rest => (knu, owner, weight) :: weights_shown rest
  | _ :: rest => weights_shown rest
  end.

Lemma weights_shown_app (l1 l2 : list Line) :
  weights_shown (l1 ++ l2) = weights_shown l1 ++ weights_shown l2.
Proof.
  induction l1 as [|l l1 IH]; [reflexivity | ].
  destruct l; cbn [app weights_shown]; rewrite IH; reflexivity.
Qed.

Lemma weights_shown_warnings (self : KNUDistributor F) (knus : list (KNUEntry F)) :
  weights_shown (warnings self knus) = [].
Proof.
  unfold warnings. induction knus as [|knu rest IH]; [reflexivity | ].
  cbn [flat_map]. rewrite weights_shown_app, IH.
  destruct (is_valid self knu); reflexivity.
Qed.

Lemma weights_shown_weight_lines (pool : KNOTPool F) (weighted : list (KNUEntry F * F)) :
  weights_shown (map (weight_line pool) weighted)
  = map (fun kw => (knu_id (fst kw), owner (fst kw), snd kw)) weighted.
Proof.
  induction weighted as [|kw rest IH]; [reflexivity | ].
  cbn [map weights_shown weight_line]. now rewrite IH.
Qed.

(** X19: whenever a dry run of [distribute] returns, [cmd_calculate] returns 0
    and the weight lines it prints show the records of the dry run, in the
    same order, with the same owners and weights; it touches neither the
    engine's world nor any file. *)
Theorem cmd_calculate_shows_the_weights_of_a_dry_run (t : Terminal) (w : World F)
        (ds : list (Distribution F)) :
  let self := configured pools_config in
  snd (distribute env self (arg_knot args) (records data) true w) = Ok ds ->
  exists t' new,
    cmd_calculate args t = (t', Returned 0)
    /\ world t' = world t /\ written t' = written t
    /\ lines t' = lines t ++ new
    /\ weights_shown new = map (fun d => (d_knu_id d, d_owner d, weight d)) ds.
Proof.
  cbv zeta. rewrite distribute_spec, cmd_calculate_spec. cbv zeta.
  destruct (pools (pools_data (configured pools_config)) (arg_knot args)) as [pool_data|];
    [ | discriminate].
  pose proof (filter_knot_then_valid (configured pools_config) (arg_knot args)
                                     (records data)) as Hfilter.
  destruct (filter (eligible (configured pools_config) (arg_knot args)) (records data))
    as [|k valid]; [discriminate | ].
  destruct (filter (fun k0 => String.eqb (knot_id k0) (arg_knot args)) (records data))
    as [|k0 rest]; [discriminate | ].
  destruct (to_deg (entry_pool_tt pool_data)) as [pool_deg|]; [ | discriminate].
  set (weighted := calculate_weights (configured pools_config) (k :: valid) None None).
  destruct (allocations pool_deg (List.length weighted) 0 weighted 0) as [allocs|] eqn:Ha.
  2:{ intros Hdry.
      rewrite (distribute_loop_raises env true (arg_knot args) _ _ _ _ _ _ _ Ha) in Hdry.
      discriminate. }
  rewrite (distribute_loop_dry env (arg_knot args) _ _ _ _ _ _ _ _ Ha). cbn [snd app].
  intros [= <-].
  destruct (allocations_fields _ _ _ _ _ _ Ha) as [Hid [Hown [Hw _]]].
  eexists. eexists. split; [reflexivity | ]. cbn [add_lines world written lines].
  split; [reflexivity | ]. split; [reflexivity | ]. split; [reflexivity | ].
  rewrite weights_shown_app, weights_shown_warnings. cbn [app weights_shown].
  rewrite weights_shown_app, weights_shown_weight_lines. cbn [weights_shown].
  rewrite app_nil_r.
  clear - Hid Hown Hw. revert allocs Hid Hown Hw.
  induction weighted as [|kw rest' IH]; intros [|d allocs]; cbn [map]; try discriminate.
  - reflexivity.
  - intros [= Hid1 Hid] [= Hown1 Hown] [= Hw1 Hw].
    rewrite Hid1, Hown1, Hw1. f_equal. now apply IH.
Qed.

End FilesPresent.

(** *** Files that are missing *)

(** X20: a command whose pools configuration, adjacency configuration or input
    file is missing prints the error and returns 1; it prints nothing else,
    runs no reward and writes nothing.  The adjacency configuration is
    required although no command reads what it holds. *)
Theorem commands_need_their_files (args : Args) (t : Terminal) (e : cli_exn) :
  (pools_file disk POOLS_CONFIG = Missing
   /\ e = Engine (ConfigError ("Pools config not found: " ++ POOLS_CONFIG)%string))
  \/ ((exists pools_config, pools_file disk POOLS_CONFIG = Holds pools_config)
      /\ adjacency_file disk ADJACENCY_CONFIG = Missing
      /\ e = Engine (ConfigError ("Adjacency config not found: " ++ ADJACENCY_CONFIG)%string))
  \/ ((exists pools_config, pools_file disk POOLS_CONFIG = Holds pools_config)
      /\ (exists adjacency_data, adjacency_file disk ADJACENCY_CONFIG = Holds adjacency_data)
      /\ input_file disk (arg_input args) = Missing
      /\ e = FileNotFoundError ("Input file not found: " ++ arg_input args)%string) ->
  cmd_distribute args t = (add_lines t [ErrorLine e], Returned 1)
  /\ cmd_calculate args t = (add_lines t [ErrorLine e], Returned 1)
  /\ cmd_validate args t = (add_lines t [ErrorLine e], Returned 1)
  /\ cmd_report args t = (add_lines t [ErrorLine e], Returned 1).
Proof.
  unfold cmd_distribute, cmd_calculate, cmd_validate, cmd_report, catch.
  unfold cbind at 1 2 16 17 29 30 39 40.
  unfold KNUDistributor_init, _load_configs, load_knus_from_file. cbn [dict_get].
  intros [[Hp ->] | [[[pf Hp] [Ha ->]] | [[pf Hp] [[adj Ha] [Hi ->]]]]];
    rewrite Hp, ?Ha, ?Hi; cbn [throw cret handled is_DistributionError];
    unfold report_error, cbind; rewrite !say_add; repeat split.
Qed.

(** *** Exit codes *)

(** a command that returns, returns 0 or 1 *)
Definition exits01 (m : CM Z) : Prop :=
  forall t t' code, m t = (t', Returned code) -> code = 0 \/ code = 1.

Lemma exits01_cret0 : exits01 (cret 0).
Proof. intros t t' code [= _ <-]. now left. Qed.

Lemma exits01_cret1 : exits01 (cret 1).
Proof. intros t t' code [= _ <-]. now right. Qed.

Lemma exits01_throw (e : cli_exn) : exits01 (throw e).
Proof. intros t t' code. discriminate. Qed.

Lemma exits01_cbind {A : Type} (m : CM A) (k : A -> CM Z) :
  (forall a, exits01 (k a)) -> exits01 (cbind m k).
Proof.
  intros Hk t t' code. unfold cbind. destruct (m t) as [t1 [a | e]]; [ | discriminate].
  apply Hk.
Qed.

Lemma exits01_catch (m : CM Z) (classes : cli_exn -> bool) (handler : cli_exn -> CM Z) :
  exits01 m -> (forall e, exits01 (handler e)) -> exits01 (catch m classes handler).
Proof.
  intros Hm Hh t t' code. unfold catch. destruct (m t) as [t1 [c | e]] eqn:Hrun.
  - intros [= <- <-]. exact (Hm _ _ _ Hrun).
  - destruct (classes e); [apply Hh | discriminate].
Qed.

Ltac exits01_step :=
  first [ apply exits01_cret0 | apply exits01_cret1 | apply exits01_throw
        | apply exits01_cbind; intros
        | match goal with
          | |- exits01 (cret (if ?b then _ else _)) => destruct b
          | |- exits01 (match ?x with _ => _ end) => destruct x
          end ].

Lemma exits01_report_error (e : cli_exn) : exits01 (report_error e).
Proof. unfold report_error. repeat exits01_step. Qed.

Lemma exits01_commands (args : Args) :
  exits01 (cmd_distribute args) /\ exits01 (cmd_calculate args)
  /\ exits01 (cmd_validate args) /\ exits01 (cmd_report args).
Proof.
  unfold cmd_distribute, cmd_calculate, cmd_validate, cmd_report.
  repeat split; (apply exits01_catch; [ | apply exits01_report_error]);
    cbv zeta; repeat exits01_step.
Qed.

(** X21: [main] lets no exception through and returns 0 or 1, whatever the
    arguments, the files and the reward process. *)
Theorem main_returns_0_or_1 (args : Args) (t : Terminal) :
  exists t' code, main args t = (t', Returned code) /\ (code = 0 \/ code = 1).
Proof.
  unfold main.
  assert (Hhelp : exists t' code,
             cbind (say HelpShown) (fun _ => cret 0) t = (t', Returned code)
             /\ (code = 0 \/ code = 1)).
  { eexists. exists 0. split; [reflexivity | now left]. }
  destruct (arg_command args) as [command|]; [ | exact Hhelp].
  destruct (String.eqb command EmptyString); [exact Hhelp | ].
  destruct (exits01_commands args) as [Hd [Hc [Hv Hr]]].
  assert (Hall : forall m : CM Z, exits01 m ->
             exists t' code,
               catch m (fun _ => true)
                     (fun e => cbind (say (UnexpectedError e))
                                     (fun _ => cbind (say TracebackShown) (fun _ => cret 1)))
                     t = (t', Returned code)
               /\ (code = 0 \/ code = 1)).
  { intros m Hm. unfold catch. destruct (m t) as [t1 [c | e]] eqn:Hrun.
    - exists t1, c. split; [reflexivity | exact (Hm _ _ _ Hrun)].
    - eexists. exists 1. split; [reflexivity | now right]. }
  apply Hall.
  destruct (String.eqb command "distribute"); [exact Hd | ].
  destruct (String.eqb command "calculate"); [exact Hc | ].
  destruct (String.eqb command "validate"); [exact Hv | ].
  destruct (String.eqb command "report"); [exact Hr | ].
  repeat exits01_step.
Qed.

End CommandLine.

Arguments Parameters F : clear implicits.
Arguments PoolsFile F : clear implicits.
Arguments Adjacency F : clear implicits.
Arguments AdjacencyData F : clear implicits.
Arguments InputData F : clear implicits.
Arguments Disk F : clear implicits.
Arguments ReportEntry F : clear implicits.
Arguments Report F : clear implicits.
Arguments Line F : clear implicits.
Arguments Terminal F : clear implicits.
Arguments CM F A : clear implicits.

(** ** The report against the allocation, in exact arithmetic *)

Module ExactReport.

Import ExactSpec.
Local Open Scope Q_scope.

Lemma exact_to_deg (pool_tt : Q) :
  0 <= pool_tt -> to_deg pool_tt = Some (Qfloor (pool_tt * 360)).
Proof.
  intros Hp. unfold to_deg. cbn [float_of_int int_of_float fmul Exact.number].
  f_equal. apply Qtrunc_floor. apply Qmult_le_0_compat; [exact Hp | discriminate].
Qed.


End ExactReport.

(** ** The further properties at concrete inputs *)

Module EngineExamples.

Import Examples.
Local Open Scope float_scope.

Definition team_live : World float * result (list (Distribution float)) :=
  Eval vm_compute in distribute second_fails k06 "K06" team false world0.

Definition team_rewarded : list (Distribution float) :=
  match snd team_live with
  | Ok ds => ds
  | Raise _ => []
  end.

Lemma team_live_run :
  distribute second_fails k06 "K06" team false world0 = (fst team_live, Ok team_rewarded).
Proof. vm_compute. reflexivity. Qed.

Lemma ledger_stays_tidy_on_team :
  tidy (ledger_lines world0)
  /\ tidy (ledger_lines (fst (distribute second_fails k06 "K06" team false world0))).
Proof.
  assert (H0 : tidy (ledger_lines world0)) by exact I.
  exact (conj H0 (distribute_keeps_ledger_tidy second_fails k06 "K06" team false world0 H0)).
Defined.

Lemma ledger_rows_of_team :
  map tokens_deg team_rewarded = [31108; 6528]%Z
  /\ exists rows,
      ledger_lines (fst team_live)
      = ledger_lines world0 ++ header_for (ledger_lines world0) rows ++ rows
      /\ Forall2 (logged "K06") team_rewarded rows
      /\ (team_rewarded = [] -> ledger (fst team_live) = ledger world0).
Proof.
  split; [vm_compute; reflexivity | ].
  exact (live_ledger_rows_mirror_results second_fails k06 "K06" team world0
                                         (fst team_live) team_rewarded team_live_run).
Defined.

Lemma alice_alone_is_the_eligible_record :
  snd (distribute second_fails k06 "K06" [alice; pending] true world0) = Ok alice_alone
  /\ map d_knu_id alice_alone = ["KNU-K06-00-001"]
  /\ map d_owner alice_alone = ["alice"].
Proof.
  assert (Hdry : snd (distribute second_fails k06 "K06" [alice; pending] true world0)
                 = Ok alice_alone) by (vm_compute; reflexivity).
  destruct (dry_run_returns_eligible_records_in_order
              second_fails k06 "K06" [alice; pending] world0 alice_alone Hdry)
    as [Hid [Hown _]].
  exact (conj Hdry (conj Hid Hown)).
Defined.

Lemma team_tokens_tt :
  snd (distribute second_fails k06 "K06" team false world0) = Ok team_rewarded
  /\ Forall (fun d => int_truediv (tokens_deg d) DEG_PER_TT = Some (tokens_tt d))
            team_rewarded.
Proof.
  assert (Hrun : snd (distribute second_fails k06 "K06" team false world0)
                 = Ok team_rewarded) by (vm_compute; reflexivity).
  exact (conj Hrun (tokens_tt_is_tokens_deg_over_360
                      second_fails k06 "K06" team false world0 team_rewarded Hrun)).
Defined.

Lemma unknown_knot_K99 :
  pools (pools_data k06) "K99" = None
  /\ distribute second_fails k06 "K99" team false world0
     = (world0, Raise (ConfigError "KNOT K99 not found in pools config")).
Proof.
  assert (Hk : pools (pools_data k06) "K99" = None) by reflexivity.
  exact (conj Hk (distribute_unknown_knot_is_a_config_error
                    second_fails k06 "K99" team false world0 Hk)).
Defined.

Definition other_knot : KNUEntry float :=
  {| knu_id := "KNU-K07-00-001"; knot_id := "K07"; owner := "erin"; E_pred := 1;
     dR_primary := 1; dR_adj_sum := 0; status := "merged";
     artifacts := ["evidence/003.md"]; validated_by := "knot_owner";
     validated_at := "2026-01-10T00:00:00Z" |}.

Lemma nobody_to_reward :
  filter (eligible k06 "K06") [pending; other_knot] = []
  /\ snd (distribute second_fails k06 "K06" [pending; other_knot] false world0)
     = Raise (ValidationError "No valid KNUs found for distribution")
  /\ console (fst (distribute second_fails k06 "K06" [pending; other_knot] false world0))
     = [SkippedIneligible "KNU-K06-00-002"
                          "Status 'pending' not in required: ['accepted', 'merged']";
        SkippedOtherKnot "KNU-K07-00-001" "K07" "K06"].
Proof.
  assert (Hk : pools (pools_data k06) "K06"
               = Some {| entry_pool_tt := 150; entry_description := None |}) by reflexivity.
  assert (Hnone : filter (eligible k06 "K06") [pending; other_knot] = [])
    by (vm_compute; reflexivity).
  destruct (distribute_without_valid_knus_is_a_validation_error
              second_fails k06 "K06" [pending; other_knot] false world0 _ Hk Hnone)
    as [Hrun _].
  refine (conj Hnone _). rewrite Hrun. split; [reflexivity | vm_compute; reflexivity].
Defined.

(** a reward process that prints two identifiers *)
Definition two_identifiers : Env :=
  {| now_at := fun _ => EmptyString;
     run_at := fun _ => Completed 0 "ok TX-000001, retried as TX-000002" EmptyString |}.

Definition some_metadata : Metadata float :=
  {| md_timestamp := EmptyString; md_knot_id := "K06"; md_knu_id := "KNU-K06-00-001";
     md_owner := "alice"; md_E_pred := 5; md_dR_primary := 30; md_dR_adj_sum := 10;
     md_weight := 1; md_tokens_tt := 150; md_tokens_deg := 54000;
     md_validated_by := "knot_owner" |}.


End EngineExamples.

Module ExactLawExamples.

Import ExactSpec ExactExamples ExactWeightLaws.
Local Open Scope Q_scope.

Definition alice_weight : Q :=
  Eval vm_compute in nth 0 (map snd (calculate_weights_with (3 # 10) (1 # 2) team)) 0.

Lemma team_is_sane : Forall sane team.
Proof. repeat constructor; apply Qle_bool_imp_le; reflexivity. Qed.


(** efforts 8 and 2 and no impact at all *)
Definition no_impact : list (KNUEntry Q) :=
  [entry "KNU-K06-00-001" "alice" 8 0 0; entry "KNU-K06-00-002" "bob" 2 0 0].

Definition alice_effort_weight : Q :=
  Eval vm_compute in nth 0 (map snd (calculate_weights_with (3 # 10) (1 # 2) no_impact)) 0.


Definition k06 : KNUDistributor Q :=
  {| pools_data :=
       {| pools := fun knot =>
                     if String.eqb knot "K06" then
                       Some {| entry_pool_tt := 301 # 2; entry_description := None |}
                     else None;
          eligibility := None |};
     alpha := 3 # 10;
     lambda_spillover := 1 # 2 |}.



End ExactLawExamples.

Module CommandExamples.

Import Examples.
Local Open Scope float_scope.

Definition POOLS : string := "finance/knu_pools.json".
Definition ADJACENCY : string := "finance/knu_adjacency.json".

(** the pools of [k06], with no ["parameters"] object *)
Definition pools_config : PoolsFile float :=
  {| pf_data := pools_data k06; pf_parameters := None |}.

Definition adjacency_data : AdjacencyData float := {| adjacency := None |}.

Definition disk0 : Disk float :=
  {| pools_file := fun path => if String.eqb path POOLS then Holds pools_config else Missing;
     adjacency_file :=
       fun path => if String.eqb path ADJACENCY then Holds adjacency_data else Missing;
     input_file :=
       fun path =>
         if String.eqb path "knus.json" then Holds (KnuArray [alice; pending]) else Missing |}.

Definition empty_disk : Disk float :=
  {| pools_file := fun _ => Missing;
     adjacency_file := fun _ => Missing;
     input_file := fun _ => Missing |}.

Definition terminal0 : Terminal float :=
  {| world := world0; lines := []; written := [] |}.

Definition args_of (command : string) (dry_run : bool) : Args :=
  {| arg_command := Some command; arg_knot := "K06"; arg_input := "knus.json";
     arg_dry_run := dry_run; arg_output := None |}.

(** every reward is refused *)
Definition all_refused : Env :=
  {| now_at := fun _ => "2026-01-10T00:00:00+00:00";
     run_at := fun _ => Completed 1 EmptyString "insufficient balance" |}.

Lemma defaults_give_k06 : configured alpha_030 lambda_050 pools_config = k06.
Proof. reflexivity. Qed.

Lemma validate_finds_the_pending_record :
  input_file disk0 "knus.json" = Holds (KnuArray [alice; pending])
  /\ exists t',
      cmd_validate alpha_030 lambda_050 POOLS ADJACENCY disk0 (args_of "validate" false)
                   terminal0 = (t', Returned 1%Z)
      /\ ~ Forall (fun knu => fst (validate_eligibility k06 knu) = true) [alice; pending].
Proof.
  assert (Hp : pools_file disk0 POOLS = Holds pools_config) by reflexivity.
  assert (Ha : adjacency_file disk0 ADJACENCY = Holds adjacency_data) by reflexivity.
  assert (Hi : input_file disk0 (arg_input (args_of "validate" false))
               = Holds (KnuArray [alice; pending])) by reflexivity.
  destruct (cmd_validate_succeeds_iff_all_valid
              alpha_030 lambda_050 POOLS ADJACENCY disk0 (args_of "validate" false)
              pools_config adjacency_data (KnuArray [alice; pending]) Hp Ha Hi terminal0)
    as [t' [code [v [i [new [Hrun [_ [_ [Hiff [H01 _]]]]]]]]]].
  assert (Hcode : code = 1%Z).
  { assert (Hc : snd (cmd_validate alpha_030 lambda_050 POOLS ADJACENCY disk0
                                   (args_of "validate" false) terminal0) = Returned 1%Z)
      by (vm_compute; reflexivity).
    rewrite Hrun in Hc. now injection Hc. }
  subst code. refine (conj Hi (ex_intro _ t' (conj Hrun _))).
  intros Hall. apply Hiff in Hall. discriminate.
Defined.

Lemma distribute_exits_0_when_every_reward_is_refused :
  snd (distribute all_refused k06 "K06" [alice; pending] false world0) = Ok []
  /\ exists t',
      cmd_distribute alpha_030 lambda_050 POOLS ADJACENCY all_refused disk0
                     (args_of "distribute" false) terminal0 = (t', Returned 0%Z)
      /\ world t' = fst (distribute all_refused k06 "K06" [alice; pending] false world0).
Proof.
  assert (Hp : pools_file disk0 POOLS = Holds pools_config) by reflexivity.
  assert (Ha : adjacency_file disk0 ADJACENCY = Holds adjacency_data) by reflexivity.
  assert (Hi : input_file disk0 (arg_input (args_of "distribute" false))
               = Holds (KnuArray [alice; pending])) by reflexivity.
  assert (Hrun : snd (distribute all_refused k06 "K06" [alice; pending] false world0) = Ok [])
    by (vm_compute; reflexivity).
  destruct (cmd_distribute_succeeds_iff_distribute_returns
              alpha_030 lambda_050 POOLS ADJACENCY all_refused disk0
              (args_of "distribute" false) pools_config adjacency_data
              (KnuArray [alice; pending]) Hp Ha Hi terminal0)
    as [t' [Hcmd [Hw _]]].
  change (snd (distribute all_refused (configured alpha_030 lambda_050 pools_config)
                          (arg_knot (args_of "distribute" false))
                          (records (KnuArray [alice; pending]))
                          (arg_dry_run (args_of "distribute" false)) (world terminal0)))
    with (snd (distribute all_refused k06 "K06" [alice; pending] false world0)) in Hcmd.
  rewrite Hrun in Hcmd.
  exact (conj Hrun (ex_intro _ t' (conj Hcmd Hw))).
Defined.

Definition report_run : Terminal float * outcome Z :=
  Eval vm_compute in
    cmd_report alpha_030 lambda_050 POOLS ADJACENCY disk0 (args_of "report" false) terminal0.

Lemma report_on_alice_and_pending :
  snd (distribute second_fails k06 "K06" [alice; pending] true world0) = Ok alice_alone
  /\ cmd_report alpha_030 lambda_050 POOLS ADJACENCY disk0 (args_of "report" false) terminal0
     = (fst report_run, Returned 0%Z)
  /\ exists report,
      (lines (fst report_run) = lines terminal0 ++ [ReportPrinted report]
       \/ exists path, written (fst report_run) = written terminal0 ++ [(path, report)])
      /\ map re_knu_id (rep_distributions report) = map d_knu_id alice_alone
      /\ map re_owner (rep_distributions report) = map d_owner alice_alone
      /\ map re_weight (rep_distributions report) = map weight alice_alone
      /\ rep_total_knus report = List.length alice_alone.
Proof.
  assert (Hp : pools_file disk0 POOLS = Holds pools_config) by reflexivity.
  assert (Ha : adjacency_file disk0 ADJACENCY = Holds adjacency_data) by reflexivity.
  assert (Hi : input_file disk0 (arg_input (args_of "report" false))
               = Holds (KnuArray [alice; pending])) by reflexivity.
  assert (Hdry : snd (distribute second_fails k06 "K06" [alice; pending] true world0)
                 = Ok alice_alone) by (vm_compute; reflexivity).
  assert (Hrep : cmd_report alpha_030 lambda_050 POOLS ADJACENCY disk0
                            (args_of "report" false) terminal0
                 = (fst report_run, Returned 0%Z)) by (vm_compute; reflexivity).
  exact (conj Hdry (conj Hrep
           (report_lists_the_records_of_a_dry_run
              alpha_030 lambda_050 POOLS ADJACENCY second_fails disk0
              (args_of "report" false) pools_config adjacency_data
              (KnuArray [alice; pending]) Hp Ha Hi terminal0 (fst report_run) world0
              alice_alone Hdry Hrep))).
Defined.

Lemma calculate_on_alice_and_pending :
  snd (distribute second_fails k06 "K06" [alice; pending] true world0) = Ok alice_alone
  /\ exists t' new,
      cmd_calculate alpha_030 lambda_050 POOLS ADJACENCY disk0 (args_of "calculate" false)
                    terminal0 = (t', Returned 0%Z)
      /\ world t' = world0
      /\ weights_shown new = [("KNU-K06-00-001", "alice", 1)].
Proof.
  assert (Hp : pools_file disk0 POOLS = Holds pools_config) by reflexivity.
  assert (Ha : adjacency_file disk0 ADJACENCY = Holds adjacency_data) by reflexivity.
  assert (Hi : input_file disk0 (arg_input (args_of "calculate" false))
               = Holds (KnuArray [alice; pending])) by reflexivity.
  assert (Hdry : snd (distribute second_fails k06 "K06" [alice; pending] true world0)
                 = Ok alice_alone) by (vm_compute; reflexivity).
  destruct (cmd_calculate_shows_the_weights_of_a_dry_run
              alpha_030 lambda_050 POOLS ADJACENCY second_fails disk0
              (args_of "calculate" false) pools_config adjacency_data
              (KnuArray [alice; pending]) Hp Ha Hi terminal0 world0 alice_alone Hdry)
    as [t' [new [Hrun [Hw [_ [_ Hshown]]]]]].
  exact (conj Hdry (ex_intro _ t' (ex_intro _ new (conj Hrun (conj Hw Hshown))))).
Defined.

Lemma commands_on_an_empty_disk :
  let e := Engine (ConfigError "Pools config not found: finance/knu_pools.json") in
  pools_file empty_disk POOLS = Missing
  /\ cmd_distribute alpha_030 lambda_050 POOLS ADJACENCY second_fails empty_disk
                    (args_of "distribute" false) terminal0
     = (add_lines terminal0 [ErrorLine e], Returned 1%Z)
  /\ cmd_calculate alpha_030 lambda_050 POOLS ADJACENCY empty_disk
                   (args_of "calculate" false) terminal0
     = (add_lines terminal0 [ErrorLine e], Returned 1%Z).
Proof.
  cbv zeta.
  assert (Hp : pools_file empty_disk POOLS = Missing) by reflexivity.
  destruct (commands_need_their_files
              alpha_030 lambda_050 POOLS ADJACENCY second_fails empty_disk
              (args_of "distribute" false) terminal0
              (Engine (ConfigError "Pools config not found: finance/knu_pools.json"))
              (or_introl (conj Hp eq_refl)))
    as [Hd [Hc _]].
  exact (conj Hp (conj Hd Hc)).
Defined.

End CommandExamples.

Module ExactReportExamples.

Import ExactSpec.
Local Open Scope Q_scope.


End ExactReportExamples.
